(** * WatchMate: rating aggregation, review ledger and rankings

    A shallow embedding of the review and ranking views of
    [watchlist/api/views.py] together with the model fields of
    [watchlist/models.py] and the serializers of
    [watchlist/api/serializers.py] they rely on.

    Conventions of the embedding.

    - A table is the list of its rows, in the order in which the
      database engine yields them when it scans the table.  SQL leaves
      that order to the engine, so the theorems quantify over every row
      order.  SQL leaves the order of rows with equal sort keys to the
      engine as well: [order_by] returns them as it met them, which is
      one of the orders an engine may return, and the general theorems
      state of a sorted result only what holds of every such order
      (its rows, that it is sorted, its length).
    - [FloatField] values are kept as exact rationals ([Q]); every value
      that the evaluated scenarios produce is a small integer or a
      dyadic number, on which exact and IEEE arithmetic agree.  The
      average that [perform_create] stores is a double: what
      [ReviewCreate_maintains_aggregate] proves of its value is a fact
      about the formula in exact arithmetic, which the stored double
      approximates; every other theorem that names a stored average
      does so on a scenario where it is a small integer.
    - Python integers are unbounded, hence [Z]; an [IntegerField] column
      holds 64 bits, and the database adapter refuses a larger number
      with OverflowError.  The serializers validate that range, so the
      one computed integer that reaches a column unchecked is the count
      of [perform_create], where the refusal is modelled.
    - Timestamps are microseconds on the [Z] line; the clock reading of a
      request is an argument of the view.
    - A view is a computation in a state-and-exception monad over the
      database: a raised exception stops the view and keeps the writes
      already made (the project does not enable ATOMIC_REQUESTS).
    - Columns that no view logic reads or computes ([title], [storyline],
      [release_year], [duration], [poster], [trailer_url] of a title;
      [description], [is_spoiler] of a review) are left out of the rows; a
      payload stands for a request whose values for them validate.
    - Authentication and throttling sit in front of the views and are not
      part of the model: the requesting user is already authenticated. *)

From Stdlib Require Import List ZArith QArith Qabs Bool Lia Lqa Permutation Sorted.
Import ListNotations.
From Stdlib Require String.

Local Open Scope Z_scope.

(** ** Rows (models.py) *)

Module WatchList.
(** [class WatchList(models.Model)].  [genres] holds the genre keys of
    the rows of the many-to-many table that belong to this title. *)
Record t : Type := mk {
  id : Z;
  platform : Z;
  active : bool;
  avg_rating : Q;
  number_rating : Z;
  created : Z;
  genres : list Z
}.
End WatchList.

Module Review.
(** [class Review(models.Model)]. *)
Record t : Type := mk {
  id : Z;
  review_user : Z;
  rating : Z;
  watchlist : Z;
  active : bool;
  created : Z;
  update : Z;
  helpful_count : Z
}.
End Review.

(** [django.contrib.auth.models.User], as far as the views look at it. *)
Record User : Type := mkUser {
  user_id : Z;
  is_staff : bool
}.

(** The database: the tables, and the next key of each auto-increment
    primary key that the views insert into. *)
Record DB : Type := mkDB {
  watchlists : list WatchList.t;
  reviews : list Review.t;
  platforms : list Z;
  genre_table : list Z;
  next_watchlist_id : Z;
  next_review_id : Z
}.

(** ** Exceptions and the view monad *)

Inductive Error : Type :=
| InvalidRating        (* serializer: rating outside 1..5 *)
| RequiredField        (* serializer: a required field is missing *)
| InvalidData          (* serializer: any other field fails *)
| DuplicateReview      (* ValidationError("You have already reviewed this movie!") *)
| NotFound             (* Http404 / 404 response *)
| Forbidden            (* PermissionDenied *)
| DoesNotExist         (* uncaught Model.DoesNotExist *)
| ZeroDivisionError    (* uncaught ZeroDivisionError *)
| OverflowError.       (* uncaught OverflowError of the database adapter *)

Inductive result (A : Type) : Type :=
| Ok : A -> result A
| Raise : Error -> result A.
Arguments Ok {A} _.
Arguments Raise {A} _.

Definition M (A : Type) : Type := DB -> result A * DB.

Definition ret {A : Type} (a : A) : M A := fun db => (Ok a, db).

Definition raise {A : Type} (e : Error) : M A := fun db => (Raise e, db).

Definition bind {A B : Type} (m : M A) (k : A -> M B) : M B :=
  fun db =>
    match m db with
    | (Ok a, db') => k a db'
    | (Raise e, db') => (Raise e, db')
    end.

Definition get_db : M DB := fun db => (Ok db, db).

Definition put_db (db' : DB) : M unit := fun _ => (Ok tt, db').

Declare Scope view_scope.
Delimit Scope view_scope with view.
Notation "x <- m ;; k" := (bind m (fun x => k))
  (at level 100, m at next level, right associativity) : view_scope.
Notation "m ;;; k" := (bind m (fun _ => k))
  (at level 100, right associativity) : view_scope.

(** ** The ORM calls the views make *)

Definition set_watchlists (ws : list WatchList.t) (db : DB) : DB :=
  mkDB ws (reviews db) (platforms db) (genre_table db)
       (next_watchlist_id db) (next_review_id db).

Definition set_reviews (rs : list Review.t) (db : DB) : DB :=
  mkDB (watchlists db) rs (platforms db) (genre_table db)
       (next_watchlist_id db) (next_review_id db).

(** [WatchList.objects.get(pk=pk)] *)
Definition WatchList_get (pk : Z) : M WatchList.t :=
  fun db =>
    match find (fun w => WatchList.id w =? pk) (watchlists db) with
    | Some w => (Ok w, db)
    | None => (Raise DoesNotExist, db)
    end.

(** [Review.objects.get(pk=pk)] *)
Definition Review_get (pk : Z) : M Review.t :=
  fun db =>
    match find (fun r => Review.id r =? pk) (reviews db) with
    | Some r => (Ok r, db)
    | None => (Raise DoesNotExist, db)
    end.

(** [instance.save()] on a row that is already stored: an UPDATE of all
    columns of the row with that key.  The integers of the row are
    within the range of their columns: they were read from the table or
    validated by the serializer, but for the count that [perform_create]
    computes, which that view checks as the adapter does. *)
Definition WatchList_save (w : WatchList.t) : M unit :=
  fun db =>
    (Ok tt,
     set_watchlists
       (map (fun x => if WatchList.id x =? WatchList.id w then w else x)
            (watchlists db)) db).

(** [Review.save()] on a stored row.  [update] is declared with
    [auto_now=True], so every save stamps it with the clock. *)
Definition Review_save (now : Z) (r : Review.t) : M Review.t :=
  fun db =>
    let r' := Review.mk (Review.id r) (Review.review_user r) (Review.rating r)
                        (Review.watchlist r) (Review.active r)
                        (Review.created r) now (Review.helpful_count r) in
    (Ok r',
     set_reviews
       (map (fun x => if Review.id x =? Review.id r then r' else x)
            (reviews db)) db).

(** [Review.objects.create(...)]: an INSERT with the next key.  [created]
    has [auto_now_add=True] and [update] has [auto_now=True];
    [helpful_count] takes its default. *)
Definition Review_create (now user rating_ watchlist_ : Z) (active_ : bool)
  : M Review.t :=
  fun db =>
    let r := Review.mk (next_review_id db) user rating_ watchlist_ active_
                       now now 0 in
    (Ok r,
     mkDB (watchlists db) (reviews db ++ [r]) (platforms db) (genre_table db)
          (next_watchlist_id db) (next_review_id db + 1)).

(** [instance.delete()] on a review. *)
Definition Review_delete (r : Review.t) : M unit :=
  fun db =>
    (Ok tt,
     set_reviews
       (filter (fun x => negb (Review.id x =? Review.id r)) (reviews db)) db).

(** [try: body except exc: handler] *)
Definition Error_eqb (a b : Error) : bool :=
  match a, b with
  | InvalidRating, InvalidRating | RequiredField, RequiredField
  | InvalidData, InvalidData | DuplicateReview, DuplicateReview
  | NotFound, NotFound | Forbidden, Forbidden
  | DoesNotExist, DoesNotExist | ZeroDivisionError, ZeroDivisionError
  | OverflowError, OverflowError => true
  | _, _ => false
  end.

Definition try_except {A : Type} (body : M A) (exc : Error) (handler : M A)
  : M A :=
  fun db =>
    match body db with
    | (Raise e, db') => if Error_eqb e exc then handler db' else (Raise e, db')
    | out => out
    end.

(** Range of an [IntegerField] on the default database of settings.py
    (SQLite), from which the serializer derives [min_value]/[max_value]. *)
Definition integer_field_range : Z * Z :=
  (-9223372036854775808, 9223372036854775807).

(** The database adapter binds a Python integer to a statement only if
    it fits the column; otherwise it raises OverflowError and the
    statement is not executed. *)
Definition fits_integer_field (n : Z) : bool :=
  (fst integer_field_range <=? n) && (n <=? snd integer_field_range).

(** ** Serializers (serializers.py) *)

(** The body of a review request, as [ReviewSerializer] reads it: the
    serializer excludes [watchlist], and [review_user], [helpful_count],
    [created] and [update] are read-only, which leaves [rating] and
    [active] ([None]: the key is absent from the body). *)
Record ReviewData : Type := mkReviewData {
  data_rating : option Z;
  data_active : option bool
}.

(** [rating = models.PositiveIntegerField(validators=[MinValueValidator(1),
    MaxValueValidator(5)])] *)
Definition rating_in_range (r : Z) : bool := (1 <=? r) && (r <=? 5).

(** [serializer.is_valid(raise_exception=True)] for [ReviewSerializer];
    [partial] is set by PATCH.  The result is [validated_data]. *)
Definition ReviewSerializer_is_valid (partial : bool) (data : ReviewData)
  : M ReviewData :=
  match data_rating data with
  | None => if partial then ret data else raise RequiredField
  | Some r => if rating_in_range r then ret data else raise InvalidRating
  end.

(** ** Permissions *)

(** Modelled from the spec: [watchlist/api/permissions.py] is not among
    the sources.  The spec has an update or a removal of a review fail
    with Forbidden when the actor is not the owning user of the review. *)
Definition IsReviewUserOrReadOnly (user : User) (obj : Review.t) : bool :=
  Review.review_user obj =? user_id user.

(** Modelled from the spec: [watchlist/api/permissions.py] is not among
    the sources.  The spec leaves the authorization of catalogue writes
    to the API layer; the docstring of [WatchListGV] reserves them to
    administrators ("admin only"). *)
Definition IsAdminOrReadOnly (user : User) : bool := is_staff user.

(** ** Review views (views.py) *)

(** [ReviewCreate.perform_create], with [rating_] standing for
    [serializer.validated_data['rating']].  [watchlist.save()] hands the
    new count to the database adapter, which refuses it with
    OverflowError when it no longer fits the column; the review is then
    not created. *)
Definition perform_create (now : Z) (user : User) (pk : Z)
    (validated_data : ReviewData) (rating_ : Z) : M Review.t :=
  (watchlist <- WatchList_get pk ;;
   db <- get_db ;;
   let review_queryset :=
     filter (fun r => (Review.watchlist r =? WatchList.id watchlist)
                      && (Review.review_user r =? user_id user))
            (reviews db) in
   match review_queryset with
   | _ :: _ => raise DuplicateReview
   | [] =>
     let number_rating := WatchList.number_rating watchlist in
     avg <- (if number_rating =? 0 then ret (inject_Z rating_)
             else
               let total_rating :=
                 (WatchList.avg_rating watchlist * inject_Z number_rating)%Q in
               if number_rating + 1 =? 0 then raise ZeroDivisionError
               else ret ((total_rating + inject_Z rating_)
                         / inject_Z (number_rating + 1))%Q) ;;
     (if fits_integer_field (number_rating + 1) then
        WatchList_save
          (WatchList.mk (WatchList.id watchlist) (WatchList.platform watchlist)
                        (WatchList.active watchlist) avg (number_rating + 1)
                        (WatchList.created watchlist)
                        (WatchList.genres watchlist))
      else raise OverflowError) ;;;
     Review_create now (user_id user) rating_ (WatchList.id watchlist)
                   (match data_active validated_data with
                    | Some a => a
                    | None => true
                    end)
   end)%view.

(** [ReviewCreate.post]: DRF's [CreateModelMixin.create] validates the
    body and then calls [perform_create]. *)
Definition ReviewCreate_post (now : Z) (user : User) (pk : Z)
    (data : ReviewData) : M Review.t :=
  (validated_data <- ReviewSerializer_is_valid false data ;;
   match data_rating validated_data with
   | Some rating_ => perform_create now user pk validated_data rating_
   | None => raise RequiredField
   end)%view.

(** [ReviewDetail.get_object] for a writing method: DRF's
    [get_object_or_404] on [Review.objects.all()], then the object
    permission. *)
Definition ReviewDetail_get_object (user : User) (pk : Z) : M Review.t :=
  (obj <- try_except (Review_get pk) DoesNotExist (raise NotFound) ;;
   if IsReviewUserOrReadOnly user obj then ret obj else raise Forbidden)%view.

(** [ReviewDetail.put] and [ReviewDetail.patch]: the class overrides
    nothing of [RetrieveUpdateDestroyAPIView], so this is DRF's
    [UpdateModelMixin.update]: fetch, validate, [serializer.save()], which
    assigns the validated attributes to the instance and saves it. *)
Definition ReviewDetail_update (partial : bool) (now : Z) (user : User)
    (pk : Z) (data : ReviewData) : M Review.t :=
  (instance <- ReviewDetail_get_object user pk ;;
   validated_data <- ReviewSerializer_is_valid partial data ;;
   Review_save now
     (Review.mk (Review.id instance) (Review.review_user instance)
                (match data_rating validated_data with
                 | Some r => r
                 | None => Review.rating instance
                 end)
                (Review.watchlist instance)
                (match data_active validated_data with
                 | Some a => a
                 | None => Review.active instance
                 end)
                (Review.created instance) (Review.update instance)
                (Review.helpful_count instance)))%view.

Definition ReviewDetail_put := ReviewDetail_update false.
Definition ReviewDetail_patch := ReviewDetail_update true.

(** [ReviewDetail.delete]: DRF's [DestroyModelMixin.destroy]. *)
Definition ReviewDetail_delete (user : User) (pk : Z) : M unit :=
  (instance <- ReviewDetail_get_object user pk ;;
   Review_delete instance)%view.

(** [ReviewHelpfulView.post] *)
Definition ReviewHelpfulView_post (now : Z) (pk : Z) : M Z :=
  try_except
    (review <- Review_get pk ;;
     let review :=
       Review.mk (Review.id review) (Review.review_user review)
                 (Review.rating review) (Review.watchlist review)
                 (Review.active review) (Review.created review)
                 (Review.update review) (Review.helpful_count review + 1) in
     Review_save now review ;;;
     ret (Review.helpful_count review))%view
    DoesNotExist
    (raise NotFound).

(** ** Catalogue views (views.py) *)

(** The body of a catalogue request, as [WatchListSerializer] reads it.
    [Meta.fields] lists [avg_rating], [number_rating] and [active] without
    marking them read-only, so the serializer accepts them; the model
    gives all three a default, so they may be absent.  [platform_id] and
    [genre_ids] are declared on the serializer and are required. *)
Record WatchListData : Type := mkWatchListData {
  data_platform_id : option Z;
  data_genre_ids : option (list Z);
  data_w_active : option bool;
  data_avg_rating : option Q;
  data_number_rating : option Z
}.

Definition mem (x : Z) (l : list Z) : bool := existsb (Z.eqb x) l.

(** [serializer.is_valid()] for [WatchListSerializer] (never partial: the
    views only offer POST and PUT). *)
Definition WatchListSerializer_is_valid (data : WatchListData)
  : M WatchListData :=
  fun db =>
    match data_platform_id data, data_genre_ids data with
    | Some p, Some gs =>
      if mem p (platforms db)
         && forallb (fun g => mem g (genre_table db)) gs
         && match data_number_rating data with
            | Some n => (fst integer_field_range <=? n)
                        && (n <=? snd integer_field_range)
            | None => true
            end
      then (Ok data, db)
      else (Raise InvalidData, db)
    | _, _ => (Raise RequiredField, db)
    end.

Definition or_default {A : Type} (o : option A) (d : A) : A :=
  match o with
  | Some a => a
  | None => d
  end.

(** [instance.genres.set(genre_ids)]: the many-to-many table holds one
    row for each genre of the title, however often the body names it. *)
Definition genres_set (genre_ids : list Z) : list Z := nodup Z.eq_dec genre_ids.

(** [WatchListAV.post] ([WatchListGV.post] stores the same row):
    [serializer.save()] inserts a row built from the validated data and
    the model defaults. *)
Definition WatchListAV_post (now : Z) (user : User) (data : WatchListData)
  : M WatchList.t :=
  (if IsAdminOrReadOnly user then
     validated_data <- WatchListSerializer_is_valid data ;;
     db <- get_db ;;
     let w :=
       WatchList.mk (next_watchlist_id db)
                    (or_default (data_platform_id validated_data) 0)
                    (or_default (data_w_active validated_data) true)
                    (or_default (data_avg_rating validated_data) 0%Q)
                    (or_default (data_number_rating validated_data) 0)
                    now
                    (genres_set (or_default (data_genre_ids validated_data)
                                            [])) in
     put_db (mkDB (watchlists db ++ [w]) (reviews db) (platforms db)
                  (genre_table db) (next_watchlist_id db + 1)
                  (next_review_id db)) ;;;
     ret w
   else raise Forbidden)%view.

(** [WatchDetailAV.put]: [serializer.save()] assigns every validated
    attribute to [movie] and saves it. *)
Definition WatchDetailAV_put (user : User) (pk : Z) (data : WatchListData)
  : M WatchList.t :=
  (if IsAdminOrReadOnly user then
     movie <- WatchList_get pk ;;
     validated_data <- WatchListSerializer_is_valid data ;;
     let movie' :=
       WatchList.mk (WatchList.id movie)
                    (or_default (data_platform_id validated_data)
                                (WatchList.platform movie))
                    (or_default (data_w_active validated_data)
                                (WatchList.active movie))
                    (or_default (data_avg_rating validated_data)
                                (WatchList.avg_rating movie))
                    (or_default (data_number_rating validated_data)
                                (WatchList.number_rating movie))
                    (WatchList.created movie)
                    (or_default (option_map genres_set
                                            (data_genre_ids validated_data))
                                (WatchList.genres movie)) in
     WatchList_save movie' ;;;
     ret movie'
   else raise Forbidden)%view.

(** [WatchDetailAV.delete]; the reviews of the title go with it
    ([on_delete=models.CASCADE]).  So do its entries in the personal
    watchlists, which sit in a table of their own: [serve_site] removes
    them when this view has deleted the title. *)
Definition WatchDetailAV_delete (user : User) (pk : Z) : M unit :=
  (if IsAdminOrReadOnly user then
     movie <- WatchList_get pk ;;
     db <- get_db ;;
     put_db (mkDB (filter (fun w => negb (WatchList.id w =? WatchList.id movie))
                          (watchlists db))
                  (filter (fun r => negb (Review.watchlist r
                                          =? WatchList.id movie))
                          (reviews db))
                  (platforms db) (genre_table db)
                  (next_watchlist_id db) (next_review_id db))
   else raise Forbidden)%view.

(** ** Query building blocks *)

Section QuerySet.
Context {A : Type}.

(** [ORDER BY]: [before y x] says that the sort key puts [y] strictly
    ahead of [x].  Where the query states no further key, SQL leaves the
    order of rows with equal keys to the engine; this function returns
    them in the order in which it met them, one of the orders an engine
    may choose. *)
Variable before : A -> A -> bool.

Fixpoint insert_row (x : A) (l : list A) : list A :=
  match l with
  | [] => [x]
  | y :: l' => if before y x then y :: insert_row x l' else x :: l
  end.

Definition order_by (l : list A) : list A := fold_right insert_row [] l.

(** [a] may stand ahead of [b] in the result: the key does not put [b]
    strictly first. *)
Definition in_order (a b : A) : Prop := before b a = false.

(** [DISTINCT] / [GROUP BY]: one row per class of [same], the first of
    each class. *)
Variable same : A -> A -> bool.

Fixpoint distinct (l : list A) : list A :=
  match l with
  | [] => []
  | x :: l' => x :: filter (fun y => negb (same x y)) (distinct l')
  end.
End QuerySet.

(** Equality of two result rows of a query on the [WatchList] table: all
    selected columns agree. *)
Definition WatchList_row_eqb (a b : WatchList.t) : bool :=
  (WatchList.id a =? WatchList.id b)
  && (WatchList.platform a =? WatchList.platform b)
  && Bool.eqb (WatchList.active a) (WatchList.active b)
  && Qeq_bool (WatchList.avg_rating a) (WatchList.avg_rating b)
  && (WatchList.number_rating a =? WatchList.number_rating b)
  && (WatchList.created a =? WatchList.created b).

Definition same_pk (a b : WatchList.t) : bool :=
  WatchList.id a =? WatchList.id b.

(** [timedelta(days=d)] in microseconds *)
Definition timedelta_days (d : Z) : Z := d * 86400 * 1000000.

(** ** Ranking views (views.py) *)

(** [TopRatedMoviesView.get_queryset]:
    [filter(number_rating__gte=10, active=True).order_by('-avg_rating')[:50]] *)
Definition avg_rating_desc (y x : WatchList.t) : bool :=
  negb (Qle_bool (WatchList.avg_rating y) (WatchList.avg_rating x)).

Definition TopRatedMoviesView_get_queryset (db : DB) : list WatchList.t :=
  firstn 50
    (order_by avg_rating_desc
       (filter (fun w => (10 <=? WatchList.number_rating w)
                         && WatchList.active w)
               (watchlists db))).

(** [TrendingMoviesView.get_queryset]:
    [filter(reviews__created__gte=seven_days_ago, active=True)
     .annotate(recent_review_count=Count('reviews'))
     .order_by('-recent_review_count')[:10]].
    The filter spans the [reviews] relation, so the query joins the two
    tables; the annotation that follows counts over that same filtered
    join, grouped by title. *)
Definition reviews_join (db : DB) : list (WatchList.t * Review.t) :=
  flat_map
    (fun w => map (pair w)
                  (filter (fun r => Review.watchlist r =? WatchList.id w)
                          (reviews db)))
    (watchlists db).

Definition annotate_count (rows : list (WatchList.t * Review.t))
  : list (WatchList.t * Z) :=
  map (fun w =>
         (w, Z.of_nat (length (filter (fun wr => same_pk (fst wr) w) rows))))
      (distinct same_pk (map fst rows)).

Definition count_desc (y x : WatchList.t * Z) : bool := snd x <? snd y.

Definition TrendingMoviesView_get_queryset (now : Z) (db : DB)
  : list WatchList.t :=
  let seven_days_ago := now - timedelta_days 7 in
  let filtered :=
    filter (fun wr => (seven_days_ago <=? Review.created (snd wr))
                      && WatchList.active (fst wr))
           (reviews_join db) in
  map fst (firstn 10 (order_by count_desc (annotate_count filtered))).

(** [SimilarMoviesView.get_queryset]:
    [filter(genres__in=movie.genres.all(), active=True)
     .exclude(pk=pk).distinct()[:10]];
    no [order_by], so [Meta.ordering = ['-created']] of the model
    applies. *)
Definition genres_join (db : DB) : list (WatchList.t * Z) :=
  flat_map (fun w => map (pair w) (WatchList.genres w)) (watchlists db).

Definition created_desc (y x : WatchList.t) : bool :=
  WatchList.created x <? WatchList.created y.

Definition SimilarMoviesView_get_queryset (pk : Z) : M (list WatchList.t) :=
  (movie <- try_except (WatchList_get pk) DoesNotExist (raise NotFound) ;;
   db <- get_db ;;
   let filtered :=
     filter (fun wg => mem (snd wg) (WatchList.genres movie)
                       && WatchList.active (fst wg))
            (genres_join db) in
   let excluded :=
     filter (fun wg => negb (WatchList.id (fst wg) =? pk)) filtered in
   ret (firstn 10
          (order_by created_desc
             (distinct WatchList_row_eqb (map fst excluded)))))%view.

(** ** The properties the specification states *)

(** The active reviews of a title. *)
Definition active_reviews (db : DB) (item : Z) : list Review.t :=
  filter (fun r => (Review.watchlist r =? item) && Review.active r)
         (reviews db).

(** All reviews of a title, active or not. *)
Definition reviews_of (db : DB) (item : Z) : list Review.t :=
  filter (fun r => Review.watchlist r =? item) (reviews db).

Definition sum_ratings (l : list Review.t) : Z :=
  fold_right (fun r acc => Review.rating r + acc) 0 l.

(** Arithmetic mean of the ratings, 0 for no rating. *)
Definition mean_rating (l : list Review.t) : Q :=
  match l with
  | [] => 0%Q
  | _ => (inject_Z (sum_ratings l) / inject_Z (Z.of_nat (length l)))%Q
  end.

Definition tolerance : Q := (1 # 1000000000)%Q.

(** Aggregate consistency of the row [w] in [db]: the average is the
    mean rating of the active reviews of [w] up to [tolerance], and the
    count is their number. *)
Definition aggregate_consistent (db : DB) (w : WatchList.t) : Prop :=
  (Qabs (WatchList.avg_rating w
         - mean_rating (active_reviews db (WatchList.id w))) <= tolerance)%Q
  /\ WatchList.number_rating w
     = Z.of_nat (length (active_reviews db (WatchList.id w))).

(** The same against all reviews of the title and in exact arithmetic,
    which is what the formula of [perform_create] maintains. *)
Definition aggregate_of_all (db : DB) (w : WatchList.t) : Prop :=
  (WatchList.avg_rating w == mean_rating (reviews_of db (WatchList.id w)))%Q
  /\ WatchList.number_rating w
     = Z.of_nat (length (reviews_of db (WatchList.id w))).

(** The count of the row [w] is the number of stored reviews of its
    title, active or not. *)
Definition count_in_step (db : DB) (w : WatchList.t) : Prop :=
  WatchList.number_rating w
  = Z.of_nat (length (reviews_of db (WatchList.id w))).

(** A sequence of review operations on one title. *)
Inductive ReviewOp : Type :=
| Submit (user : User) (rating_ : Z)
| Update (user : User) (review_pk : Z) (new_rating : Z)
| Remove (user : User) (review_pk : Z).

Definition apply_op (item now : Z) (op : ReviewOp) (db : DB) : DB :=
  match op with
  | Submit u r =>
    snd (ReviewCreate_post now u item (mkReviewData (Some r) None) db)
  | Update u pk r =>
    snd (ReviewDetail_put now u pk (mkReviewData (Some r) None) db)
  | Remove u pk => snd (ReviewDetail_delete u pk db)
  end.

(** The operations run one after the other, the clock advancing by one
    tick per request. *)
Fixpoint run_ops (item now : Z) (ops : list ReviewOp) (db : DB) : DB :=
  match ops with
  | [] => db
  | op :: rest => run_ops item (now + 1) rest (apply_op item now op db)
  end.

Definition lookup_watchlist (db : DB) (pk : Z) : option WatchList.t :=
  find (fun w => WatchList.id w =? pk) (watchlists db).

Definition lookup_review (db : DB) (pk : Z) : option Review.t :=
  find (fun r => Review.id r =? pk) (reviews db).

(** Some review of [user] on [item] is stored, active or not. *)
Definition has_review (db : DB) (user : User) (item : Z) : bool :=
  existsb (fun r => (Review.watchlist r =? item)
                    && (Review.review_user r =? user_id user))
          (reviews db).

(** An active review of [user] on [item] is stored. *)
Definition has_active_review (db : DB) (user : User) (item : Z) : bool :=
  existsb (fun r => (Review.watchlist r =? item)
                    && (Review.review_user r =? user_id user)
                    && Review.active r)
          (reviews db).

(** The row of review [r] after a vote taken at [now]. *)
Definition voted (now : Z) (r : Review.t) : Review.t :=
  Review.mk (Review.id r) (Review.review_user r) (Review.rating r)
            (Review.watchlist r) (Review.active r) (Review.created r)
            now (Review.helpful_count r + 1).

(** The row of review [r] with nothing but the counter moved. *)
Definition counted (r : Review.t) : Review.t :=
  Review.mk (Review.id r) (Review.review_user r) (Review.rating r)
            (Review.watchlist r) (Review.active r) (Review.created r)
            (Review.update r) (Review.helpful_count r + 1).

(** ** Ranking properties *)

(** Eligibility for the top-rated ranking: active, at least 10 ratings. *)
Definition top_rated_eligible (w : WatchList.t) : bool :=
  (10 <=? WatchList.number_rating w) && WatchList.active w.

(** [a] may stand ahead of [b] in a ranking by descending average. *)
Definition avg_rating_ge (a b : WatchList.t) : Prop :=
  (WatchList.avg_rating b <= WatchList.avg_rating a)%Q.

(** The reviews of title [w] created within the seven days before [now],
    counted straight from the review table. *)
Definition in_window (now : Z) (r : Review.t) : bool :=
  now - timedelta_days 7 <=? Review.created r.

Definition recent_review_count (now : Z) (db : DB) (w : WatchList.t) : Z :=
  Z.of_nat
    (length (filter (fun r => (Review.watchlist r =? WatchList.id w)
                              && in_window now r)
                    (reviews db))).

(** All reviews of title [w], whenever created. *)
Definition total_review_count (db : DB) (w : WatchList.t) : Z :=
  Z.of_nat (length (reviews_of db (WatchList.id w))).

(** The rows of the join that the trending filter keeps. *)
Definition trending_rows (now : Z) (db : DB)
  : list (WatchList.t * Review.t) :=
  filter (fun wr => in_window now (snd wr) && WatchList.active (fst wr))
         (reviews_join db).

Definition trending_eligible (now : Z) (db : DB) (w : WatchList.t) : bool :=
  WatchList.active w && (1 <=? recent_review_count now db w).

Definition recent_count_ge (now : Z) (db : DB) (a b : WatchList.t) : Prop :=
  recent_review_count now db b <= recent_review_count now db a.

(** [w] carries at least one genre of [movie]. *)
Definition shares_genre (w movie : WatchList.t) : bool :=
  existsb (fun g => mem g (WatchList.genres movie)) (WatchList.genres w).

Definition similar_eligible (movie : WatchList.t) (w : WatchList.t) : bool :=
  shares_genre w movie && WatchList.active w
  && negb (WatchList.id w =? WatchList.id movie).

(** The rows of the genre join that the similar-titles query keeps for
    the reference title [movie]. *)
Definition similar_rows (movie : WatchList.t) (db : DB)
  : list (WatchList.t * Z) :=
  filter (fun wg => negb (WatchList.id (fst wg) =? WatchList.id movie))
         (filter (fun wg => mem (snd wg) (WatchList.genres movie)
                            && WatchList.active (fst wg))
                 (genres_join db)).

(** Primary keys are unique within the table. *)
Definition unique_pk (db : DB) : Prop := NoDup (map WatchList.id (watchlists db)).

(** ** Scenarios *)

Definition alice : User := mkUser 7 false.
Definition bob : User := mkUser 8 false.
Definition admin : User := mkUser 1 true.

(** One active title (key 1, platform 1, genre 1) without reviews. *)
Definition fresh_title : WatchList.t := WatchList.mk 1 1 true 0%Q 0 0 [1].

Definition catalogue : DB := mkDB [fresh_title] [] [1] [1; 2] 2 1.

(** The three titles of the ranking example: A and B tie on an average
    of 4.5 with 12 and 11 ratings, C has 4.9 with 8 ratings. *)
Definition title_A : WatchList.t := WatchList.mk 1 1 true (45 # 10)%Q 12 0 [1].
Definition title_B : WatchList.t := WatchList.mk 2 1 true (45 # 10)%Q 11 0 [1].
Definition title_C : WatchList.t := WatchList.mk 3 1 true (49 # 10)%Q 8 0 [1].

(** A database holding [ws] as its title rows, in that row order. *)
Definition ranking_db (ws : list WatchList.t) : DB := mkDB ws [] [1] [1; 2] 4 1.

Definition day : Z := timedelta_days 1.

(** A catalogue for the rankings, read ten days after its first
    reviews.  X has three reviews, one of them within the last seven
    days; Y has two, both recent, and carries both genres of X; Z is
    inactive with one recent review; W has another genre and no review. *)
Definition title_X : WatchList.t := WatchList.mk 1 1 true 4%Q 3 0 [1; 2].
Definition title_Y : WatchList.t := WatchList.mk 2 1 true 4%Q 2 0 [2; 1].
Definition title_Z : WatchList.t := WatchList.mk 3 1 false 4%Q 1 0 [1].
Definition title_W : WatchList.t := WatchList.mk 4 1 true 0%Q 0 0 [3].

Definition review_at (pk user item at_ : Z) : Review.t :=
  Review.mk pk user 4 item true at_ at_ 0.

Definition sample_db : DB :=
  mkDB [title_X; title_Y; title_Z; title_W]
       [review_at 1 7 1 day; review_at 2 8 1 day; review_at 3 9 1 (9 * day);
        review_at 4 7 2 (9 * day); review_at 5 8 2 (9 * day);
        review_at 6 7 3 (9 * day)]
       [1] [1; 2; 3] 5 7.

(** ** More views of views.py *)

(** [PopularMoviesView.get_queryset]:
    [filter(number_rating__gte=5, active=True)
     .order_by('-avg_rating', '-number_rating')[:20]] *)
Definition popular_desc (y x : WatchList.t) : bool :=
  negb (Qle_bool (WatchList.avg_rating y) (WatchList.avg_rating x))
  || (Qeq_bool (WatchList.avg_rating y) (WatchList.avg_rating x)
      && (WatchList.number_rating x <? WatchList.number_rating y)).

Definition PopularMoviesView_get_queryset (db : DB) : list WatchList.t :=
  firstn 20
    (order_by popular_desc
       (filter (fun w => (5 <=? WatchList.number_rating w)
                         && WatchList.active w)
               (watchlists db))).

(** [RecentMoviesView.queryset]:
    [WatchList.objects.filter(active=True).order_by('-created')[:20]] *)
Definition RecentMoviesView_queryset (db : DB) : list WatchList.t :=
  firstn 20 (order_by created_desc (filter WatchList.active (watchlists db))).

(** [ReviewList.get_queryset]: [Review.objects.filter(watchlist=pk)], in
    the order of [Review.Meta.ordering = ['-created']]. *)
Definition review_created_desc (y x : Review.t) : bool :=
  Review.created x <? Review.created y.

Definition ReviewList_get_queryset (pk : Z) (db : DB) : list Review.t :=
  order_by review_created_desc
           (filter (fun r => Review.watchlist r =? pk) (reviews db)).

(** [WatchListAV.get]: [WatchList.objects.all()], in the order of
    [WatchList.Meta.ordering = ['-created']]. *)
Definition WatchListAV_get (db : DB) : list WatchList.t :=
  order_by created_desc (watchlists db).

(** [WatchDetailAV.get], as far as the title row goes: the 404 response
    for a key that is not stored, the row otherwise. *)
Definition WatchDetailAV_get (pk : Z) : M WatchList.t :=
  try_except (WatchList_get pk) DoesNotExist (raise NotFound).

(** Three of the queries of [MovieStatisticsView.get]:
    [WatchList.objects.filter(active=True).count()],
    [Review.objects.filter(active=True).count()] and
    [WatchList.objects.order_by('-number_rating').first()]. *)
Definition total_movies (db : DB) : Z :=
  Z.of_nat (length (filter WatchList.active (watchlists db))).

Definition total_reviews (db : DB) : Z :=
  Z.of_nat (length (filter Review.active (reviews db))).

Definition number_rating_desc (y x : WatchList.t) : bool :=
  WatchList.number_rating x <? WatchList.number_rating y.

Definition most_reviewed (db : DB) : option WatchList.t :=
  hd_error (order_by number_rating_desc (watchlists db)).

(** ** Views that read the user table *)

(** A row of [django.contrib.auth.models.User]: key and user name. *)
Record AuthUser : Type := mkAuthUser {
  auth_id : Z;
  username : String.string
}.


(** The join of the review table with the user table on
    [Review.review_user], as a filter on [review_user__username] makes it. *)
Definition review_user_join (users : list AuthUser) (db : DB)
  : list (Review.t * AuthUser) :=
  flat_map
    (fun r => map (pair r)
                  (filter (fun u => auth_id u =? Review.review_user r) users))
    (reviews db).

(** [UserReview.get_queryset]:
    [Review.objects.filter(review_user__username=username)] with
    [username = self.request.query_params.get('username', None)], in the
    order of [Review.Meta.ordering].  Without the parameter the lookup is
    an exact match on None, which Django reads as IS NULL; a user name is
    never NULL, so no row matches. *)
Definition UserReview_get_queryset (param : option String.string)
    (users : list AuthUser) (db : DB) : list Review.t :=
  match param with
  | None => []
  | Some name =>
    order_by review_created_desc
      (map fst
           (filter (fun ru => String.eqb (username (snd ru)) name)
                   (review_user_join users db)))
  end.








(** The user name of the owner of a review, if the owner is stored. *)
Definition owner_name (users : list AuthUser) (r : Review.t)
  : option String.string :=
  option_map username
             (find (fun u => auth_id u =? Review.review_user r) users).

Definition owner_is (name : String.string) (users : list AuthUser)
    (r : Review.t) : bool :=
  match owner_name users r with
  | Some n => String.eqb n name
  | None => false
  end.

(** ** The personal watchlist (models.py, serializers.py, views.py) *)

(** [UserWatchlist.STATUS_CHOICES] *)
Inductive Status : Type :=
| want_to_watch
| watching
| watched.

Module UserWatchlist.
(** [class UserWatchlist(models.Model)] *)
Record t : Type := mk {
  id : Z;
  user : Z;
  watchlist : Z;
  status : Status;
  added_date : Z
}.
End UserWatchlist.

(** The [UserWatchlist] table with its next key. *)
Record Shelf : Type := mkShelf {
  entries : list UserWatchlist.t;
  next_entry_id : Z
}.

(** Outcomes of the personal watchlist views: the validation errors of
    [UserWatchlistSerializer], the 404 of [get_object], and the
    IntegrityError that the database raises on
    [unique_together = ('user', 'watchlist')], which the serializer cannot
    check since [user] is not one of its fields. *)
Inductive ShelfError : Type :=
| ShelfRequiredField
| ShelfInvalidData
| ShelfNotFound
| ShelfIntegrityError.

Inductive shelf_result (A : Type) : Type :=
| ShelfOk : A -> shelf_result A
| ShelfRaise : ShelfError -> shelf_result A.
Arguments ShelfOk {A} _.
Arguments ShelfRaise {A} _.

(** The body of a personal watchlist request: [watchlist_id] and the
    [status] string, each possibly absent. *)
Record UserWatchlistData : Type := mkUserWatchlistData {
  data_watchlist_id : option Z;
  data_status : option String.string
}.

Module StatusChoices.
Import String.
(** The [ChoiceField] that the serializer derives from [STATUS_CHOICES]. *)
Definition parse_status (s : string) : option Status :=
  if String.eqb s "want_to_watch"%string then Some want_to_watch
  else if String.eqb s "watching"%string then Some watching
  else if String.eqb s "watched"%string then Some watched
  else None.

(** Status strings for the example requests; the last is no choice. *)
Definition str_watching : string := "watching"%string.
Definition str_watched : string := "watched"%string.
Definition str_seen : string := "seen"%string.

(** User names for the example user table. *)
Definition name_admin : string := "admin"%string.
Definition name_alice : string := "alice"%string.
Definition name_bob : string := "bob"%string.
Definition name_carol : string := "carol"%string.
End StatusChoices.

(** [serializer.is_valid(raise_exception=True)] for
    [UserWatchlistSerializer]: the title must exist
    ([PrimaryKeyRelatedField(queryset=WatchList.objects.all())]) and the
    status must be one of the choices.  The result is the validated
    title key and status, each absent when the body does not carry it. *)
Definition UserWatchlistSerializer_is_valid (partial : bool)
    (data : UserWatchlistData) (db : DB)
  : shelf_result (option Z * option Status) :=
  match data_watchlist_id data with
  | None =>
    if partial then
      match data_status data with
      | None => ShelfOk (None, None)
      | Some s =>
        match StatusChoices.parse_status s with
        | Some st => ShelfOk (None, Some st)
        | None => ShelfRaise ShelfInvalidData
        end
      end
    else ShelfRaise ShelfRequiredField
  | Some w =>
    if mem w (map WatchList.id (watchlists db)) then
      match data_status data with
      | None => ShelfOk (Some w, None)
      | Some s =>
        match StatusChoices.parse_status s with
        | Some st => ShelfOk (Some w, Some st)
        | None => ShelfRaise ShelfInvalidData
        end
      end
    else ShelfRaise ShelfInvalidData
  end.

Definition added_desc (y x : UserWatchlist.t) : bool :=
  UserWatchlist.added_date x <? UserWatchlist.added_date y.

(** [MyWatchlistView.get_queryset] and
    [MyWatchlistDetailView.get_queryset]:
    [UserWatchlist.objects.filter(user=self.request.user)], in the order
    of [Meta.ordering = ['-added_date']]. *)
Definition MyWatchlistView_get_queryset (user : User) (shelf : Shelf)
  : list UserWatchlist.t :=
  order_by added_desc
           (filter (fun e => UserWatchlist.user e =? user_id user)
                   (entries shelf)).

(** Some stored row holds the pair (user, title). *)
Definition pair_stored (u w : Z) (shelf : Shelf) : bool :=
  existsb (fun e => (UserWatchlist.user e =? u)
                    && (UserWatchlist.watchlist e =? w))
          (entries shelf).

(** Some stored row other than [pk] holds the pair (user, title). *)
Definition pair_taken (u w pk : Z) (shelf : Shelf) : bool :=
  existsb (fun e => (UserWatchlist.user e =? u)
                    && (UserWatchlist.watchlist e =? w)
                    && negb (UserWatchlist.id e =? pk))
          (entries shelf).

(** [MyWatchlistView.post]: validation, then
    [perform_create]: [serializer.save(user=self.request.user)]. *)
Definition MyWatchlistView_post (now : Z) (user : User)
    (data : UserWatchlistData) (db : DB) (shelf : Shelf)
  : shelf_result UserWatchlist.t * Shelf :=
  match UserWatchlistSerializer_is_valid false data db with
  | ShelfRaise e => (ShelfRaise e, shelf)
  | ShelfOk (None, _) => (ShelfRaise ShelfRequiredField, shelf)
  | ShelfOk (Some w, st) =>
    if pair_stored (user_id user) w shelf
    then (ShelfRaise ShelfIntegrityError, shelf)
    else
      let e := UserWatchlist.mk (next_entry_id shelf) (user_id user) w
                                (or_default st want_to_watch) now in
      (ShelfOk e, mkShelf (entries shelf ++ [e]) (next_entry_id shelf + 1))
  end.

(** [MyWatchlistDetailView.get_object]: [get_object_or_404] on the
    entries of the requesting user. *)
Definition MyWatchlistDetailView_get_object (user : User) (pk : Z)
    (shelf : Shelf) : option UserWatchlist.t :=
  find (fun e => UserWatchlist.id e =? pk)
       (MyWatchlistView_get_queryset user shelf).

(** [MyWatchlistDetailView.put] and [.patch]: DRF's
    [UpdateModelMixin.update] on the entry of the requesting user. *)
Definition MyWatchlistDetailView_update (partial : bool) (user : User)
    (pk : Z) (data : UserWatchlistData) (db : DB) (shelf : Shelf)
  : shelf_result UserWatchlist.t * Shelf :=
  match MyWatchlistDetailView_get_object user pk shelf with
  | None => (ShelfRaise ShelfNotFound, shelf)
  | Some instance =>
    match UserWatchlistSerializer_is_valid partial data db with
    | ShelfRaise e => (ShelfRaise e, shelf)
    | ShelfOk (w, st) =>
      let e := UserWatchlist.mk
                 (UserWatchlist.id instance) (UserWatchlist.user instance)
                 (or_default w (UserWatchlist.watchlist instance))
                 (or_default st (UserWatchlist.status instance))
                 (UserWatchlist.added_date instance) in
      if pair_taken (UserWatchlist.user e) (UserWatchlist.watchlist e)
                    (UserWatchlist.id e) shelf
      then (ShelfRaise ShelfIntegrityError, shelf)
      else
        (ShelfOk e,
         mkShelf (map (fun x => if UserWatchlist.id x =? UserWatchlist.id e
                                then e else x)
                      (entries shelf))
                 (next_entry_id shelf))
    end
  end.

(** [MyWatchlistDetailView.delete] *)
Definition MyWatchlistDetailView_delete (user : User) (pk : Z)
    (shelf : Shelf) : shelf_result unit * Shelf :=
  match MyWatchlistDetailView_get_object user pk shelf with
  | None => (ShelfRaise ShelfNotFound, shelf)
  | Some instance =>
    (ShelfOk tt,
     mkShelf (filter (fun x => negb (UserWatchlist.id x
                                     =? UserWatchlist.id instance))
                     (entries shelf))
             (next_entry_id shelf))
  end.

(** The personal watchlist requests of [urlpatterns]: [my-watchlist/]
    (POST) and [my-watchlist/<pk>/] (PUT, PATCH, DELETE). *)
Inductive ShelfRequest : Type :=
| POST_my_watchlist (now : Z) (user : User) (data : UserWatchlistData)
| PUT_my_watchlist_detail (user : User) (pk : Z) (data : UserWatchlistData)
| PATCH_my_watchlist_detail (user : User) (pk : Z) (data : UserWatchlistData)
| DELETE_my_watchlist_detail (user : User) (pk : Z).

Definition shelf_requester (req : ShelfRequest) : User :=
  match req with
  | POST_my_watchlist _ u _ => u
  | PUT_my_watchlist_detail u _ _ => u
  | PATCH_my_watchlist_detail u _ _ => u
  | DELETE_my_watchlist_detail u _ => u
  end.

Definition serve_shelf (db : DB) (req : ShelfRequest) (shelf : Shelf)
  : Shelf :=
  match req with
  | POST_my_watchlist now u data =>
    snd (MyWatchlistView_post now u data db shelf)
  | PUT_my_watchlist_detail u pk data =>
    snd (MyWatchlistDetailView_update false u pk data db shelf)
  | PATCH_my_watchlist_detail u pk data =>
    snd (MyWatchlistDetailView_update true u pk data db shelf)
  | DELETE_my_watchlist_detail u pk =>
    snd (MyWatchlistDetailView_delete u pk shelf)
  end.

Definition serve_shelf_all (db : DB) (reqs : list ShelfRequest)
    (shelf : Shelf) : Shelf :=
  fold_left (fun s req => serve_shelf db req s) reqs shelf.

(** The table is well formed: keys are unique and below the next key,
    and no user has two entries for one title. *)
Definition entry_key (e : UserWatchlist.t) : Z * Z :=
  (UserWatchlist.user e, UserWatchlist.watchlist e).

Definition shelf_ok (shelf : Shelf) : Prop :=
  NoDup (map UserWatchlist.id (entries shelf))
  /\ Forall (fun e => UserWatchlist.id e < next_entry_id shelf)
            (entries shelf)
  /\ NoDup (map entry_key (entries shelf)).

(** The stored entries of a user, in row order. *)
Definition entries_of (u : Z) (shelf : Shelf) : list UserWatchlist.t :=
  filter (fun e => UserWatchlist.user e =? u) (entries shelf).

(** ** Requests (urls.py)

    The writing routes of [urlpatterns], each with the method it serves:
    [<pk>/reviews/create/] (POST), [reviews/<pk>/] (PUT, PATCH, DELETE),
    [reviews/<pk>/helpful/] (POST), [list-old/] (POST), [<pk>/] (PUT,
    DELETE). *)
Inductive Request : Type :=
| POST_review_create (now : Z) (user : User) (pk : Z) (data : ReviewData)
| PUT_review_detail (now : Z) (user : User) (pk : Z) (data : ReviewData)
| PATCH_review_detail (now : Z) (user : User) (pk : Z) (data : ReviewData)
| DELETE_review_detail (user : User) (pk : Z)
| POST_review_helpful (now : Z) (pk : Z)
| POST_movie_list (now : Z) (user : User) (data : WatchListData)
| PUT_movie_details (user : User) (pk : Z) (data : WatchListData)
| DELETE_movie_details (user : User) (pk : Z).

(** The database after a request has been served, whatever the response. *)
Definition serve (req : Request) (db : DB) : DB :=
  match req with
  | POST_review_create now user pk data =>
    snd (ReviewCreate_post now user pk data db)
  | PUT_review_detail now user pk data =>
    snd (ReviewDetail_put now user pk data db)
  | PATCH_review_detail now user pk data =>
    snd (ReviewDetail_patch now user pk data db)
  | DELETE_review_detail user pk => snd (ReviewDetail_delete user pk db)
  | POST_review_helpful now pk => snd (ReviewHelpfulView_post now pk db)
  | POST_movie_list now user data => snd (WatchListAV_post now user data db)
  | PUT_movie_details user pk data => snd (WatchDetailAV_put user pk data db)
  | DELETE_movie_details user pk => snd (WatchDetailAV_delete user pk db)
  end.

Definition serve_all (reqs : list Request) (db : DB) : DB :=
  fold_left (fun d req => serve req d) reqs db.

(** ** Properties of the stored state *)

(** The pair that [unique_together = ('review_user', 'watchlist')] keeps
    unique. *)
Definition review_key (r : Review.t) : Z * Z :=
  (Review.review_user r, Review.watchlist r).

(** The review table is well formed: keys are unique and below the next
    key to hand out, and no user has two reviews on one title. *)
Definition ledger_ok (db : DB) : Prop :=
  NoDup (map Review.id (reviews db))
  /\ Forall (fun r => Review.id r < next_review_id db) (reviews db)
  /\ NoDup (map review_key (reviews db)).

(** The title table is well formed: keys are unique and below the next
    key to hand out. *)
Definition catalogue_ok (db : DB) : Prop :=
  NoDup (map WatchList.id (watchlists db))
  /\ Forall (fun w => WatchList.id w < next_watchlist_id db) (watchlists db).

(** Every review refers to a stored title (the foreign key
    [Review.watchlist]). *)
Definition reviews_have_titles (db : DB) : Prop :=
  Forall (fun r => In (Review.watchlist r) (map WatchList.id (watchlists db)))
         (reviews db).

(** [a] may stand ahead of [b] in the popular ranking: a higher average,
    or the same average and at least as many ratings. *)
Definition popular_ge (a b : WatchList.t) : Prop :=
  (WatchList.avg_rating b < WatchList.avg_rating a)%Q
  \/ ((WatchList.avg_rating b == WatchList.avg_rating a)%Q
      /\ WatchList.number_rating b <= WatchList.number_rating a).

Definition popular_eligible (w : WatchList.t) : bool :=
  (5 <=? WatchList.number_rating w) && WatchList.active w.

Definition created_ge (a b : WatchList.t) : Prop :=
  WatchList.created b <= WatchList.created a.

Definition review_created_ge (a b : Review.t) : Prop :=
  Review.created b <= Review.created a.

(** [n] helpful votes on review [pk], one after the other, starting at
    clock reading [now]. *)
Fixpoint votes (n : nat) (now pk : Z) (db : DB) : DB :=
  match n with
  | O => db
  | S n' => votes n' (now + 1) pk (snd (ReviewHelpfulView_post now pk db))
  end.

(** The review requests that add a review or rewrite one in place: a
    submission, an update, a vote. *)
Definition keeps_count (req : Request) : bool :=
  match req with
  | POST_review_create _ _ _ _ | PUT_review_detail _ _ _ _
  | PATCH_review_detail _ _ _ _ | POST_review_helpful _ _ => true
  | _ => false
  end.

(** ** The site: catalogue, reviews and personal watchlists together *)

(** [movie.delete()] as the [UserWatchlist] table sees it:
    [UserWatchlist.watchlist] is declared with
    [on_delete=models.CASCADE], so the entries of the title go with
    it. *)
Definition UserWatchlist_cascade (pk : Z) (shelf : Shelf) : Shelf :=
  mkShelf (filter (fun e => negb (UserWatchlist.watchlist e =? pk))
                  (entries shelf))
          (next_entry_id shelf).

Record Site : Type := mkSite {
  site_db : DB;
  site_shelf : Shelf
}.

(** The writing requests of [urlpatterns], of both kinds. *)
Inductive SiteRequest : Type :=
| Catalogue (req : Request)
| Personal (req : ShelfRequest).

(** The site after a request has been served, whatever the response.  A
    DELETE of a title that succeeds takes the entries of that title out
    of the personal watchlists. *)
Definition serve_site (req : SiteRequest) (s : Site) : Site :=
  match req with
  | Catalogue (DELETE_movie_details user pk) =>
    match WatchDetailAV_delete user pk (site_db s) with
    | (Ok _, db') => mkSite db' (UserWatchlist_cascade pk (site_shelf s))
    | (Raise _, db') => mkSite db' (site_shelf s)
    end
  | Catalogue req => mkSite (serve req (site_db s)) (site_shelf s)
  | Personal req =>
    mkSite (site_db s) (serve_shelf (site_db s) req (site_shelf s))
  end.

Definition serve_site_all (reqs : list SiteRequest) (s : Site) : Site :=
  fold_left (fun st req => serve_site req st) reqs s.

(** Every entry refers to a stored title (the foreign key
    [UserWatchlist.watchlist]). *)
Definition entries_have_titles (s : Site) : Prop :=
  Forall (fun e => In (UserWatchlist.watchlist e)
                      (map WatchList.id (watchlists (site_db s))))
         (entries (site_shelf s)).

Definition site_ok (s : Site) : Prop :=
  catalogue_ok (site_db s) /\ shelf_ok (site_shelf s)
  /\ entries_have_titles s.

(** The title of entry [e] is stored in [db]. *)
Definition title_stored (db : DB) (e : UserWatchlist.t) : bool :=
  mem (UserWatchlist.watchlist e) (map WatchList.id (watchlists db)).

(** [req] is no personal watchlist request of [owner]: it is a request
    on the catalogue or the reviews, by anyone, or a personal watchlist
    request of another user. *)
Definition not_own_request (owner : User) (req : SiteRequest) : Prop :=
  match req with
  | Catalogue _ => True
  | Personal r => user_id (shelf_requester r) <> user_id owner
  end.

(** Requests served on [sample_db] on its tenth day: a submission, a
    second submission of alice on a title she has reviewed, an update, a
    vote, a removal by someone who is not the owner, and three catalogue
    writes, the last of which removes title 1 with its reviews. *)
Definition sample_requests : list Request :=
  [POST_review_create (10 * day) bob 3 (mkReviewData (Some 5) None);
   POST_review_create (10 * day) alice 1 (mkReviewData (Some 2) None);
   PATCH_review_detail (10 * day) alice 4 (mkReviewData (Some 1) (Some false));
   POST_review_helpful (10 * day) 3;
   DELETE_review_detail bob 1;
   POST_movie_list (10 * day) admin
                   (mkWatchListData (Some 1) (Some [3]) None None None);
   PUT_movie_details admin 2
                     (mkWatchListData (Some 1) (Some [1]) (Some false) None
                                      None);
   DELETE_movie_details admin 1].

(** A personal watchlist table on [sample_db]: alice has titles 1 and
    2, bob has title 1. *)
Definition sample_shelf : Shelf :=
  mkShelf [UserWatchlist.mk 1 7 1 want_to_watch day;
           UserWatchlist.mk 2 7 2 watching (2 * day);
           UserWatchlist.mk 3 8 1 watched (3 * day)]
          4.

(** Requests on [sample_shelf]: bob adds title 2, adds it again, alice
    marks her entry 2 as watched, bob tries to remove alice's entry 1,
    alice tries to point her entry 1 at title 2, which she already has,
    and bob sends a status that is no choice. *)
Definition sample_shelf_requests : list ShelfRequest :=
  [POST_my_watchlist (4 * day) bob
     (mkUserWatchlistData (Some 2) (Some StatusChoices.str_watching));
   POST_my_watchlist (5 * day) bob (mkUserWatchlistData (Some 2) None);
   PATCH_my_watchlist_detail alice 2
     (mkUserWatchlistData None (Some StatusChoices.str_watched));
   DELETE_my_watchlist_detail bob 1;
   PUT_my_watchlist_detail alice 1 (mkUserWatchlistData (Some 2) None);
   PATCH_my_watchlist_detail bob 3
     (mkUserWatchlistData None (Some StatusChoices.str_seen))].

(** [sample_db] with [sample_shelf]. *)
Definition sample_site : Site := mkSite sample_db sample_shelf.

(** Requests on [sample_site] none of which is a personal watchlist
    request of alice: bob adds title 2, tries to remove alice's entry 1
    and marks his entry 3 as watched; alice submits a review on title 3;
    the administrator removes title 1, then stores a new title. *)
Definition others_requests : list SiteRequest :=
  [Personal (POST_my_watchlist (4 * day) bob
               (mkUserWatchlistData (Some 2)
                                    (Some StatusChoices.str_watching)));
   Personal (DELETE_my_watchlist_detail bob 1);
   Personal (PATCH_my_watchlist_detail bob 3
               (mkUserWatchlistData None (Some StatusChoices.str_watched)));
   Catalogue (POST_review_create (10 * day) alice 4
                                 (mkReviewData (Some 5) None));
   Catalogue (DELETE_movie_details admin 1);
   Catalogue (POST_movie_list (10 * day) admin
                (mkWatchListData (Some 1) (Some [3]) None None None))].

(** The user table that goes with [sample_db]. *)
Definition sample_users : list AuthUser :=
  [mkAuthUser 1 StatusChoices.name_admin; mkAuthUser 7 StatusChoices.name_alice;
   mkAuthUser 8 StatusChoices.name_bob; mkAuthUser 9 StatusChoices.name_carol].

(** Uniqueness of the keys of a table written out in full. *)
Ltac solve_unique_pk :=
  unfold unique_pk; cbn; repeat constructor; cbn; intuition discriminate.

(** ** Review updates, removals and votes leave the titles alone *)

Lemma Review_get_db (pk : Z) (db : DB) : snd (Review_get pk db) = db.
Proof. unfold Review_get. now destruct (find _ _). Qed.

Lemma ReviewDetail_get_object_db (user : User) (pk : Z) (db : DB) :
  snd (ReviewDetail_get_object user pk db) = db.
Proof.
  unfold ReviewDetail_get_object, bind, try_except, Review_get.
  destruct (find _ _) as [r|]; cbn.
  - now destruct (IsReviewUserOrReadOnly user r).
  - reflexivity.
Qed.

Lemma ReviewSerializer_is_valid_db (partial : bool) (data : ReviewData)
    (db : DB) :
  snd (ReviewSerializer_is_valid partial data db) = db.
Proof.
  unfold ReviewSerializer_is_valid.
  destruct (data_rating data) as [r|].
  - now destruct (rating_in_range r).
  - now destruct partial.
Qed.

Lemma ReviewDetail_update_watchlists (partial : bool) (now : Z) (user : User)
    (pk : Z) (data : ReviewData) (db : DB) :
  watchlists (snd (ReviewDetail_update partial now user pk data db))
  = watchlists db.
Proof.
  unfold ReviewDetail_update, bind.
  pose proof (ReviewDetail_get_object_db user pk db) as Hobj.
  destruct (ReviewDetail_get_object user pk db) as [[obj|e] db1];
    cbn in Hobj; subst db1; [|reflexivity].
  pose proof (ReviewSerializer_is_valid_db partial data db) as Hval.
  destruct (ReviewSerializer_is_valid partial data db) as [[vd|e] db1];
    cbn in Hval; subst db1; reflexivity.
Qed.

Lemma ReviewDetail_delete_watchlists (user : User) (pk : Z) (db : DB) :
  watchlists (snd (ReviewDetail_delete user pk db)) = watchlists db.
Proof.
  unfold ReviewDetail_delete, bind.
  pose proof (ReviewDetail_get_object_db user pk db) as Hobj.
  destruct (ReviewDetail_get_object user pk db) as [[obj|e] db1];
    cbn in Hobj; subst db1; reflexivity.
Qed.

Lemma ReviewHelpfulView_post_watchlists (now pk : Z) (db : DB) :
  watchlists (snd (ReviewHelpfulView_post now pk db)) = watchlists db.
Proof.
  unfold ReviewHelpfulView_post, try_except, bind, Review_get.
  now destruct (find _ _).
Qed.

(** ** Aggregate maintenance on the three review paths *)

(** C1.  Aggregate consistency after any sequence of submit, update and
    remove operations on one title: evaluated on the sequence "alice
    submits a rating of 3, alice removes her review" from a title without
    reviews.  [perform_create] has raised the aggregate to (3, 1); the
    removal goes through the unmodified [ReviewDetail] and deletes the
    review row only, so the title ends with no review, an average of 3
    and a count of 1, and the aggregate is not consistent. *)
Theorem aggregate_stale_after_submit_remove :
  let db := run_ops 1 100 [Submit alice 3; Remove alice 1] catalogue in
  exists w,
    lookup_watchlist db 1 = Some w
    /\ active_reviews db 1 = []
    /\ WatchList.number_rating w = 1
    /\ (WatchList.avg_rating w == 3)%Q
    /\ ~ aggregate_consistent db w.
Proof.
  cbv zeta. eexists. split; [vm_compute; reflexivity|].
  split; [vm_compute; reflexivity|].
  split; [reflexivity|]. split; [reflexivity|].
  intros [_ Hcount]. vm_compute in Hcount. discriminate Hcount.
Qed.

(** C2.  Update of the only review of a title from 3 to 5: the review
    row takes the new rating and the count stays 1, but the average stays
    3; in general no update of a review writes any title row, so no delta
    reaches the aggregate. *)
Theorem update_3_to_5_keeps_average_3 :
  (forall partial now user pk data db,
      watchlists (snd (ReviewDetail_update partial now user pk data db))
      = watchlists db)
  /\ let db0 := run_ops 1 100 [Submit alice 3] catalogue in
     let out := ReviewDetail_put 101 alice 1 (mkReviewData (Some 5) None) db0 in
     option_map Review.rating (lookup_review (snd out) 1) = Some 5
     /\ exists w,
         lookup_watchlist (snd out) 1 = Some w
         /\ WatchList.number_rating w = 1
         /\ (WatchList.avg_rating w == 3)%Q
         /\ ~ (WatchList.avg_rating w == 5)%Q.
Proof.
  split; [exact ReviewDetail_update_watchlists|].
  cbv zeta. split; [vm_compute; reflexivity|].
  eexists. split; [vm_compute; reflexivity|].
  split; [reflexivity|]. split; [reflexivity|].
  intros H. vm_compute in H. discriminate H.
Qed.

(** C3.  Removal of the last review of a title: the review is gone, the
    title keeps its average of 3 and its count of 1 instead of going
    back to (0, 0). *)
Theorem remove_last_review_keeps_aggregate :
  let db0 := run_ops 1 100 [Submit alice 3] catalogue in
  let out := ReviewDetail_delete alice 1 db0 in
  fst out = Ok tt
  /\ reviews (snd out) = []
  /\ exists w,
      lookup_watchlist (snd out) 1 = Some w
      /\ WatchList.number_rating w = 1
      /\ (WatchList.avg_rating w == 3)%Q.
Proof.
  cbv zeta. split; [vm_compute; reflexivity|].
  split; [vm_compute; reflexivity|].
  eexists. split; [vm_compute; reflexivity|].
  split; reflexivity.
Qed.

(** C5.  Writers of the aggregate fields: a PUT of a catalogue title by
    an administrator whose body carries [avg_rating] and [number_rating]
    stores both, and so does a POST that creates a title; neither request
    involves a review. *)
Theorem catalogue_write_sets_aggregate :
  let data := mkWatchListData (Some 1) (Some [1]) None (Some 5%Q) (Some 100) in
  (let out := WatchDetailAV_put admin 1 data catalogue in
   reviews (snd out) = []
   /\ exists w,
       fst out = Ok w
       /\ lookup_watchlist (snd out) 1 = Some w
       /\ WatchList.number_rating w = 100
       /\ (WatchList.avg_rating w == 5)%Q)
  /\ (let out := WatchListAV_post 100 admin data catalogue in
      reviews (snd out) = []
      /\ exists w,
          fst out = Ok w
          /\ lookup_watchlist (snd out) 2 = Some w
          /\ WatchList.number_rating w = 100
          /\ (WatchList.avg_rating w == 5)%Q).
Proof.
  cbv zeta. split.
  - split; [vm_compute; reflexivity|].
    eexists. split; [vm_compute; reflexivity|].
    split; [vm_compute; reflexivity|]. split; reflexivity.
  - split; [vm_compute; reflexivity|].
    eexists. split; [vm_compute; reflexivity|].
    split; [vm_compute; reflexivity|]. split; reflexivity.
Qed.

(** ** The create path keeps the aggregate in step with the reviews *)

Lemma filter_nil_existsb {A : Type} (f : A -> bool) (l : list A) :
  filter f l = [] <-> existsb f l = false.
Proof.
  induction l as [|a l IH]; cbn; [tauto|].
  destruct (f a); cbn; [split; discriminate | exact IH].
Qed.

Lemma find_watchlist_id (ws : list WatchList.t) (pk : Z) (w : WatchList.t) :
  find (fun x => WatchList.id x =? pk) ws = Some w -> WatchList.id w = pk.
Proof. intros H. apply find_some in H as [_ H]. now apply Z.eqb_eq. Qed.


Lemma sum_ratings_app (l : list Review.t) (r : Review.t) :
  sum_ratings (l ++ [r]) = sum_ratings l + Review.rating r.
Proof.
  unfold sum_ratings. induction l as [|x l IH]; cbn; [lia|].
  rewrite IH. lia.
Qed.

Lemma mean_rating_app (l : list Review.t) (r : Review.t) :
  mean_rating (l ++ [r])
  = (inject_Z (sum_ratings l + Review.rating r)
     / inject_Z (Z.of_nat (length l) + 1))%Q.
Proof.
  assert (H : mean_rating (l ++ [r])
              = (inject_Z (sum_ratings (l ++ [r]))
                 / inject_Z (Z.of_nat (length (l ++ [r]))))%Q).
  { now destruct l. }
  rewrite H, sum_ratings_app, length_app. cbn [length].
  now rewrite Nat2Z.inj_add.
Qed.

Lemma find_map_replace_watchlist (ws : list WatchList.t) (pk : Z)
    (old new : WatchList.t) :
  find (fun x => WatchList.id x =? pk) ws = Some old ->
  WatchList.id new = pk ->
  find (fun x => WatchList.id x =? pk)
       (map (fun x => if WatchList.id x =? pk then new else x) ws)
  = Some new.
Proof.
  intros Hfind Hid. induction ws as [|x ws IH]; cbn in *; [discriminate|].
  destruct (WatchList.id x =? pk) eqn:Hx; cbn.
  - now rewrite Hid, Z.eqb_refl.
  - rewrite Hx. now apply IH.
Qed.

Lemma running_average (avg : Q) (total r n : Z) :
  0 < n -> (avg == inject_Z total / inject_Z n)%Q ->
  ((avg * inject_Z n + inject_Z r) / inject_Z (n + 1)
   == inject_Z (total + r) / inject_Z (n + 1))%Q.
Proof.
  intros Hn Havg. rewrite Havg, !inject_Z_plus.
  assert (Hn0 : ~ (inject_Z n == 0)%Q).
  { change 0%Q with (inject_Z 0). rewrite inject_Z_injective. lia. }
  assert (Hn1 : ~ (inject_Z n + inject_Z 1 == 0)%Q).
  { rewrite <- inject_Z_plus. change 0%Q with (inject_Z 0).
    rewrite inject_Z_injective. lia. }
  field. split; assumption.
Qed.

(** A submission that succeeds on a title whose aggregate agrees with
    its stored reviews leaves it in agreement: the count goes up by one
    and the average, in exact arithmetic, is the mean of all ratings,
    the new one included. *)
Lemma ReviewCreate_maintains_aggregate (now : Z) (user : User) (pk : Z)
    (data : ReviewData) (db db' : DB) (w : WatchList.t) (rev : Review.t) :
  lookup_watchlist db pk = Some w ->
  aggregate_of_all db w ->
  ReviewCreate_post now user pk data db = (Ok rev, db') ->
  exists w',
    lookup_watchlist db' pk = Some w'
    /\ aggregate_of_all db' w'
    /\ WatchList.number_rating w' = WatchList.number_rating w + 1.
Proof.
  intros Hw [Havg Hcount].
  unfold ReviewCreate_post, bind, ReviewSerializer_is_valid.
  destruct (data_rating data) as [r|] eqn:Hr; [|discriminate].
  destruct (rating_in_range r); [|discriminate]. cbn. rewrite Hr.
  unfold perform_create, bind, WatchList_get.
  unfold lookup_watchlist in Hw. rewrite Hw. cbn.
  pose proof (find_watchlist_id _ _ _ Hw) as Hid.
  destruct (filter _ (reviews db)); [|discriminate].
  set (n := WatchList.number_rating w) in *.
  set (l := reviews_of db (WatchList.id w)) in *.
  assert (Hdone : forall avg,
    (avg == inject_Z (sum_ratings l + r) / inject_Z (n + 1))%Q ->
    forall out,
    out = (bind (if fits_integer_field (n + 1) then
                   WatchList_save
                     (WatchList.mk (WatchList.id w) (WatchList.platform w)
                        (WatchList.active w) avg (n + 1) (WatchList.created w)
                        (WatchList.genres w))
                 else raise OverflowError)
                (fun _ => Review_create now (user_id user) r (WatchList.id w)
                            (match data_active data with
                             | Some a => a
                             | None => true
                             end))) db ->
    out = (Ok rev, db') ->
    exists w',
      lookup_watchlist db' pk = Some w'
      /\ aggregate_of_all db' w'
      /\ WatchList.number_rating w' = n + 1).
  { intros avg Hnew out -> Hout. unfold bind, WatchList_save, raise in Hout.
    destruct (fits_integer_field (n + 1)); [|discriminate Hout].
    cbn in Hout. inversion Hout; subst rev db'; clear Hout.
    subst pk. eexists. split.
    - unfold lookup_watchlist. cbn.
      now apply find_map_replace_watchlist with (old := w).
    - split; [|reflexivity].
      unfold aggregate_of_all, reviews_of. cbn.
      rewrite filter_app. cbn. rewrite Z.eqb_refl.
      fold (reviews_of db (WatchList.id w)). fold l.
      rewrite mean_rating_app, length_app. cbn.
      split; [|rewrite Nat2Z.inj_add; cbn; lia].
      rewrite Hnew. now rewrite <- Hcount. }
  destruct (n =? 0) eqn:Hn0; cbn.
  - intros Hout. eapply (Hdone (inject_Z r)); [|reflexivity|exact Hout].
    apply Z.eqb_eq in Hn0.
    destruct l; [|cbn in Hcount; lia]. cbn.
    rewrite Hn0. cbn. unfold Qdiv. cbn.
    change (/ 1)%Q with 1%Q. now rewrite Qmult_1_r.
  - apply Z.eqb_neq in Hn0.
    destruct (n + 1 =? 0) eqn:Hn1; [lia|]. cbn.
    intros Hout.
    eapply (Hdone _); [|reflexivity|exact Hout].
    apply running_average; [lia|].
    rewrite Havg. fold l. unfold mean_rating.
    destruct l; [cbn in Hcount; lia|]. now rewrite Hcount.
Qed.

(** ** One review per user and title *)

(** The title [pk] exists, the body validates and [user] has no review on
    it yet: [perform_create] gets past its duplicate check. *)
Lemma perform_create_not_duplicate (now : Z) (user : User) (pk : Z)
    (vd : ReviewData) (r : Z) (db : DB) :
  has_review db user pk = false ->
  fst (perform_create now user pk vd r db) <> Raise DuplicateReview.
Proof.
  intros Hnone. unfold perform_create, bind, WatchList_get.
  destruct (find _ _) as [w|] eqn:Hfind; cbn; [|discriminate].
  rewrite (find_watchlist_id _ _ _ Hfind).
  apply filter_nil_existsb in Hnone. unfold has_review in Hnone.
  rewrite Hnone. unfold raise, WatchList_save.
  destruct (WatchList.number_rating w =? 0); cbn.
  - destruct (fits_integer_field _); cbn; discriminate.
  - destruct (WatchList.number_rating w + 1 =? 0); cbn; [discriminate|].
    destruct (fits_integer_field _); cbn; discriminate.
Qed.

Lemma perform_create_duplicate (now : Z) (user : User) (pk : Z)
    (vd : ReviewData) (r : Z) (db : DB) :
  lookup_watchlist db pk <> None ->
  has_review db user pk = true ->
  perform_create now user pk vd r db = (Raise DuplicateReview, db).
Proof.
  intros Hsome Hdup. unfold perform_create, bind, WatchList_get.
  unfold lookup_watchlist in Hsome.
  destruct (find _ _) as [w|] eqn:Hfind; cbn; [|congruence].
  rewrite (find_watchlist_id _ _ _ Hfind).
  unfold has_review in Hdup.
  destruct (filter _ (reviews db)) eqn:Hf; [|reflexivity].
  apply filter_nil_existsb in Hf. congruence.
Qed.

(** C4, the claim at a stored inactive review: alice has stored a review
    with [active] set to false; her next submission fails with
    DuplicateReview although no active review of hers exists. *)
Lemma duplicate_without_active_review :
  let db :=
    snd (ReviewCreate_post 100 alice 1 (mkReviewData (Some 3) (Some false))
                           catalogue) in
  fst (ReviewCreate_post 101 alice 1 (mkReviewData (Some 4) None) db)
  = Raise DuplicateReview
  /\ has_active_review db alice 1 = false.
Proof. cbv zeta. split; vm_compute; reflexivity. Qed.

(** C4, amended.  A submission fails with DuplicateReview exactly when
    its rating validates, the title exists and some review of the user on
    the title is stored, active or not; a submission that fails so leaves
    the whole database, and with it the aggregate, as it was. *)
Theorem ReviewCreate_duplicate_iff (now : Z) (user : User) (pk : Z)
    (data : ReviewData) (db : DB) :
  (fst (ReviewCreate_post now user pk data db) = Raise DuplicateReview
   <-> (exists r, data_rating data = Some r /\ rating_in_range r = true)
       /\ lookup_watchlist db pk <> None
       /\ has_review db user pk = true)
  /\ (fst (ReviewCreate_post now user pk data db) = Raise DuplicateReview
      -> snd (ReviewCreate_post now user pk data db) = db).
Proof.
  assert (Hchar :
    fst (ReviewCreate_post now user pk data db) = Raise DuplicateReview
    <-> (exists r, data_rating data = Some r /\ rating_in_range r = true)
        /\ lookup_watchlist db pk <> None
        /\ has_review db user pk = true).
  { unfold ReviewCreate_post, bind, ReviewSerializer_is_valid.
    destruct (data_rating data) as [r|] eqn:Hr; cbn.
    - destruct (rating_in_range r) eqn:Hrange; cbn.
      + rewrite Hr.
        destruct (has_review db user pk) eqn:Hdup.
        * destruct (lookup_watchlist db pk) as [w|] eqn:Hw.
          -- rewrite perform_create_duplicate by congruence.
             split; [intros _|reflexivity].
             split; [exists r; auto|]. split; congruence.
          -- unfold perform_create, bind, WatchList_get.
             unfold lookup_watchlist in Hw. rewrite Hw. cbn.
             split; [discriminate|]. intros (_ & H & _). congruence.
        * split.
          -- intros H. now apply perform_create_not_duplicate in H.
          -- intros (_ & _ & H). discriminate H.
      + split; [discriminate|].
        intros ((r' & Hr' & Hok) & _). congruence.
    - split; [discriminate|].
      intros ((r' & Hr' & _) & _). discriminate Hr'. }
  split; [exact Hchar|].
  intros H. apply Hchar in H as ((r & Hr & Hrange) & Hw & Hdup).
  unfold ReviewCreate_post, bind, ReviewSerializer_is_valid.
  rewrite Hr, Hrange. cbn. rewrite Hr.
  now rewrite perform_create_duplicate.
Qed.

(** ** Helpful votes *)

Lemma find_review_id (rs : list Review.t) (pk : Z) (r : Review.t) :
  find (fun x => Review.id x =? pk) rs = Some r -> Review.id r = pk.
Proof. intros H. apply find_some in H as [_ H]. now apply Z.eqb_eq. Qed.

(** C9, the claim at a vote on alice's review, written at tick 100 and
    voted on at tick 200: the vote returns 1, and the stored row differs
    from the old one in [helpful_count] and also in [update], which the
    save has moved from 100 to 200. *)
Lemma helpful_vote_restamps_update :
  let db := run_ops 1 100 [Submit alice 3] catalogue in
  let out := ReviewHelpfulView_post 200 1 db in
  fst out = Ok 1
  /\ option_map Review.update (lookup_review db 1) = Some 100
  /\ option_map Review.update (lookup_review (snd out) 1) = Some 200
  /\ reviews (snd out) <> map counted (reviews db).
Proof.
  cbv zeta. repeat split; try (vm_compute; reflexivity).
  vm_compute. discriminate.
Qed.

(** C9, amended.  A vote fails with NotFound exactly when no review has
    the key, and then leaves the database as it was; otherwise it returns
    the counter of the review plus one and rewrites that review row with
    the counter raised by one and [update] set to the time of the vote,
    every other column, row and table staying as it was. *)
Theorem ReviewHelpfulView_post_spec (now pk : Z) (db : DB) :
  (fst (ReviewHelpfulView_post now pk db) = Raise NotFound
   <-> lookup_review db pk = None)
  /\ match lookup_review db pk with
     | None => ReviewHelpfulView_post now pk db = (Raise NotFound, db)
     | Some r =>
       ReviewHelpfulView_post now pk db
       = (Ok (Review.helpful_count r + 1),
          set_reviews
            (map (fun x => if Review.id x =? pk then voted now r else x)
                 (reviews db))
            db)
     end.
Proof.
  unfold ReviewHelpfulView_post, try_except, bind, Review_get, lookup_review.
  destruct (find _ _) as [r|] eqn:Hfind; cbn.
  - split; [split; discriminate|].
    unfold voted. now rewrite (find_review_id _ _ _ Hfind).
  - split; [split; reflexivity|reflexivity].
Qed.

(** ** Rating range *)

Lemma rating_in_range_spec (r : Z) : rating_in_range r = true <-> 1 <= r <= 5.
Proof. unfold rating_in_range. rewrite andb_true_iff, !Z.leb_le. tauto. Qed.

Lemma rating_out_of_range_spec (r : Z) :
  rating_in_range r = false <-> r < 1 \/ 5 < r.
Proof.
  unfold rating_in_range. rewrite andb_false_iff, !Z.leb_gt. tauto.
Qed.

Lemma ReviewCreate_invalid_rating (now : Z) (user : User) (pk r : Z)
    (data : ReviewData) (db : DB) :
  data_rating data = Some r -> rating_in_range r = false ->
  ReviewCreate_post now user pk data db = (Raise InvalidRating, db).
Proof.
  intros Hr Hrange. unfold ReviewCreate_post, bind, ReviewSerializer_is_valid.
  now rewrite Hr, Hrange.
Qed.

Lemma ReviewDetail_get_object_owner (user : User) (pk : Z) (db : DB)
    (rev : Review.t) :
  lookup_review db pk = Some rev ->
  Review.review_user rev = user_id user ->
  ReviewDetail_get_object user pk db = (Ok rev, db).
Proof.
  intros Hfind Hown.
  unfold ReviewDetail_get_object, bind, try_except, Review_get.
  unfold lookup_review in Hfind. rewrite Hfind. cbn.
  unfold IsReviewUserOrReadOnly. rewrite Hown, Z.eqb_refl. reflexivity.
Qed.

Lemma ReviewDetail_update_invalid_rating (partial : bool) (now : Z)
    (user : User) (pk r : Z) (data : ReviewData) (db : DB) (rev : Review.t) :
  data_rating data = Some r -> rating_in_range r = false ->
  lookup_review db pk = Some rev ->
  Review.review_user rev = user_id user ->
  ReviewDetail_update partial now user pk data db = (Raise InvalidRating, db).
Proof.
  intros Hr Hrange Hfind Hown. unfold ReviewDetail_update, bind.
  rewrite (ReviewDetail_get_object_owner _ _ _ _ Hfind Hown).
  unfold ReviewSerializer_is_valid. now rewrite Hr, Hrange.
Qed.

Lemma ReviewDetail_update_invalid_db (partial : bool) (now : Z)
    (user : User) (pk r : Z) (data : ReviewData) (db : DB) :
  data_rating data = Some r -> rating_in_range r = false ->
  snd (ReviewDetail_update partial now user pk data db) = db.
Proof.
  intros Hr Hrange. unfold ReviewDetail_update, bind.
  pose proof (ReviewDetail_get_object_db user pk db) as Hobj.
  destruct (ReviewDetail_get_object user pk db) as [[obj|e] db1];
    cbn in Hobj; subst db1; [|reflexivity].
  unfold ReviewSerializer_is_valid. now rewrite Hr, Hrange.
Qed.

Lemma find_map_replace (rs : list Review.t) (pk : Z) (old new : Review.t) :
  find (fun x => Review.id x =? pk) rs = Some old ->
  Review.id new = pk ->
  find (fun x => Review.id x =? pk)
       (map (fun x => if Review.id x =? pk then new else x) rs)
  = Some new.
Proof.
  intros Hfind Hid. induction rs as [|x rs IH]; cbn in *; [discriminate|].
  destruct (Review.id x =? pk) eqn:Hx; cbn.
  - now rewrite Hid, Z.eqb_refl.
  - rewrite Hx. now apply IH.
Qed.

Lemma ReviewCreate_valid_rating (now : Z) (user : User) (pk r : Z)
    (data : ReviewData) (db : DB) (w : WatchList.t) :
  data_rating data = Some r -> 1 <= r <= 5 ->
  lookup_watchlist db pk = Some w ->
  has_review db user pk = false ->
  0 <= WatchList.number_rating w < snd integer_field_range ->
  exists rev,
    fst (ReviewCreate_post now user pk data db) = Ok rev
    /\ Review.rating rev = r
    /\ In rev (reviews (snd (ReviewCreate_post now user pk data db))).
Proof.
  intros Hr Hrange Hw Hnone Hcount.
  apply rating_in_range_spec in Hrange.
  unfold ReviewCreate_post, bind, ReviewSerializer_is_valid.
  rewrite Hr, Hrange. cbn. rewrite Hr.
  unfold perform_create, bind, WatchList_get.
  unfold lookup_watchlist in Hw. rewrite Hw. cbn.
  rewrite (find_watchlist_id _ _ _ Hw).
  apply filter_nil_existsb in Hnone. unfold has_review in Hnone.
  rewrite Hnone.
  assert (Hfits : fits_integer_field (WatchList.number_rating w + 1) = true).
  { unfold fits_integer_field, integer_field_range in *. cbn in *.
    apply andb_true_iff. rewrite !Z.leb_le. lia. }
  destruct (WatchList.number_rating w =? 0); cbn.
  - rewrite Hfits. cbn.
    eexists. split; [reflexivity|]. split; [reflexivity|].
    apply in_or_app. right. now left.
  - destruct (WatchList.number_rating w + 1 =? 0) eqn:Hz; [lia|]. cbn.
    rewrite Hfits. cbn.
    eexists. split; [reflexivity|]. split; [reflexivity|].
    apply in_or_app. right. now left.
Qed.

Lemma ReviewCreate_count_overflow (now : Z) (user : User) (pk r : Z)
    (data : ReviewData) (db : DB) (w : WatchList.t) :
  data_rating data = Some r -> 1 <= r <= 5 ->
  lookup_watchlist db pk = Some w ->
  has_review db user pk = false ->
  snd integer_field_range <= WatchList.number_rating w ->
  ReviewCreate_post now user pk data db = (Raise OverflowError, db).
Proof.
  intros Hr Hrange Hw Hnone Hcount.
  apply rating_in_range_spec in Hrange.
  unfold ReviewCreate_post, bind, ReviewSerializer_is_valid.
  rewrite Hr, Hrange. cbn. rewrite Hr.
  unfold perform_create, bind, WatchList_get.
  unfold lookup_watchlist in Hw. rewrite Hw. cbn.
  rewrite (find_watchlist_id _ _ _ Hw).
  apply filter_nil_existsb in Hnone. unfold has_review in Hnone.
  rewrite Hnone.
  assert (Hfits : fits_integer_field (WatchList.number_rating w + 1) = false).
  { unfold fits_integer_field, integer_field_range in *. cbn in *.
    apply andb_false_iff. right. apply Z.leb_gt. lia. }
  assert (Hn0 : (WatchList.number_rating w =? 0) = false).
  { apply Z.eqb_neq. unfold integer_field_range in Hcount. cbn in Hcount.
    lia. }
  assert (Hn1 : (WatchList.number_rating w + 1 =? 0) = false).
  { apply Z.eqb_neq. unfold integer_field_range in Hcount. cbn in Hcount.
    lia. }
  rewrite Hn0, Hn1. cbn. rewrite Hfits. reflexivity.
Qed.

Lemma ReviewDetail_update_valid_rating (partial : bool) (now : Z)
    (user : User) (pk r : Z) (data : ReviewData) (db : DB) (rev : Review.t) :
  data_rating data = Some r -> 1 <= r <= 5 ->
  lookup_review db pk = Some rev ->
  Review.review_user rev = user_id user ->
  exists rev',
    fst (ReviewDetail_update partial now user pk data db) = Ok rev'
    /\ Review.rating rev' = r
    /\ lookup_review (snd (ReviewDetail_update partial now user pk data db)) pk
       = Some rev'.
Proof.
  intros Hr Hrange Hfind Hown. apply rating_in_range_spec in Hrange.
  unfold ReviewDetail_update, bind.
  rewrite (ReviewDetail_get_object_owner _ _ _ _ Hfind Hown).
  unfold ReviewSerializer_is_valid. rewrite Hr, Hrange. cbn. rewrite Hr.
  eexists. split; [reflexivity|]. split; [reflexivity|].
  unfold lookup_review in *. cbn.
  rewrite (find_review_id _ _ _ Hfind).
  now apply find_map_replace with (old := rev).
Qed.

(** C8.  Range validation of the rating.  A submission, and an update by
    the owner of an existing review, whose rating lies outside 1..5 (0 and
    6 among them) fail with InvalidRating and leave the whole database
    as it was; an update with such a rating leaves it as it was also when
    it fails earlier for another reason.  With a rating within 1..5 (1 and
    5 among them) a submission by a user without a review on an existing
    title stores a review with that rating, as long as the count of the
    title is not negative and the count raised by one still fits its
    column; on a title whose count is the largest integer of the column
    the submission raises OverflowError and writes nothing.  An update
    by the owner with a rating within 1..5 stores the new rating. *)
Theorem rating_range_validation :
  (rating_in_range 0 = false /\ rating_in_range 6 = false
   /\ rating_in_range 1 = true /\ rating_in_range 5 = true
   /\ forall r, rating_in_range r = false <-> r < 1 \/ 5 < r)
  /\ (forall now user pk r data db,
         data_rating data = Some r -> rating_in_range r = false ->
         ReviewCreate_post now user pk data db = (Raise InvalidRating, db))
  /\ (forall partial now user pk r data db rev,
         data_rating data = Some r -> rating_in_range r = false ->
         lookup_review db pk = Some rev ->
         Review.review_user rev = user_id user ->
         ReviewDetail_update partial now user pk data db
         = (Raise InvalidRating, db))
  /\ (forall partial now user pk r data db,
         data_rating data = Some r -> rating_in_range r = false ->
         snd (ReviewDetail_update partial now user pk data db) = db)
  /\ (forall now user pk r data db w,
         data_rating data = Some r -> 1 <= r <= 5 ->
         lookup_watchlist db pk = Some w ->
         has_review db user pk = false ->
         0 <= WatchList.number_rating w < snd integer_field_range ->
         exists rev,
           fst (ReviewCreate_post now user pk data db) = Ok rev
           /\ Review.rating rev = r
           /\ In rev (reviews (snd (ReviewCreate_post now user pk data db))))
  /\ (forall now user pk r data db w,
         data_rating data = Some r -> 1 <= r <= 5 ->
         lookup_watchlist db pk = Some w ->
         has_review db user pk = false ->
         snd integer_field_range <= WatchList.number_rating w ->
         ReviewCreate_post now user pk data db = (Raise OverflowError, db))
  /\ (forall partial now user pk r data db rev,
         data_rating data = Some r -> 1 <= r <= 5 ->
         lookup_review db pk = Some rev ->
         Review.review_user rev = user_id user ->
         exists rev',
           fst (ReviewDetail_update partial now user pk data db) = Ok rev'
           /\ Review.rating rev' = r
           /\ lookup_review
                (snd (ReviewDetail_update partial now user pk data db)) pk
              = Some rev').
Proof.
  split.
  { repeat split; try reflexivity; apply rating_out_of_range_spec. }
  split; [exact ReviewCreate_invalid_rating|].
  split; [exact ReviewDetail_update_invalid_rating|].
  split; [exact ReviewDetail_update_invalid_db|].
  split; [exact ReviewCreate_valid_rating|].
  split; [exact ReviewCreate_count_overflow|].
  exact ReviewDetail_update_valid_rating.
Qed.

(** ** Facts about the query building blocks *)

Section OrderByFacts.
Context {A : Type}.
Variable before : A -> A -> bool.

Local Abbreviation in_order := (in_order before).

Lemma insert_row_perm (x : A) (l : list A) :
  Permutation (insert_row before x l) (x :: l).
Proof.
  induction l as [|y l IH]; cbn; [reflexivity|].
  destruct (before y x); [|reflexivity].
  rewrite IH. apply perm_swap.
Qed.

Lemma order_by_perm (l : list A) : Permutation (order_by before l) l.
Proof.
  induction l as [|x l IH]; cbn; [reflexivity|].
  rewrite insert_row_perm. now constructor.
Qed.

Hypothesis before_asym : forall a b, before a b = true -> before b a = false.
Hypothesis before_neg_trans :
  forall a b c, before b a = false -> before c b = false -> before c a = false.

Lemma insert_row_sorted (x : A) (l : list A) :
  StronglySorted in_order l -> StronglySorted in_order (insert_row before x l).
Proof.
  induction 1 as [|y l Hl IH Hy]; cbn.
  - repeat constructor.
  - destruct (before y x) eqn:Hyx.
    + constructor; [exact IH|].
      rewrite insert_row_perm. constructor; [|exact Hy].
      now apply before_asym.
    + constructor; [now constructor|].
      constructor; [exact Hyx|].
      eapply Forall_impl; [|exact Hy].
      intros z Hz. unfold in_order in *. eauto.
Qed.

Lemma order_by_sorted (l : list A) : StronglySorted in_order (order_by before l).
Proof.
  induction l as [|x l IH]; cbn; [constructor|].
  now apply insert_row_sorted.
Qed.
End OrderByFacts.

Section ListFacts.
Context {A : Type}.

Lemma In_firstn (n : nat) (l : list A) (x : A) :
  In x (firstn n l) -> In x l.
Proof.
  revert n. induction l as [|a l IH]; intros [|n]; cbn; try tauto.
  intros [->|H]; [now left|right; eauto].
Qed.

Lemma StronglySorted_firstn (R : A -> A -> Prop) (n : nat) (l : list A) :
  StronglySorted R l -> StronglySorted R (firstn n l).
Proof.
  intros H. revert n. induction H as [|x l Hl IH Hx]; intros [|n]; cbn;
    try constructor.
  - apply IH.
  - apply Forall_forall. intros y Hy. apply In_firstn in Hy.
    rewrite Forall_forall in Hx. now apply Hx.
Qed.

Lemma Forall_firstn (P : A -> Prop) (n : nat) (l : list A) :
  Forall P l -> Forall P (firstn n l).
Proof.
  rewrite !Forall_forall. intros H x Hx. apply H. now apply In_firstn in Hx.
Qed.

Lemma NoDup_firstn (n : nat) (l : list A) : NoDup l -> NoDup (firstn n l).
Proof.
  intros H. revert n. induction H as [|x l Hx Hl IH]; intros [|n]; cbn;
    try constructor.
  - intros Hin. apply Hx. now apply In_firstn in Hin.
  - apply IH.
Qed.

Lemma NoDup_map_incl {B : Type} (f : A -> B) (l ws : list A) :
  NoDup l -> incl l ws -> NoDup (map f ws) -> NoDup (map f l).
Proof.
  intros Hl Hincl Hws.
  assert (Hinj : forall x y, In x ws -> In y ws -> f x = f y -> x = y).
  { clear l Hl Hincl. induction ws as [|a ws IH]; cbn; [tauto|].
    inversion Hws as [|? ? Ha Hrest]; subst.
    intros x y [->|Hx] [->|Hy] Hf.
    - reflexivity.
    - exfalso. apply Ha. rewrite Hf. now apply in_map.
    - exfalso. apply Ha. rewrite <- Hf. now apply in_map.
    - now apply IH. }
  induction Hl as [|x l Hx Hl IH]; cbn; constructor.
  - rewrite in_map_iff. intros (y & Hf & Hy).
    assert (y = x) as ->; [|contradiction].
    apply Hinj; [apply Hincl; now right|apply Hincl; now left|exact Hf].
  - apply IH. intros y Hy. apply Hincl. now right.
Qed.

Lemma StronglySorted_impl (R R' : A -> A -> Prop) (l : list A) :
  (forall a b, R a b -> R' a b) -> StronglySorted R l -> StronglySorted R' l.
Proof.
  intros HR. induction 1 as [|x l Hl IH Hx]; constructor; [exact IH|].
  eapply Forall_impl; [|exact Hx]. auto.
Qed.

Lemma Permutation_filter (f : A -> bool) (l l' : list A) :
  Permutation l l' -> Permutation (filter f l) (filter f l').
Proof.
  induction 1 as [|x l l' H IH|x y l|l l' l'' H1 IH1 H2 IH2]; cbn.
  - constructor.
  - destruct (f x); [now constructor|exact IH].
  - destruct (f x), (f y); try reflexivity. apply perm_swap.
  - now transitivity (filter f l').
Qed.

Variable same : A -> A -> bool.

Lemma distinct_incl (l : list A) (x : A) : In x (distinct same l) -> In x l.
Proof.
  revert x. induction l as [|a l IH]; cbn; [tauto|].
  intros x [->|Hx]; [now left|].
  apply filter_In in Hx as [Hx _]. right. now apply IH.
Qed.

Lemma distinct_NoDup (l : list A) :
  (forall x, same x x = true) -> NoDup (distinct same l).
Proof.
  intros Hrefl. induction l as [|a l IH]; cbn; constructor.
  - intros Hin. apply filter_In in Hin as [_ Hin].
    now rewrite Hrefl in Hin.
  - now apply NoDup_filter.
Qed.

Lemma distinct_complete (l : list A) (x : A) :
  (forall y z, In y l -> In z l -> same y z = true -> y = z) ->
  In x l -> In x (distinct same l).
Proof.
  induction l as [|a l IH]; cbn; [tauto|].
  intros Hsame [->|Hx]; [now left|].
  destruct (same a x) eqn:Hax.
  - left. apply Hsame; auto.
  - right. apply filter_In. split; [|now rewrite Hax].
    apply IH; auto.
Qed.
End ListFacts.

(** ** Top-rated ranking *)

Lemma avg_rating_desc_asym (a b : WatchList.t) :
  avg_rating_desc a b = true -> avg_rating_desc b a = false.
Proof.
  unfold avg_rating_desc. rewrite negb_true_iff, negb_false_iff.
  intros H. apply Qle_bool_iff. apply Qlt_le_weak. apply Qnot_le_lt.
  intros Hle. apply Qle_bool_iff in Hle. congruence.
Qed.

Lemma avg_rating_desc_neg_trans (a b c : WatchList.t) :
  avg_rating_desc b a = false -> avg_rating_desc c b = false ->
  avg_rating_desc c a = false.
Proof.
  unfold avg_rating_desc. rewrite !negb_false_iff, !Qle_bool_iff.
  intros Hba Hcb. now apply Qle_trans with (WatchList.avg_rating b).
Qed.

Lemma in_order_avg_rating (a b : WatchList.t) :
  in_order avg_rating_desc a b -> avg_rating_ge a b.
Proof.
  unfold in_order, avg_rating_desc, avg_rating_ge.
  now rewrite negb_false_iff, Qle_bool_iff.
Qed.

Lemma order_by_avg_rating_sorted (l : list WatchList.t) :
  StronglySorted avg_rating_ge (order_by avg_rating_desc l).
Proof.
  apply StronglySorted_impl with (R := in_order avg_rating_desc).
  - exact in_order_avg_rating.
  - apply order_by_sorted.
    + exact avg_rating_desc_asym.
    + exact avg_rating_desc_neg_trans.
Qed.

(** C6, the claim on the example with the rows of A and B met in the
    order B, A: A and B tie on the average, the query names no second
    key, and B comes out ahead of A although A has the lower key. *)
Lemma top_rated_tie_follows_row_order :
  TopRatedMoviesView_get_queryset (ranking_db [title_B; title_A; title_C])
  = [title_B; title_A]
  /\ WatchList.id title_A < WatchList.id title_B.
Proof. split; vm_compute; reflexivity. Qed.

(** C6, amended.  The top-rated ranking is the first 50 rows of an
    ordering by descending average of exactly the active titles with at
    least 10 ratings; the query names no second key, so nothing is
    stated about the order of titles with equal averages.  On the
    example, whatever the row order, it consists of A and B, without C. *)
Theorem TopRated_spec (db : DB) :
  Forall (fun w => In w (watchlists db) /\ top_rated_eligible w = true)
         (TopRatedMoviesView_get_queryset db)
  /\ StronglySorted avg_rating_ge (TopRatedMoviesView_get_queryset db)
  /\ (length (TopRatedMoviesView_get_queryset db) <= 50)%nat
  /\ (exists l,
         Permutation l (filter top_rated_eligible (watchlists db))
         /\ StronglySorted avg_rating_ge l
         /\ TopRatedMoviesView_get_queryset db = firstn 50 l)
  /\ (forall ws,
         Permutation ws [title_A; title_B; title_C] ->
         Permutation (TopRatedMoviesView_get_queryset (ranking_db ws))
                     [title_A; title_B]).
Proof.
  unfold TopRatedMoviesView_get_queryset.
  change (fun w => (10 <=? WatchList.number_rating w) && WatchList.active w)
    with top_rated_eligible.
  repeat split.
  - apply Forall_firstn. apply Forall_forall. intros w Hw.
    apply (Permutation_in _ (order_by_perm avg_rating_desc _)) in Hw.
    now apply filter_In in Hw.
  - apply StronglySorted_firstn. apply order_by_avg_rating_sorted.
  - apply firstn_le_length.
  - eexists. split; [apply order_by_perm|].
    split; [apply order_by_avg_rating_sorted|reflexivity].
  - intros ws Hws. cbn [watchlists ranking_db].
    assert (Hperm : Permutation
                      (order_by avg_rating_desc (filter top_rated_eligible ws))
                      [title_A; title_B]).
    { rewrite order_by_perm.
      now rewrite (Permutation_filter top_rated_eligible _ _ Hws). }
    rewrite firstn_all2; [exact Hperm|].
    rewrite (Permutation_length Hperm). cbn. lia.
Qed.

(** ** Trending ranking *)

Lemma count_desc_asym (a b : WatchList.t * Z) :
  count_desc a b = true -> count_desc b a = false.
Proof. unfold count_desc. rewrite Z.ltb_lt, Z.ltb_ge. lia. Qed.

Lemma count_desc_neg_trans (a b c : WatchList.t * Z) :
  count_desc b a = false -> count_desc c b = false -> count_desc c a = false.
Proof. unfold count_desc. rewrite !Z.ltb_ge. lia. Qed.

(** A key that is unique in the table selects its own row. *)
Lemma filter_unique_pk (g : WatchList.t -> bool) (ws : list WatchList.t)
    (w : WatchList.t) :
  NoDup (map WatchList.id ws) -> In w ws ->
  filter (fun w' => same_pk w' w && g w') ws = if g w then [w] else [].
Proof.
  unfold same_pk. induction ws as [|a ws IH]; cbn; [tauto|].
  intros Hnd Hin. inversion Hnd as [|? ? Ha Hrest]; subst.
  assert (Hnone : forall v, WatchList.id v = WatchList.id a ->
            filter (fun w' => (WatchList.id w' =? WatchList.id v) && g w') ws
            = []).
  { intros v Hv. apply filter_nil_existsb. apply not_true_is_false.
    rewrite existsb_exists. intros (x & Hx & Hxv).
    apply andb_true_iff in Hxv as [Hxv _]. apply Z.eqb_eq in Hxv.
    apply Ha. rewrite <- Hv, <- Hxv. now apply in_map. }
  destruct Hin as [->|Hin].
  - rewrite Z.eqb_refl. cbn. rewrite Hnone by reflexivity.
    now destruct (g w).
  - destruct (WatchList.id a =? WatchList.id w) eqn:Haw; cbn.
    + apply Z.eqb_eq in Haw. exfalso. apply Ha. rewrite Haw.
      now apply in_map.
    + now apply IH.
Qed.

Lemma same_pk_unique (ws : list WatchList.t) (x y : WatchList.t) :
  NoDup (map WatchList.id ws) -> In x ws -> In y ws ->
  same_pk x y = true -> x = y.
Proof.
  intros Hnd Hx Hy Hsame.
  pose proof (filter_unique_pk (fun _ => true) ws y Hnd Hy) as Hf.
  cbn in Hf.
  assert (Hin : In x (filter (fun w' => same_pk w' y && true) ws)).
  { apply filter_In. now rewrite Hsame. }
  rewrite Hf in Hin. destruct Hin as [->|[]]. reflexivity.
Qed.

(** The rows of the filtered join that belong to [w], counted. *)
Lemma join_rows_of_title (now : Z) (a w : WatchList.t) (l : list Review.t) :
  length
    (filter (fun wr : WatchList.t * Review.t => same_pk (fst wr) w)
       (filter (fun wr => in_window now (snd wr) && WatchList.active (fst wr))
               (map (pair a) l)))
  = if same_pk a w && WatchList.active a
    then length (filter (in_window now) l) else 0%nat.
Proof.
  induction l as [|r l IH]; cbn.
  - now destruct (same_pk a w && WatchList.active a).
  - destruct (in_window now r); cbn; [|exact IH].
    revert IH.
    destruct (WatchList.active a); cbn; [|now rewrite andb_false_r].
    destruct (same_pk a w); cbn; intros IH; now rewrite IH.
Qed.

Lemma filter_filter_andb {A : Type} (f g : A -> bool) (l : list A) :
  filter g (filter f l) = filter (fun x => f x && g x) l.
Proof.
  induction l as [|x l IH]; cbn; [reflexivity|].
  destruct (f x); cbn; [destruct (g x)|]; now rewrite IH.
Qed.

Lemma join_rows_count (now : Z) (rs : list Review.t)
    (ws : list WatchList.t) (w : WatchList.t) :
  length
    (filter (fun wr : WatchList.t * Review.t => same_pk (fst wr) w)
       (filter (fun wr => in_window now (snd wr) && WatchList.active (fst wr))
          (flat_map
             (fun w' => map (pair w')
                            (filter (fun r => Review.watchlist r
                                              =? WatchList.id w') rs))
             ws)))
  = Nat.mul
      (length (filter (fun w' => same_pk w' w && WatchList.active w') ws))
      (length (filter (fun r => (Review.watchlist r =? WatchList.id w)
                                && in_window now r) rs)).
Proof.
  induction ws as [|a ws IH]; cbn; [reflexivity|].
  rewrite !filter_app, length_app, IH, join_rows_of_title.
  destruct (same_pk a w && WatchList.active a) eqn:Ha; cbn; [|reflexivity].
  apply andb_true_iff in Ha as [Ha _]. apply Z.eqb_eq in Ha.
  now rewrite filter_filter_andb, Ha.
Qed.

Lemma recent_review_count_pos (now : Z) (db : DB) (w : WatchList.t) :
  1 <= recent_review_count now db w
  <-> exists r, In r (reviews db)
                /\ Review.watchlist r = WatchList.id w
                /\ in_window now r = true.
Proof.
  unfold recent_review_count. split.
  - intros H.
    destruct (filter _ (reviews db)) as [|r l] eqn:Hf; [cbn in H; lia|].
    assert (Hr : In r (filter (fun r => (Review.watchlist r =? WatchList.id w)
                                        && in_window now r) (reviews db))).
    { rewrite Hf. now left. }
    apply filter_In in Hr as [Hr Hp].
    apply andb_true_iff in Hp as [Hp1 Hp2]. apply Z.eqb_eq in Hp1. eauto.
  - intros (r & Hr & Hw & Hwin).
    assert (Hin : In r (filter (fun r => (Review.watchlist r =? WatchList.id w)
                                         && in_window now r) (reviews db))).
    { apply filter_In. split; [exact Hr|].
      rewrite Hw, Z.eqb_refl. exact Hwin. }
    destruct (filter _ (reviews db)); [destruct Hin|cbn; lia].
Qed.

Lemma Trending_unfold (now : Z) (db : DB) :
  TrendingMoviesView_get_queryset now db
  = map fst (firstn 10 (order_by count_desc
                                 (annotate_count (trending_rows now db)))).
Proof. reflexivity. Qed.

Lemma trending_rows_In (now : Z) (db : DB) (w : WatchList.t) :
  In w (map fst (trending_rows now db))
  <-> In w (watchlists db) /\ trending_eligible now db w = true.
Proof.
  unfold trending_rows, reviews_join, trending_eligible.
  rewrite andb_true_iff, Z.leb_le, recent_review_count_pos, in_map_iff.
  split.
  - intros ([w' r] & Hfst & Hin). cbn in Hfst. subst w'.
    apply filter_In in Hin as [Hin Hp]. cbn in Hp.
    apply andb_true_iff in Hp as [Hwin Hact].
    apply in_flat_map in Hin as (w' & Hw' & Hin).
    apply in_map_iff in Hin as (r' & Heq & Hr'). inversion Heq; subst.
    apply filter_In in Hr' as [Hr' Hid]. apply Z.eqb_eq in Hid.
    split; [exact Hw'|]. split; [exact Hact|]. eauto.
  - intros (Hw & Hact & r & Hr & Hid & Hwin).
    exists (w, r). split; [reflexivity|].
    apply filter_In. cbn. split; [|now rewrite Hwin, Hact].
    apply in_flat_map. exists w. split; [exact Hw|].
    apply in_map. apply filter_In. split; [exact Hr|].
    now apply Z.eqb_eq.
Qed.

Lemma annotate_count_trending (now : Z) (db : DB) :
  unique_pk db ->
  annotate_count (trending_rows now db)
  = map (fun w => (w, recent_review_count now db w))
        (distinct same_pk (map fst (trending_rows now db))).
Proof.
  intros Hpk. unfold annotate_count. apply map_ext_in. intros w Hw.
  apply distinct_incl, trending_rows_In in Hw as [Hw Hel].
  unfold trending_eligible in Hel. apply andb_true_iff in Hel as [Hact _].
  f_equal. unfold recent_review_count. f_equal.
  unfold trending_rows, reviews_join. rewrite join_rows_count.
  rewrite (filter_unique_pk WatchList.active _ _ Hpk Hw), Hact. cbn.
  apply Nat.add_0_r.
Qed.

Lemma trending_titles_perm (now : Z) (db : DB) :
  unique_pk db ->
  Permutation (distinct same_pk (map fst (trending_rows now db)))
              (filter (trending_eligible now db) (watchlists db)).
Proof.
  intros Hpk. apply NoDup_Permutation.
  - apply distinct_NoDup. intros x. apply Z.eqb_refl.
  - apply NoDup_filter. now apply NoDup_map_inv in Hpk.
  - intros w. rewrite filter_In, <- trending_rows_In. split.
    + apply distinct_incl.
    + intros Hw. apply distinct_complete; [|exact Hw].
      intros y z Hy Hz. apply (same_pk_unique (watchlists db)); auto.
      * now apply trending_rows_In in Hy.
      * now apply trending_rows_In in Hz.
Qed.

Lemma StronglySorted_by_count (g : WatchList.t -> Z)
    (l : list (WatchList.t * Z)) :
  Forall (fun p => snd p = g (fst p)) l ->
  StronglySorted (in_order count_desc) l ->
  StronglySorted (fun a b => g b <= g a) (map fst l).
Proof.
  intros Hg Hs. induction Hs as [|p l Hl IH Hp]; cbn; [constructor|].
  inversion Hg as [|? ? Hgp Hgl]; subst.
  constructor; [now apply IH|].
  apply Forall_forall. intros w Hw.
  apply in_map_iff in Hw as (q & <- & Hq).
  rewrite Forall_forall in Hp, Hgl.
  specialize (Hp q Hq). specialize (Hgl q Hq).
  unfold in_order, count_desc in Hp. apply Z.ltb_ge in Hp. lia.
Qed.

Lemma trending_sorted (now : Z) (db : DB) :
  unique_pk db ->
  StronglySorted (recent_count_ge now db)
    (map fst (order_by count_desc (annotate_count (trending_rows now db)))).
Proof.
  intros Hpk. apply StronglySorted_by_count.
  - apply Forall_forall. intros p Hp.
    apply (Permutation_in _ (order_by_perm count_desc _)) in Hp.
    rewrite annotate_count_trending in Hp by exact Hpk.
    apply in_map_iff in Hp as (w & <- & _). reflexivity.
  - apply order_by_sorted.
    + exact count_desc_asym.
    + exact count_desc_neg_trans.
Qed.

Lemma trending_perm (now : Z) (db : DB) :
  unique_pk db ->
  Permutation
    (map fst (order_by count_desc (annotate_count (trending_rows now db))))
    (filter (trending_eligible now db) (watchlists db)).
Proof.
  intros Hpk. rewrite order_by_perm, annotate_count_trending by exact Hpk.
  rewrite map_map. cbn. rewrite map_id. now apply trending_titles_perm.
Qed.

(** C7.  The trending ranking, on a table with unique keys: every title
    it returns is active and has at least one review created within the
    seven days before the request; the titles come in descending order
    of the number of their reviews created within that window; there are
    at most 10 of them, each once; and they are the first 10 of such an
    ordering of all the titles that qualify. *)
Theorem Trending_spec (now : Z) (db : DB) :
  unique_pk db ->
  Forall (fun w => In w (watchlists db)
                   /\ WatchList.active w = true
                   /\ 1 <= recent_review_count now db w)
         (TrendingMoviesView_get_queryset now db)
  /\ StronglySorted (recent_count_ge now db)
                    (TrendingMoviesView_get_queryset now db)
  /\ (length (TrendingMoviesView_get_queryset now db) <= 10)%nat
  /\ NoDup (TrendingMoviesView_get_queryset now db)
  /\ exists l,
      Permutation l (filter (trending_eligible now db) (watchlists db))
      /\ StronglySorted (recent_count_ge now db) l
      /\ TrendingMoviesView_get_queryset now db = firstn 10 l.
Proof.
  intros Hpk. rewrite Trending_unfold, <- firstn_map.
  pose proof (trending_perm now db Hpk) as Hperm.
  pose proof (trending_sorted now db Hpk) as Hsorted.
  repeat split.
  - apply Forall_firstn. apply Forall_forall. intros w Hw.
    apply (Permutation_in _ Hperm) in Hw.
    apply filter_In in Hw as [Hw Hel].
    unfold trending_eligible in Hel.
    apply andb_true_iff in Hel as [Hact Hcount]. apply Z.leb_le in Hcount.
    auto.
  - now apply StronglySorted_firstn.
  - apply firstn_le_length.
  - apply NoDup_firstn.
    apply (Permutation_NoDup (Permutation_sym Hperm)).
    apply NoDup_filter. now apply NoDup_map_inv in Hpk.
  - eexists. split; [exact Hperm|]. split; [exact Hsorted|reflexivity].
Qed.

(** ** Similar titles *)

Lemma WatchList_row_eqb_refl (w : WatchList.t) : WatchList_row_eqb w w = true.
Proof.
  unfold WatchList_row_eqb.
  assert (Hq : Qeq_bool (WatchList.avg_rating w) (WatchList.avg_rating w)
               = true) by (apply Qeq_bool_iff; reflexivity).
  now rewrite !Z.eqb_refl, Bool.eqb_reflx, Hq.
Qed.

Lemma WatchList_row_eqb_same_pk (a b : WatchList.t) :
  WatchList_row_eqb a b = true -> same_pk a b = true.
Proof.
  unfold WatchList_row_eqb, same_pk. rewrite !andb_true_iff. tauto.
Qed.

Lemma Similar_unfold (pk : Z) (db : DB) (movie : WatchList.t) :
  lookup_watchlist db pk = Some movie ->
  SimilarMoviesView_get_queryset pk db
  = (Ok (firstn 10
           (order_by created_desc
              (distinct WatchList_row_eqb (map fst (similar_rows movie db))))),
     db).
Proof.
  intros Hfind. unfold SimilarMoviesView_get_queryset, bind, try_except.
  unfold WatchList_get. unfold lookup_watchlist in Hfind. rewrite Hfind. cbn.
  unfold similar_rows. now rewrite (find_watchlist_id _ _ _ Hfind).
Qed.

Lemma Similar_not_found (pk : Z) (db : DB) :
  lookup_watchlist db pk = None ->
  SimilarMoviesView_get_queryset pk db = (Raise NotFound, db).
Proof.
  intros Hfind. unfold SimilarMoviesView_get_queryset, bind, try_except.
  unfold WatchList_get. unfold lookup_watchlist in Hfind. now rewrite Hfind.
Qed.

Lemma similar_rows_In (movie : WatchList.t) (db : DB) (w : WatchList.t) :
  In w (map fst (similar_rows movie db))
  <-> In w (watchlists db) /\ similar_eligible movie w = true.
Proof.
  unfold similar_rows, genres_join, similar_eligible, shares_genre.
  rewrite !andb_true_iff, existsb_exists, in_map_iff. split.
  - intros ([w' g] & Hfst & Hin). cbn in Hfst. subst w'.
    apply filter_In in Hin as [Hin Hne]. cbn in Hne.
    apply filter_In in Hin as [Hin Hp]. cbn in Hp.
    apply andb_true_iff in Hp as [Hg Hact].
    apply in_flat_map in Hin as (w' & Hw' & Hin).
    apply in_map_iff in Hin as (g' & Heq & Hg'). inversion Heq; subst.
    split; [exact Hw'|]. split; [split|exact Hne]; eauto.
  - intros (Hw & ((g & Hg & Hmem) & Hact) & Hne).
    exists (w, g). split; [reflexivity|].
    apply filter_In. split; [|exact Hne].
    apply filter_In. cbn. split; [|now rewrite Hmem, Hact].
    apply in_flat_map. exists w. split; [exact Hw|]. now apply in_map.
Qed.

Lemma similar_titles_perm (movie : WatchList.t) (db : DB) :
  unique_pk db ->
  Permutation
    (order_by created_desc
       (distinct WatchList_row_eqb (map fst (similar_rows movie db))))
    (filter (similar_eligible movie) (watchlists db)).
Proof.
  intros Hpk. rewrite order_by_perm. apply NoDup_Permutation.
  - apply distinct_NoDup. exact WatchList_row_eqb_refl.
  - apply NoDup_filter. now apply NoDup_map_inv in Hpk.
  - intros w. rewrite filter_In, <- similar_rows_In. split.
    + apply distinct_incl.
    + intros Hw. apply distinct_complete; [|exact Hw].
      intros y z Hy Hz Hrow.
      apply (same_pk_unique (watchlists db)); auto.
      * now apply similar_rows_In in Hy.
      * now apply similar_rows_In in Hz.
      * now apply WatchList_row_eqb_same_pk.
Qed.

(** C10.  Similar titles, on a table with unique keys and for a
    reference title that exists: the query returns a list in which no
    title occurs twice, however many genres it shares with the reference,
    and in which the reference does not occur; every title in it is
    active and shares a genre with the reference; it has at most 10
    entries, the first 10 of an arrangement of all titles that qualify. *)
Theorem Similar_spec (pk : Z) (db : DB) (movie : WatchList.t) :
  unique_pk db ->
  lookup_watchlist db pk = Some movie ->
  exists res,
    SimilarMoviesView_get_queryset pk db = (Ok res, db)
    /\ NoDup (map WatchList.id res)
    /\ ~ In pk (map WatchList.id res)
    /\ Forall (fun w => In w (watchlists db)
                        /\ WatchList.active w = true
                        /\ shares_genre w movie = true) res
    /\ (length res <= 10)%nat
    /\ exists l,
        Permutation l (filter (similar_eligible movie) (watchlists db))
        /\ res = firstn 10 l.
Proof.
  intros Hpk Hfind. eexists. split; [exact (Similar_unfold pk db movie Hfind)|].
  pose proof (similar_titles_perm movie db Hpk) as Hperm.
  assert (Hall : forall w,
             In w (firstn 10
                     (order_by created_desc
                        (distinct WatchList_row_eqb
                                  (map fst (similar_rows movie db))))) ->
             In w (watchlists db) /\ similar_eligible movie w = true).
  { intros w Hw. apply In_firstn in Hw.
    apply (Permutation_in _ Hperm) in Hw. now apply filter_In in Hw. }
  repeat split.
  - apply NoDup_map_incl with (ws := watchlists db); [| |exact Hpk].
    + apply NoDup_firstn.
      apply (Permutation_NoDup (Permutation_sym Hperm)).
      apply NoDup_filter. now apply NoDup_map_inv in Hpk.
    + intros w Hw. now apply Hall in Hw.
  - rewrite in_map_iff. intros (w & Hid & Hw).
    apply Hall in Hw as [_ Hel]. unfold similar_eligible in Hel.
    apply andb_true_iff in Hel as [_ Hne].
    rewrite (find_watchlist_id _ _ _ Hfind), Hid, Z.eqb_refl in Hne.
    discriminate Hne.
  - apply Forall_forall. intros w Hw. apply Hall in Hw as [Hw Hel].
    unfold similar_eligible in Hel. rewrite !andb_true_iff in Hel. tauto.
  - apply firstn_le_length.
  - eexists. split; [exact Hperm|reflexivity].
Qed.

(** ** The theorems at concrete inputs *)

(** C6 at the example in the row order C, A, B. *)
Lemma TopRated_spec_witness :
  Permutation [title_C; title_A; title_B] [title_A; title_B; title_C]
  /\ Permutation
       (TopRatedMoviesView_get_queryset
          (ranking_db [title_C; title_A; title_B]))
       [title_A; title_B].
Proof.
  assert (H : Permutation [title_C; title_A; title_B]
                          [title_A; title_B; title_C]).
  { apply Permutation_sym.
    change [title_A; title_B; title_C] with ([title_A; title_B] ++ [title_C]).
    apply Permutation_app_comm. }
  split; [exact H|].
  exact (proj2 (proj2 (proj2 (proj2
           (TopRated_spec (ranking_db [])))))
           [title_C; title_A; title_B] H).
Defined.

(** C7 on [sample_db], ten days in: Y (two recent reviews out of two)
    comes ahead of X (one recent review out of three), and the inactive Z
    and the unreviewed W are absent. *)
Lemma Trending_spec_witness :
  unique_pk sample_db
  /\ TrendingMoviesView_get_queryset (10 * day) sample_db = [title_Y; title_X]
  /\ total_review_count sample_db title_Y < total_review_count sample_db title_X
  /\ StronglySorted (recent_count_ge (10 * day) sample_db)
                    (TrendingMoviesView_get_queryset (10 * day) sample_db)
  /\ Forall (fun w => In w (watchlists sample_db)
                      /\ WatchList.active w = true
                      /\ 1 <= recent_review_count (10 * day) sample_db w)
            (TrendingMoviesView_get_queryset (10 * day) sample_db).
Proof.
  assert (Hpk : unique_pk sample_db) by solve_unique_pk.
  destruct (Trending_spec (10 * day) sample_db Hpk) as (Hall & Hsorted & _).
  split; [exact Hpk|].
  split; [vm_compute; reflexivity|].
  split; [vm_compute; reflexivity|].
  split; [exact Hsorted|exact Hall].
Defined.

(** C10 on [sample_db] with X as the reference: Y shares both genres of
    X and is returned once; X itself, the inactive Z and W are absent. *)
Lemma Similar_spec_witness :
  unique_pk sample_db
  /\ lookup_watchlist sample_db 1 = Some title_X
  /\ SimilarMoviesView_get_queryset 1 sample_db = (Ok [title_Y], sample_db)
  /\ exists res,
      SimilarMoviesView_get_queryset 1 sample_db = (Ok res, sample_db)
      /\ NoDup (map WatchList.id res)
      /\ ~ In 1 (map WatchList.id res).
Proof.
  assert (Hpk : unique_pk sample_db) by solve_unique_pk.
  assert (Hfind : lookup_watchlist sample_db 1 = Some title_X)
    by reflexivity.
  destruct (Similar_spec 1 sample_db title_X Hpk Hfind)
    as (res & Heq & Hnd & Hnot & _).
  split; [exact Hpk|]. split; [exact Hfind|].
  split; [vm_compute; reflexivity|].
  exists res. auto.
Defined.

(** C8 at ratings 0, 6, 1 and 5, submitted by alice on the fresh title and
    sent by her as updates of her stored review; and at a rating of 5
    submitted on the title after an administrator has stored the largest
    count of the column on it. *)
Lemma rating_range_validation_witness :
  let db := run_ops 1 100 [Submit alice 3] catalogue in
  let full :=
    snd (WatchDetailAV_put admin 1
           (mkWatchListData (Some 1) (Some [1]) None None
                            (Some (snd integer_field_range)))
           catalogue) in
  ReviewCreate_post 100 alice 1 (mkReviewData (Some 0) None) catalogue
  = (Raise InvalidRating, catalogue)
  /\ ReviewCreate_post 100 bob 1 (mkReviewData (Some 6) None) db
     = (Raise InvalidRating, db)
  /\ ReviewDetail_put 101 alice 1 (mkReviewData (Some 0) None) db
     = (Raise InvalidRating, db)
  /\ ReviewDetail_patch 101 alice 1 (mkReviewData (Some 6) None) db
     = (Raise InvalidRating, db)
  /\ (exists rev,
         fst (ReviewCreate_post 100 alice 1 (mkReviewData (Some 1) None)
                                catalogue) = Ok rev
         /\ Review.rating rev = 1)
  /\ ReviewCreate_post 100 alice 1 (mkReviewData (Some 5) None) full
     = (Raise OverflowError, full)
  /\ (exists rev,
         fst (ReviewDetail_put 101 alice 1 (mkReviewData (Some 5) None) db)
         = Ok rev
         /\ Review.rating rev = 5).
Proof.
  cbv zeta.
  destruct rating_range_validation as (_ & Hc & Hu & _ & Hcs & Hco & Hus).
  split; [apply (Hc 100 alice 1 0); reflexivity|].
  split; [apply (Hc 100 bob 1 6); reflexivity|].
  split.
  { eapply (Hu false 101 alice 1 0); reflexivity. }
  split.
  { eapply (Hu true 101 alice 1 6); reflexivity. }
  split.
  - destruct (Hcs 100 alice 1 1 (mkReviewData (Some 1) None) catalogue
                  fresh_title) as (rev & Hok & Hr & _);
      [reflexivity|lia|reflexivity|reflexivity|cbn; lia|].
    exists rev. auto.
  - split.
    { apply (Hco 100 alice 1 5 _ _
               (WatchList.mk 1 1 true 0%Q (snd integer_field_range) 0 [1]));
        [reflexivity|lia|reflexivity|reflexivity|cbn; lia]. }
    destruct (Hus false 101 alice 1 5 (mkReviewData (Some 5) None)
                  (run_ops 1 100 [Submit alice 3] catalogue)
                  (Review.mk 1 7 3 1 true 100 100 0))
      as (rev & Hok & Hr & _);
      [reflexivity|lia|reflexivity|reflexivity|].
    exists rev. auto.
Defined.

(** ** Outcomes of the writing views *)

(** A submission either fails, and then the database is exactly as it
    was, or it succeeds, and then: the title exists and the user had no
    review on it; the stored review has the next key, the requester as
    owner, the submitted rating, both time stamps at the clock reading
    and no helpful vote; it is appended to the review table; and of the
    title table only the rows with key [pk] are rewritten, with the count
    raised by one and every column but the aggregate kept. *)
Lemma ReviewCreate_post_cases (now : Z) (user : User) (pk : Z)
    (data : ReviewData) (db : DB) :
  match fst (ReviewCreate_post now user pk data db) with
  | Raise _ => snd (ReviewCreate_post now user pk data db) = db
  | Ok rev =>
    exists w w',
      lookup_watchlist db pk = Some w
      /\ has_review db user pk = false
      /\ data_rating data = Some (Review.rating rev)
      /\ rev = Review.mk (next_review_id db) (user_id user) (Review.rating rev)
                         pk (or_default (data_active data) true) now now 0
      /\ reviews (snd (ReviewCreate_post now user pk data db))
         = reviews db ++ [rev]
      /\ next_review_id (snd (ReviewCreate_post now user pk data db))
         = next_review_id db + 1
      /\ watchlists (snd (ReviewCreate_post now user pk data db))
         = map (fun x => if WatchList.id x =? pk then w' else x)
               (watchlists db)
      /\ w' = WatchList.mk (WatchList.id w) (WatchList.platform w)
                           (WatchList.active w) (WatchList.avg_rating w')
                           (WatchList.number_rating w + 1)
                           (WatchList.created w) (WatchList.genres w)
      /\ platforms (snd (ReviewCreate_post now user pk data db))
         = platforms db
      /\ genre_table (snd (ReviewCreate_post now user pk data db))
         = genre_table db
      /\ next_watchlist_id (snd (ReviewCreate_post now user pk data db))
         = next_watchlist_id db
  end.
Proof.
  unfold ReviewCreate_post, bind, ReviewSerializer_is_valid.
  destruct (data_rating data) as [r|] eqn:Hr; cbn; [|reflexivity].
  destruct (rating_in_range r); cbn; [|reflexivity]. rewrite Hr.
  unfold perform_create, bind, WatchList_get.
  destruct (find _ (watchlists db)) as [w|] eqn:Hw; cbn; [|reflexivity].
  pose proof (find_watchlist_id _ _ _ Hw) as Hid. rewrite Hid.
  destruct (filter _ (reviews db)) eqn:Hf; cbn; [|reflexivity].
  apply filter_nil_existsb in Hf.
  assert (Hok : forall avg,
    exists w0 w',
      lookup_watchlist db pk = Some w0
      /\ has_review db user pk = false
      /\ Some r = Some r
      /\ Review.mk (next_review_id db) (user_id user) r pk
                   match data_active data with
                   | Some a => a
                   | None => true
                   end now now 0
         = Review.mk (next_review_id db) (user_id user) r pk
                     (or_default (data_active data) true) now now 0
      /\ reviews db ++ [Review.mk (next_review_id db) (user_id user) r pk
                          match data_active data with
                          | Some a => a
                          | None => true
                          end now now 0]
         = reviews db ++ [Review.mk (next_review_id db) (user_id user) r pk
                            match data_active data with
                            | Some a => a
                            | None => true
                            end now now 0]
      /\ next_review_id db + 1 = next_review_id db + 1
      /\ map (fun x => if WatchList.id x =? pk
                       then WatchList.mk pk (WatchList.platform w)
                              (WatchList.active w) avg
                              (WatchList.number_rating w + 1)
                              (WatchList.created w) (WatchList.genres w)
                       else x) (watchlists db)
         = map (fun x => if WatchList.id x =? pk then w' else x)
               (watchlists db)
      /\ w' = WatchList.mk (WatchList.id w0) (WatchList.platform w0)
                           (WatchList.active w0) (WatchList.avg_rating w')
                           (WatchList.number_rating w0 + 1)
                           (WatchList.created w0) (WatchList.genres w0)
      /\ platforms db = platforms db
      /\ genre_table db = genre_table db
      /\ next_watchlist_id db = next_watchlist_id db).
  { intros avg. exists w. eexists. split; [exact Hw|].
    split; [exact Hf|]. split; [reflexivity|]. split; [reflexivity|].
    split; [reflexivity|]. split; [reflexivity|]. split; [reflexivity|].
    split; [now rewrite Hid|]. auto. }
  unfold raise, WatchList_save.
  destruct (WatchList.number_rating w =? 0); cbn.
  - destruct (fits_integer_field _); cbn; [apply Hok|reflexivity].
  - destruct (WatchList.number_rating w + 1 =? 0); cbn; [reflexivity|].
    destruct (fits_integer_field _); cbn; [apply Hok|reflexivity].
Qed.

Lemma ReviewDetail_update_cases (partial : bool) (now : Z) (user : User)
    (pk : Z) (data : ReviewData) (db : DB) :
  match fst (ReviewDetail_update partial now user pk data db) with
  | Raise _ => snd (ReviewDetail_update partial now user pk data db) = db
  | Ok rev' =>
    exists rev,
      lookup_review db pk = Some rev
      /\ Review.review_user rev = user_id user
      /\ rev' = Review.mk (Review.id rev) (Review.review_user rev)
                          (or_default (data_rating data) (Review.rating rev))
                          (Review.watchlist rev)
                          (or_default (data_active data) (Review.active rev))
                          (Review.created rev) now (Review.helpful_count rev)
      /\ snd (ReviewDetail_update partial now user pk data db)
         = set_reviews
             (map (fun x => if Review.id x =? pk then rev' else x)
                  (reviews db)) db
  end.
Proof.
  unfold ReviewDetail_update, ReviewDetail_get_object, try_except.
  unfold Review_get, lookup_review, bind. cbv beta.
  destruct (find _ (reviews db)) as [rev|] eqn:Hfind; cbn; [|reflexivity].
  unfold IsReviewUserOrReadOnly.
  destruct (Review.review_user rev =? user_id user) eqn:Hown; cbn;
    [|reflexivity].
  apply Z.eqb_eq in Hown.
  pose proof (find_review_id _ _ _ Hfind) as Hid.
  unfold ReviewSerializer_is_valid.
  destruct (data_rating data) as [r|] eqn:Hr.
  - destruct (rating_in_range r); cbn; [|reflexivity]. rewrite ?Hr.
    exists rev. rewrite Hid. auto.
  - destruct partial; cbn; [|reflexivity]. rewrite ?Hr.
    exists rev. rewrite Hid. auto.
Qed.

Lemma ReviewDetail_delete_cases (user : User) (pk : Z) (db : DB) :
  match fst (ReviewDetail_delete user pk db) with
  | Raise _ => snd (ReviewDetail_delete user pk db) = db
  | Ok _ =>
    exists rev,
      lookup_review db pk = Some rev
      /\ Review.review_user rev = user_id user
      /\ snd (ReviewDetail_delete user pk db)
         = set_reviews
             (filter (fun x => negb (Review.id x =? pk)) (reviews db)) db
  end.
Proof.
  unfold ReviewDetail_delete, ReviewDetail_get_object, try_except.
  unfold Review_get, lookup_review, bind. cbv beta.
  destruct (find _ (reviews db)) as [rev|] eqn:Hfind; cbn; [|reflexivity].
  unfold IsReviewUserOrReadOnly.
  destruct (Review.review_user rev =? user_id user) eqn:Hown; cbn;
    [|reflexivity].
  apply Z.eqb_eq in Hown.
  rewrite (find_review_id _ _ _ Hfind). exists rev. auto.
Qed.

Lemma ReviewHelpfulView_post_cases (now pk : Z) (db : DB) :
  match lookup_review db pk with
  | None => ReviewHelpfulView_post now pk db = (Raise NotFound, db)
  | Some r =>
    ReviewHelpfulView_post now pk db
    = (Ok (Review.helpful_count r + 1),
       set_reviews
         (map (fun x => if Review.id x =? pk then voted now r else x)
              (reviews db))
         db)
  end.
Proof.
  unfold ReviewHelpfulView_post, try_except, bind, Review_get, lookup_review.
  destruct (find _ _) as [r|] eqn:Hfind; cbn; [|reflexivity].
  unfold voted. now rewrite (find_review_id _ _ _ Hfind).
Qed.

Lemma WatchListSerializer_is_valid_db (data : WatchListData) (db : DB) :
  snd (WatchListSerializer_is_valid data db) = db
  /\ match fst (WatchListSerializer_is_valid data db) with
     | Ok vd =>
       vd = data
       /\ exists p gs,
           data_platform_id data = Some p /\ data_genre_ids data = Some gs
           /\ In p (platforms db)
           /\ Forall (fun g => In g (genre_table db)) gs
     | Raise _ => True
     end.
Proof.
  unfold WatchListSerializer_is_valid.
  destruct (data_platform_id data) as [p|]; [|now split].
  destruct (data_genre_ids data) as [gs|]; [|now split].
  destruct (mem p (platforms db) && _ && _) eqn:Hv; cbn; [|now split].
  split; [reflexivity|]. split; [reflexivity|].
  apply andb_true_iff in Hv as [Hv _].
  apply andb_true_iff in Hv as [Hp Hg].
  exists p, gs. split; [reflexivity|]. split; [reflexivity|].
  split.
  - unfold mem in Hp. apply existsb_exists in Hp as (x & Hx & Heq).
    apply Z.eqb_eq in Heq. now subst.
  - apply Forall_forall. intros g Hin.
    rewrite forallb_forall in Hg. specialize (Hg g Hin).
    unfold mem in Hg. apply existsb_exists in Hg as (x & Hx & Heq).
    apply Z.eqb_eq in Heq. now subst.
Qed.

Lemma WatchDetailAV_put_cases (user : User) (pk : Z) (data : WatchListData)
    (db : DB) :
  match fst (WatchDetailAV_put user pk data db) with
  | Raise _ => snd (WatchDetailAV_put user pk data db) = db
  | Ok movie' =>
    exists movie,
      is_staff user = true
      /\ lookup_watchlist db pk = Some movie
      /\ movie' = WatchList.mk
                    (WatchList.id movie)
                    (or_default (data_platform_id data)
                                (WatchList.platform movie))
                    (or_default (data_w_active data) (WatchList.active movie))
                    (or_default (data_avg_rating data)
                                (WatchList.avg_rating movie))
                    (or_default (data_number_rating data)
                                (WatchList.number_rating movie))
                    (WatchList.created movie)
                    (or_default (option_map genres_set (data_genre_ids data))
                                (WatchList.genres movie))
      /\ snd (WatchDetailAV_put user pk data db)
         = set_watchlists
             (map (fun x => if WatchList.id x =? pk then movie' else x)
                  (watchlists db)) db
  end.
Proof.
  unfold WatchDetailAV_put, IsAdminOrReadOnly.
  destruct (is_staff user) eqn:Hstaff; cbn; [|reflexivity].
  unfold bind, WatchList_get, lookup_watchlist.
  destruct (find _ (watchlists db)) as [movie|] eqn:Hfind; cbn;
    [|reflexivity].
  destruct (WatchListSerializer_is_valid_db data db) as [Hdb Hvd].
  destruct (WatchListSerializer_is_valid data db) as [[vd|e] db1];
    cbn in Hdb, Hvd; subst db1; cbn; [|reflexivity].
  destruct Hvd as [-> _].
  rewrite (find_watchlist_id _ _ _ Hfind). exists movie.
  rewrite (find_watchlist_id _ _ _ Hfind). auto.
Qed.

Lemma WatchListAV_post_cases (now : Z) (user : User) (data : WatchListData)
    (db : DB) :
  match fst (WatchListAV_post now user data db) with
  | Raise _ => snd (WatchListAV_post now user data db) = db
  | Ok w =>
    is_staff user = true
    /\ w = WatchList.mk (next_watchlist_id db)
                        (or_default (data_platform_id data) 0)
                        (or_default (data_w_active data) true)
                        (or_default (data_avg_rating data) 0%Q)
                        (or_default (data_number_rating data) 0)
                        now
                        (genres_set (or_default (data_genre_ids data) []))
    /\ (exists p gs,
           data_platform_id data = Some p /\ data_genre_ids data = Some gs
           /\ In p (platforms db)
           /\ Forall (fun g => In g (genre_table db)) gs)
    /\ snd (WatchListAV_post now user data db)
       = mkDB (watchlists db ++ [w]) (reviews db) (platforms db)
              (genre_table db) (next_watchlist_id db + 1) (next_review_id db)
  end.
Proof.
  unfold WatchListAV_post, IsAdminOrReadOnly.
  destruct (is_staff user) eqn:Hstaff; cbn; [|reflexivity].
  unfold bind.
  destruct (WatchListSerializer_is_valid_db data db) as [Hdb Hvd].
  destruct (WatchListSerializer_is_valid data db) as [[vd|e] db1];
    cbn in Hdb, Hvd; subst db1; cbn; [|reflexivity].
  destruct Hvd as [-> Hex]. auto.
Qed.

Lemma WatchDetailAV_delete_cases (user : User) (pk : Z) (db : DB) :
  match fst (WatchDetailAV_delete user pk db) with
  | Raise _ => snd (WatchDetailAV_delete user pk db) = db
  | Ok _ =>
    exists movie,
      is_staff user = true
      /\ lookup_watchlist db pk = Some movie
      /\ snd (WatchDetailAV_delete user pk db)
         = mkDB (filter (fun w => negb (WatchList.id w =? pk)) (watchlists db))
                (filter (fun r => negb (Review.watchlist r =? pk))
                        (reviews db))
                (platforms db) (genre_table db)
                (next_watchlist_id db) (next_review_id db)
  end.
Proof.
  unfold WatchDetailAV_delete, IsAdminOrReadOnly.
  destruct (is_staff user) eqn:Hstaff; cbn; [|reflexivity].
  unfold bind, WatchList_get, lookup_watchlist.
  destruct (find _ (watchlists db)) as [movie|] eqn:Hfind; cbn;
    [|reflexivity].
  rewrite (find_watchlist_id _ _ _ Hfind). exists movie. auto.
Qed.

(** ** Rows replaced, removed and appended *)

Section TableFacts.
Context {A B : Type}.
Variable f : A -> B.

Lemma NoDup_map_filter (p : A -> bool) (l : list A) :
  NoDup (map f l) -> NoDup (map f (filter p l)).
Proof.
  induction l as [|x l IH]; cbn; [auto|].
  intros H. inversion H as [|? ? Hx Hl]; subst.
  destruct (p x); cbn; [|auto].
  constructor; [|auto].
  rewrite in_map_iff. intros (y & Hy & Hin). apply filter_In in Hin as [Hin _].
  apply Hx. rewrite <- Hy. now apply in_map.
Qed.

Lemma NoDup_map_inj (l : list A) (x y : A) :
  NoDup (map f l) -> In x l -> In y l -> f x = f y -> x = y.
Proof.
  induction l as [|a l IH]; cbn; [tauto|].
  intros H. inversion H as [|? ? Ha Hl]; subst.
  intros [->|Hx] [->|Hy] Hf.
  - reflexivity.
  - exfalso. apply Ha. rewrite Hf. now apply in_map.
  - exfalso. apply Ha. rewrite <- Hf. now apply in_map.
  - now apply IH.
Qed.

Lemma map_replace_same (p : A -> bool) (new : A) (l : list A) :
  (forall x, In x l -> p x = true -> f new = f x) ->
  map f (map (fun x => if p x then new else x) l) = map f l.
Proof.
  intros H. rewrite map_map. apply map_ext_in. intros x Hx.
  destruct (p x) eqn:Hp; [now apply H|reflexivity].
Qed.

Lemma NoDup_map_snoc (l : list A) (x : A) :
  NoDup (map f l) -> ~ In (f x) (map f l) -> NoDup (map f (l ++ [x])).
Proof.
  intros Hl Hx. rewrite map_app. cbn.
  apply (Permutation_NoDup (l := f x :: map f l)).
  - change (f x :: map f l) with ([f x] ++ map f l).
    apply Permutation_app_comm.
  - now constructor.
Qed.
End TableFacts.

Lemma Forall_replace {A : Type} (P : A -> Prop) (p : A -> bool) (new : A)
    (l : list A) :
  Forall P l -> P new -> Forall P (map (fun x => if p x then new else x) l).
Proof.
  intros Hl Hnew. apply Forall_forall. intros y Hy.
  apply in_map_iff in Hy as (x & <- & Hx).
  destruct (p x); [exact Hnew|]. rewrite Forall_forall in Hl. now apply Hl.
Qed.

Lemma Forall_filter_keep {A : Type} (P : A -> Prop) (p : A -> bool)
    (l : list A) :
  Forall P l -> Forall P (filter p l).
Proof.
  rewrite !Forall_forall. intros H x Hx. apply filter_In in Hx as [Hx _].
  now apply H.
Qed.

Lemma lookup_review_In (db : DB) (pk : Z) (r : Review.t) :
  lookup_review db pk = Some r -> In r (reviews db) /\ Review.id r = pk.
Proof.
  unfold lookup_review. intros H. split.
  - now apply find_some in H.
  - now apply find_review_id in H.
Qed.

Lemma lookup_watchlist_In (db : DB) (pk : Z) (w : WatchList.t) :
  lookup_watchlist db pk = Some w -> In w (watchlists db) /\ WatchList.id w = pk.
Proof.
  unfold lookup_watchlist. intros H. split.
  - now apply find_some in H.
  - now apply find_watchlist_id in H.
Qed.

Lemma has_review_false (db : DB) (user : User) (pk : Z) :
  has_review db user pk = false ->
  ~ In (user_id user, pk) (map review_key (reviews db)).
Proof.
  unfold has_review. intros H Hin.
  apply in_map_iff in Hin as (r & Hkey & Hr).
  unfold review_key in Hkey. inversion Hkey as [[Hu Hw]].
  assert (Hex : existsb (fun r => (Review.watchlist r =? pk)
                                  && (Review.review_user r =? user_id user))
                        (reviews db) = true).
  { apply existsb_exists. exists r. split; [exact Hr|].
    now rewrite Hu, Hw, !Z.eqb_refl. }
  congruence.
Qed.

(** ** The review table stays well formed *)

Lemma ledger_ok_replace (db : DB) (pk : Z) (rev rev' : Review.t) :
  ledger_ok db ->
  lookup_review db pk = Some rev ->
  Review.id rev' = Review.id rev ->
  review_key rev' = review_key rev ->
  ledger_ok (set_reviews
               (map (fun x => if Review.id x =? pk then rev' else x)
                    (reviews db)) db).
Proof.
  intros (Hids & Hnext & Hkeys) Hfind Hid Hkey.
  apply lookup_review_In in Hfind as [Hin Hpk].
  unfold ledger_ok. cbn.
  assert (Hsame : map Review.id
                    (map (fun x => if Review.id x =? pk then rev' else x)
                         (reviews db))
                  = map Review.id (reviews db)).
  { apply map_replace_same. intros x _ Hx. apply Z.eqb_eq in Hx. congruence. }
  split; [now rewrite Hsame|]. split.
  - apply Forall_replace; [exact Hnext|].
    rewrite Forall_forall in Hnext. rewrite Hid. now apply Hnext.
  - rewrite map_replace_same; [exact Hkeys|].
    intros x Hx Hxpk. apply Z.eqb_eq in Hxpk. rewrite Hkey. f_equal.
    apply (NoDup_map_inj Review.id (reviews db)); auto. congruence.
Qed.

Lemma ledger_ok_filter (db : DB) (p : Review.t -> bool) :
  ledger_ok db -> ledger_ok (set_reviews (filter p (reviews db)) db).
Proof.
  intros (Hids & Hnext & Hkeys). unfold ledger_ok. cbn.
  split; [now apply NoDup_map_filter|].
  split; [now apply Forall_filter_keep|now apply NoDup_map_filter].
Qed.

Lemma ledger_ok_same_reviews (db db' : DB) :
  reviews db' = reviews db -> next_review_id db' = next_review_id db ->
  ledger_ok db -> ledger_ok db'.
Proof. unfold ledger_ok. intros -> ->. auto. Qed.

Lemma ReviewCreate_keeps_ledger (now : Z) (user : User) (pk : Z)
    (data : ReviewData) (db : DB) :
  ledger_ok db -> ledger_ok (snd (ReviewCreate_post now user pk data db)).
Proof.
  intros Hok. pose proof (ReviewCreate_post_cases now user pk data db) as H.
  destruct (fst (ReviewCreate_post now user pk data db)) as [rev|e];
    [|now rewrite H].
  destruct H as (w & w' & _ & Hnone & _ & Hrev & Hrs & Hnext & _).
  destruct Hok as (Hids & Hlt & Hkeys).
  unfold ledger_ok. rewrite Hrs, Hnext.
  assert (Hid : Review.id rev = next_review_id db) by (now rewrite Hrev).
  assert (Hkey : review_key rev = (user_id user, pk)) by (now rewrite Hrev).
  split; [|split].
  - apply NoDup_map_snoc; [exact Hids|].
    rewrite in_map_iff. intros (x & Hx & Hin).
    rewrite Forall_forall in Hlt. specialize (Hlt x Hin). lia.
  - apply Forall_app. split.
    + eapply Forall_impl; [|exact Hlt]. cbn. intros; lia.
    + constructor; [lia|constructor].
  - apply NoDup_map_snoc; [exact Hkeys|].
    rewrite Hkey. now apply has_review_false.
Qed.

Lemma ReviewDetail_update_keeps_ledger (partial : bool) (now : Z)
    (user : User) (pk : Z) (data : ReviewData) (db : DB) :
  ledger_ok db ->
  ledger_ok (snd (ReviewDetail_update partial now user pk data db)).
Proof.
  intros Hok.
  pose proof (ReviewDetail_update_cases partial now user pk data db) as H.
  destruct (fst (ReviewDetail_update partial now user pk data db))
    as [rev'|e]; [|now rewrite H].
  destruct H as (rev & Hfind & _ & Hrev' & ->).
  apply ledger_ok_replace with (rev := rev); auto; now rewrite Hrev'.
Qed.

Lemma ReviewDetail_delete_keeps_ledger (user : User) (pk : Z) (db : DB) :
  ledger_ok db -> ledger_ok (snd (ReviewDetail_delete user pk db)).
Proof.
  intros Hok. pose proof (ReviewDetail_delete_cases user pk db) as H.
  destruct (fst (ReviewDetail_delete user pk db)); [|now rewrite H].
  destruct H as (rev & _ & _ & ->). now apply ledger_ok_filter.
Qed.

Lemma ReviewHelpfulView_keeps_ledger (now pk : Z) (db : DB) :
  ledger_ok db -> ledger_ok (snd (ReviewHelpfulView_post now pk db)).
Proof.
  intros Hok. pose proof (ReviewHelpfulView_post_cases now pk db) as H.
  destruct (lookup_review db pk) as [r|] eqn:Hfind; rewrite H; [|exact Hok].
  now apply ledger_ok_replace with (rev := r).
Qed.

Lemma run_ops_keeps_ledger (item now : Z) (ops : list ReviewOp) (db : DB) :
  ledger_ok db -> ledger_ok (run_ops item now ops db).
Proof.
  revert now db. induction ops as [|op ops IH]; intros now db Hok; cbn;
    [exact Hok|].
  apply IH. destruct op; cbn.
  - now apply ReviewCreate_keeps_ledger.
  - now apply ReviewDetail_update_keeps_ledger.
  - now apply ReviewDetail_delete_keeps_ledger.
Qed.

Lemma WatchDetailAV_put_keeps_ledger (user : User) (pk : Z)
    (data : WatchListData) (db : DB) :
  ledger_ok db -> ledger_ok (snd (WatchDetailAV_put user pk data db)).
Proof.
  intros Hok. pose proof (WatchDetailAV_put_cases user pk data db) as H.
  destruct (fst (WatchDetailAV_put user pk data db)); [|now rewrite H].
  destruct H as (movie & _ & _ & _ & ->). exact Hok.
Qed.

Lemma WatchListAV_post_keeps_ledger (now : Z) (user : User)
    (data : WatchListData) (db : DB) :
  ledger_ok db -> ledger_ok (snd (WatchListAV_post now user data db)).
Proof.
  intros Hok. pose proof (WatchListAV_post_cases now user data db) as H.
  destruct (fst (WatchListAV_post now user data db)); [|now rewrite H].
  destruct H as (_ & _ & _ & ->). exact Hok.
Qed.

Lemma WatchDetailAV_delete_keeps_ledger (user : User) (pk : Z) (db : DB) :
  ledger_ok db -> ledger_ok (snd (WatchDetailAV_delete user pk db)).
Proof.
  intros Hok. pose proof (WatchDetailAV_delete_cases user pk db) as H.
  destruct (fst (WatchDetailAV_delete user pk db)); [|now rewrite H].
  destruct H as (movie & _ & _ & ->).
  apply (ledger_ok_filter db (fun r => negb (Review.watchlist r =? pk))) in Hok.
  exact Hok.
Qed.

(** ** The title table stays well formed *)

Lemma catalogue_ok_replace (db : DB) (pk : Z) (w' : WatchList.t) :
  catalogue_ok db -> WatchList.id w' = pk ->
  catalogue_ok (set_watchlists
                  (map (fun x => if WatchList.id x =? pk then w' else x)
                       (watchlists db)) db).
Proof.
  intros [Hids Hnext] Hid. unfold catalogue_ok. cbn.
  assert (Hsame : map WatchList.id
                    (map (fun x => if WatchList.id x =? pk then w' else x)
                         (watchlists db))
                  = map WatchList.id (watchlists db)).
  { apply map_replace_same. intros x _ Hx. apply Z.eqb_eq in Hx. congruence. }
  split; [now rewrite Hsame|].
  apply Forall_forall. intros y Hy.
  apply in_map_iff in Hy as (x & <- & Hx).
  rewrite Forall_forall in Hnext. specialize (Hnext x Hx).
  destruct (WatchList.id x =? pk) eqn:Hxpk; [|exact Hnext].
  apply Z.eqb_eq in Hxpk. congruence.
Qed.

Lemma catalogue_ok_same_titles (db db' : DB) :
  watchlists db' = watchlists db ->
  next_watchlist_id db' = next_watchlist_id db ->
  catalogue_ok db -> catalogue_ok db'.
Proof. unfold catalogue_ok. intros -> ->. auto. Qed.

Lemma ReviewCreate_keeps_catalogue (now : Z) (user : User) (pk : Z)
    (data : ReviewData) (db : DB) :
  catalogue_ok db -> catalogue_ok (snd (ReviewCreate_post now user pk data db)).
Proof.
  intros Hok. pose proof (ReviewCreate_post_cases now user pk data db) as H.
  destruct (fst (ReviewCreate_post now user pk data db)) as [rev|e];
    [|now rewrite H].
  destruct H as (w & w' & Hw & _ & _ & _ & _ & _ & Hws & Hw' & _ & _ & Hnext).
  apply lookup_watchlist_In in Hw as [_ Hid].
  pose proof (catalogue_ok_replace db pk w' Hok) as Hrep.
  unfold catalogue_ok in *. rewrite Hws, Hnext. apply Hrep.
  rewrite Hw'. exact Hid.
Qed.

Lemma ReviewDetail_update_keeps_catalogue (partial : bool) (now : Z)
    (user : User) (pk : Z) (data : ReviewData) (db : DB) :
  catalogue_ok db ->
  catalogue_ok (snd (ReviewDetail_update partial now user pk data db)).
Proof.
  intros Hok.
  pose proof (ReviewDetail_update_cases partial now user pk data db) as H.
  destruct (fst (ReviewDetail_update partial now user pk data db));
    [|now rewrite H].
  destruct H as (rev & _ & _ & _ & ->). exact Hok.
Qed.

Lemma ReviewDetail_delete_keeps_catalogue (user : User) (pk : Z) (db : DB) :
  catalogue_ok db -> catalogue_ok (snd (ReviewDetail_delete user pk db)).
Proof.
  intros Hok. pose proof (ReviewDetail_delete_cases user pk db) as H.
  destruct (fst (ReviewDetail_delete user pk db)); [|now rewrite H].
  destruct H as (rev & _ & _ & ->). exact Hok.
Qed.

Lemma ReviewHelpfulView_keeps_catalogue (now pk : Z) (db : DB) :
  catalogue_ok db -> catalogue_ok (snd (ReviewHelpfulView_post now pk db)).
Proof.
  intros Hok. pose proof (ReviewHelpfulView_post_cases now pk db) as H.
  destruct (lookup_review db pk); rewrite H; exact Hok.
Qed.

Lemma WatchDetailAV_put_keeps_catalogue (user : User) (pk : Z)
    (data : WatchListData) (db : DB) :
  catalogue_ok db -> catalogue_ok (snd (WatchDetailAV_put user pk data db)).
Proof.
  intros Hok. pose proof (WatchDetailAV_put_cases user pk data db) as H.
  destruct (fst (WatchDetailAV_put user pk data db)) as [movie'|];
    [|now rewrite H].
  destruct H as (movie & _ & Hfind & Hmovie' & ->).
  apply catalogue_ok_replace; [exact Hok|].
  apply lookup_watchlist_In in Hfind as [_ Hid]. now rewrite Hmovie'.
Qed.

Lemma WatchListAV_post_keeps_catalogue (now : Z) (user : User)
    (data : WatchListData) (db : DB) :
  catalogue_ok db -> catalogue_ok (snd (WatchListAV_post now user data db)).
Proof.
  intros [Hids Hlt]. pose proof (WatchListAV_post_cases now user data db) as H.
  destruct (fst (WatchListAV_post now user data db)) as [w|];
    [|now rewrite H].
  destruct H as (_ & Hw & _ & ->). unfold catalogue_ok. cbn.
  assert (Hid : WatchList.id w = next_watchlist_id db) by (now rewrite Hw).
  split.
  - apply NoDup_map_snoc; [exact Hids|].
    rewrite in_map_iff. intros (x & Hx & Hin).
    rewrite Forall_forall in Hlt. specialize (Hlt x Hin). lia.
  - apply Forall_app. split.
    + eapply Forall_impl; [|exact Hlt]. cbn. intros; lia.
    + constructor; [lia|constructor].
Qed.

Lemma WatchDetailAV_delete_keeps_catalogue (user : User) (pk : Z) (db : DB) :
  catalogue_ok db -> catalogue_ok (snd (WatchDetailAV_delete user pk db)).
Proof.
  intros [Hids Hlt]. pose proof (WatchDetailAV_delete_cases user pk db) as H.
  destruct (fst (WatchDetailAV_delete user pk db)); [|now rewrite H].
  destruct H as (movie & _ & _ & ->). unfold catalogue_ok. cbn.
  split; [now apply NoDup_map_filter|now apply Forall_filter_keep].
Qed.

(** ** Reviews keep referring to stored titles *)

Lemma reviews_have_titles_same_keys (db db' : DB) :
  map WatchList.id (watchlists db') = map WatchList.id (watchlists db) ->
  reviews db' = reviews db ->
  reviews_have_titles db -> reviews_have_titles db'.
Proof. unfold reviews_have_titles. intros -> ->. auto. Qed.

Lemma ReviewCreate_keeps_titles (now : Z) (user : User) (pk : Z)
    (data : ReviewData) (db : DB) :
  reviews_have_titles db ->
  reviews_have_titles (snd (ReviewCreate_post now user pk data db)).
Proof.
  intros Hok. pose proof (ReviewCreate_post_cases now user pk data db) as H.
  destruct (fst (ReviewCreate_post now user pk data db)) as [rev|e];
    [|now rewrite H].
  destruct H as (w & w' & Hw & _ & _ & Hrev & Hrs & _ & Hws & Hw' & _).
  apply lookup_watchlist_In in Hw as [Hin Hid].
  unfold reviews_have_titles. rewrite Hrs, Hws.
  rewrite map_replace_same
    by (intros x _ Hx; apply Z.eqb_eq in Hx; rewrite Hw'; cbn; congruence).
  apply Forall_app. split; [exact Hok|].
  constructor; [|constructor].
  rewrite Hrev. cbn. rewrite <- Hid. now apply in_map.
Qed.

Lemma ReviewDetail_update_keeps_titles (partial : bool) (now : Z)
    (user : User) (pk : Z) (data : ReviewData) (db : DB) :
  reviews_have_titles db ->
  reviews_have_titles (snd (ReviewDetail_update partial now user pk data db)).
Proof.
  intros Hok.
  pose proof (ReviewDetail_update_cases partial now user pk data db) as H.
  destruct (fst (ReviewDetail_update partial now user pk data db))
    as [rev'|]; [|now rewrite H].
  destruct H as (rev & Hfind & _ & Hrev' & ->).
  apply lookup_review_In in Hfind as [Hin _].
  unfold reviews_have_titles in *. cbn.
  apply Forall_replace; [exact Hok|].
  rewrite Forall_forall in Hok. rewrite Hrev'. cbn. now apply Hok.
Qed.

Lemma ReviewDetail_delete_keeps_titles (user : User) (pk : Z) (db : DB) :
  reviews_have_titles db ->
  reviews_have_titles (snd (ReviewDetail_delete user pk db)).
Proof.
  intros Hok. pose proof (ReviewDetail_delete_cases user pk db) as H.
  destruct (fst (ReviewDetail_delete user pk db)); [|now rewrite H].
  destruct H as (rev & _ & _ & ->).
  unfold reviews_have_titles in *. cbn. now apply Forall_filter_keep.
Qed.

Lemma ReviewHelpfulView_keeps_titles (now pk : Z) (db : DB) :
  reviews_have_titles db ->
  reviews_have_titles (snd (ReviewHelpfulView_post now pk db)).
Proof.
  intros Hok. pose proof (ReviewHelpfulView_post_cases now pk db) as H.
  destruct (lookup_review db pk) as [r|] eqn:Hfind; rewrite H; [|exact Hok].
  apply lookup_review_In in Hfind as [Hin _].
  unfold reviews_have_titles in *. cbn.
  apply Forall_replace; [exact Hok|].
  rewrite Forall_forall in Hok. cbn. now apply Hok.
Qed.

Lemma WatchDetailAV_put_keeps_titles (user : User) (pk : Z)
    (data : WatchListData) (db : DB) :
  reviews_have_titles db ->
  reviews_have_titles (snd (WatchDetailAV_put user pk data db)).
Proof.
  intros Hok. pose proof (WatchDetailAV_put_cases user pk data db) as H.
  destruct (fst (WatchDetailAV_put user pk data db)) as [movie'|];
    [|now rewrite H].
  destruct H as (movie & _ & Hfind & Hmovie' & ->).
  apply lookup_watchlist_In in Hfind as [_ Hid].
  apply reviews_have_titles_same_keys with (db := db); auto. cbn.
  apply map_replace_same. intros x _ Hx. apply Z.eqb_eq in Hx.
  rewrite Hmovie'. cbn. congruence.
Qed.

Lemma WatchListAV_post_keeps_titles (now : Z) (user : User)
    (data : WatchListData) (db : DB) :
  reviews_have_titles db ->
  reviews_have_titles (snd (WatchListAV_post now user data db)).
Proof.
  intros Hok. pose proof (WatchListAV_post_cases now user data db) as H.
  destruct (fst (WatchListAV_post now user data db)) as [w|];
    [|now rewrite H].
  destruct H as (_ & _ & _ & ->). unfold reviews_have_titles in *. cbn.
  eapply Forall_impl; [|exact Hok]. cbn. intros r Hr.
  rewrite map_app. apply in_or_app. now left.
Qed.

Lemma WatchDetailAV_delete_keeps_titles (user : User) (pk : Z) (db : DB) :
  reviews_have_titles db ->
  reviews_have_titles (snd (WatchDetailAV_delete user pk db)).
Proof.
  intros Hok. pose proof (WatchDetailAV_delete_cases user pk db) as H.
  destruct (fst (WatchDetailAV_delete user pk db)); [|now rewrite H].
  destruct H as (movie & _ & _ & ->). unfold reviews_have_titles in *. cbn.
  apply Forall_forall. intros r Hr. apply filter_In in Hr as [Hr Hne].
  rewrite Forall_forall in Hok. specialize (Hok r Hr).
  apply in_map_iff in Hok as (w & Hid & Hw).
  apply in_map_iff. exists w. split; [exact Hid|].
  apply filter_In. split; [exact Hw|]. now rewrite Hid.
Qed.

(** ** Invariants of the served database *)

Ltac solve_table_ok :=
  cbn; repeat constructor; cbn; intuition (discriminate || lia).

Lemma serve_all_keeps (P : DB -> Prop) :
  (forall req db, P db -> P (serve req db)) ->
  forall reqs db, P db -> P (serve_all reqs db).
Proof.
  intros Hstep reqs. unfold serve_all.
  induction reqs as [|req reqs IH]; intros db Hdb; cbn; [exact Hdb|].
  apply IH. now apply Hstep.
Qed.

(** X1.  Served requests keep the review table well formed: whatever
    sequence of review and catalogue requests is served on a database
    whose reviews have unique keys below the next key and at most one
    review per user and title, the resulting database has the same
    properties; in particular two stored reviews of one user on one
    title are the same review. *)
Theorem one_review_per_user_and_title (reqs : list Request) (db : DB) :
  ledger_ok db ->
  ledger_ok (serve_all reqs db)
  /\ forall r1 r2,
      In r1 (reviews (serve_all reqs db)) ->
      In r2 (reviews (serve_all reqs db)) ->
      Review.review_user r1 = Review.review_user r2 ->
      Review.watchlist r1 = Review.watchlist r2 ->
      r1 = r2.
Proof.
  intros Hok.
  assert (Hall : ledger_ok (serve_all reqs db)).
  { apply serve_all_keeps; [|exact Hok]. clear. intros req db Hok.
    destruct req; cbn.
    - now apply ReviewCreate_keeps_ledger.
    - now apply ReviewDetail_update_keeps_ledger.
    - now apply ReviewDetail_update_keeps_ledger.
    - now apply ReviewDetail_delete_keeps_ledger.
    - now apply ReviewHelpfulView_keeps_ledger.
    - now apply WatchListAV_post_keeps_ledger.
    - now apply WatchDetailAV_put_keeps_ledger.
    - now apply WatchDetailAV_delete_keeps_ledger. }
  split; [exact Hall|].
  intros r1 r2 H1 H2 Hu Hw. destruct Hall as (_ & _ & Hkeys).
  apply (NoDup_map_inj review_key _ _ _ Hkeys H1 H2).
  unfold review_key. congruence.
Qed.

(** X2.  Served requests keep the title table well formed: keys stay
    unique and below the next key to hand out. *)
Theorem title_keys_stay_unique (reqs : list Request) (db : DB) :
  catalogue_ok db ->
  catalogue_ok (serve_all reqs db) /\ unique_pk (serve_all reqs db).
Proof.
  intros Hok.
  assert (Hall : catalogue_ok (serve_all reqs db)).
  { apply serve_all_keeps; [|exact Hok]. clear. intros req db Hok.
    destruct req; cbn.
    - now apply ReviewCreate_keeps_catalogue.
    - now apply ReviewDetail_update_keeps_catalogue.
    - now apply ReviewDetail_update_keeps_catalogue.
    - now apply ReviewDetail_delete_keeps_catalogue.
    - now apply ReviewHelpfulView_keeps_catalogue.
    - now apply WatchListAV_post_keeps_catalogue.
    - now apply WatchDetailAV_put_keeps_catalogue.
    - now apply WatchDetailAV_delete_keeps_catalogue. }
  split; [exact Hall|]. now destruct Hall.
Qed.

(** X3.  Served requests leave no review without its title: if every
    review refers to a stored title, this still holds after any
    sequence of requests, the removal of a title included, which takes
    the reviews of the title with it. *)
Theorem no_review_without_title (reqs : list Request) (db : DB) :
  reviews_have_titles db ->
  forall r, In r (reviews (serve_all reqs db)) ->
            lookup_watchlist (serve_all reqs db) (Review.watchlist r) <> None.
Proof.
  intros Hok.
  assert (Hall : reviews_have_titles (serve_all reqs db)).
  { apply serve_all_keeps; [|exact Hok]. clear. intros req db Hok.
    destruct req; cbn.
    - now apply ReviewCreate_keeps_titles.
    - now apply ReviewDetail_update_keeps_titles.
    - now apply ReviewDetail_update_keeps_titles.
    - now apply ReviewDetail_delete_keeps_titles.
    - now apply ReviewHelpfulView_keeps_titles.
    - now apply WatchListAV_post_keeps_titles.
    - now apply WatchDetailAV_put_keeps_titles.
    - now apply WatchDetailAV_delete_keeps_titles. }
  intros r Hr. unfold reviews_have_titles in Hall.
  rewrite Forall_forall in Hall. specialize (Hall r Hr).
  apply in_map_iff in Hall as (w & Hid & Hw).
  unfold lookup_watchlist. intros Hnone.
  apply (find_none _ _ Hnone) in Hw. rewrite Hid, Z.eqb_refl in Hw.
  discriminate Hw.
Qed.

(** ** Looking rows up by key after a write *)

Section KeyedTable.
Context {A : Type}.
Variable key : A -> Z.

Lemma find_replace_same (k : Z) (new : A) (l : list A) :
  key new = k ->
  find (fun x => key x =? k) l <> None ->
  find (fun x => key x =? k)
       (map (fun x => if key x =? k then new else x) l) = Some new.
Proof.
  intros Hnew. induction l as [|x l IH]; cbn; [congruence|].
  destruct (key x =? k) eqn:Hx; cbn.
  - intros _. now rewrite Hnew, Z.eqb_refl.
  - rewrite Hx. exact IH.
Qed.

Lemma find_replace_other (k k' : Z) (new : A) (l : list A) :
  key new = k -> k' <> k ->
  find (fun x => key x =? k')
       (map (fun x => if key x =? k then new else x) l)
  = find (fun x => key x =? k') l.
Proof.
  intros Hnew Hne. induction l as [|x l IH]; cbn; [reflexivity|].
  destruct (key x =? k) eqn:Hx; cbn.
  - apply Z.eqb_eq in Hx. rewrite Hnew, Hx.
    destruct (k =? k') eqn:Hk; [apply Z.eqb_eq in Hk; congruence|exact IH].
  - now rewrite IH.
Qed.

Lemma find_filter_removed (k : Z) (l : list A) :
  find (fun x => key x =? k) (filter (fun x => negb (key x =? k)) l) = None.
Proof.
  induction l as [|x l IH]; cbn; [reflexivity|].
  destruct (key x =? k) eqn:Hx; cbn; [exact IH|]. now rewrite Hx.
Qed.

Lemma find_filter_other (k k' : Z) (l : list A) :
  k' <> k ->
  find (fun x => key x =? k') (filter (fun x => negb (key x =? k)) l)
  = find (fun x => key x =? k') l.
Proof.
  intros Hne. induction l as [|x l IH]; cbn; [reflexivity|].
  destruct (key x =? k) eqn:Hx; cbn.
  - apply Z.eqb_eq in Hx.
    destruct (key x =? k') eqn:Hx'; [|exact IH].
    apply Z.eqb_eq in Hx'. congruence.
  - now rewrite IH.
Qed.

Lemma find_fresh_none (k : Z) (l : list A) :
  Forall (fun x => key x < k) l -> find (fun x => key x =? k) l = None.
Proof.
  induction 1 as [|x l Hx Hl IH]; cbn; [reflexivity|].
  destruct (key x =? k) eqn:Hk; [apply Z.eqb_eq in Hk; lia|exact IH].
Qed.

Lemma find_snoc (k : Z) (new : A) (l : list A) :
  find (fun x => key x =? k) (l ++ [new])
  = match find (fun x => key x =? k) l with
    | Some x => Some x
    | None => if key new =? k then Some new else None
    end.
Proof.
  induction l as [|x l IH]; cbn; [reflexivity|].
  now destruct (key x =? k).
Qed.
End KeyedTable.

Lemma order_by_In {A : Type} (before : A -> A -> bool) (l : list A) (x : A) :
  In x (order_by before l) <-> In x l.
Proof.
  split; apply Permutation_in.
  - apply order_by_perm.
  - apply Permutation_sym, order_by_perm.
Qed.

(** ** Submitting a review *)

(** X4.  A submission on a well-formed review table either fails and
    writes nothing, or stores a review that was not there before, can be
    fetched by its key, shows in the review list of the title and leaves
    every other title as it was; after it, a further submission of the
    same user on the same title with a valid rating fails with
    DuplicateReview. *)
Theorem ReviewCreate_post_round_trip (now : Z) (user : User) (pk : Z)
    (data : ReviewData) (db : DB) :
  ledger_ok db ->
  match fst (ReviewCreate_post now user pk data db) with
  | Raise _ => snd (ReviewCreate_post now user pk data db) = db
  | Ok rev =>
    let db' := snd (ReviewCreate_post now user pk data db) in
    lookup_review db (Review.id rev) = None
    /\ lookup_review db' (Review.id rev) = Some rev
    /\ In rev (ReviewList_get_queryset pk db')
    /\ Review.review_user rev = user_id user
    /\ (forall pk', pk' <> pk ->
                    lookup_watchlist db' pk' = lookup_watchlist db pk')
    /\ (forall now' r active_,
           rating_in_range r = true ->
           ReviewCreate_post now' user pk (mkReviewData (Some r) active_) db'
           = (Raise DuplicateReview, db'))
  end.
Proof.
  intros (Hids & Hlt & Hkeys).
  pose proof (ReviewCreate_post_cases now user pk data db) as H.
  destruct (fst (ReviewCreate_post now user pk data db)) as [rev|e];
    [|exact H].
  destruct H as (w & w' & Hw & Hnone & _ & Hrev & Hrs & _ & Hws & Hw' & _).
  cbv zeta.
  set (db' := snd (ReviewCreate_post now user pk data db)) in *.
  clearbody db'.
  assert (Hid : Review.id rev = next_review_id db) by (now rewrite Hrev).
  assert (Hold : lookup_review db (Review.id rev) = None).
  { unfold lookup_review. rewrite Hid.
    now apply (find_fresh_none Review.id). }
  assert (Hw'id : WatchList.id w' = pk).
  { rewrite Hw'. cbn. now apply lookup_watchlist_In in Hw. }
  split; [exact Hold|]. split; [|split; [|split; [|split]]].
  - unfold lookup_review in *. rewrite Hrs, (find_snoc Review.id), Hold.
    now rewrite Z.eqb_refl.
  - unfold ReviewList_get_queryset. apply order_by_In. apply filter_In.
    split.
    + rewrite Hrs. apply in_or_app. right. now left.
    + rewrite Hrev. cbn. apply Z.eqb_refl.
  - now rewrite Hrev.
  - intros pk' Hne. unfold lookup_watchlist. rewrite Hws.
    now apply (find_replace_other WatchList.id).
  - intros now' r active_ Hr.
    unfold ReviewCreate_post, bind, ReviewSerializer_is_valid. cbn.
    rewrite Hr. cbn. apply perform_create_duplicate.
    + unfold lookup_watchlist. rewrite Hws.
      rewrite (find_replace_same WatchList.id); [discriminate|exact Hw'id|].
      unfold lookup_watchlist in Hw. congruence.
    + unfold has_review. rewrite Hrs, existsb_app. cbn.
      rewrite Hrev. cbn. rewrite !Z.eqb_refl. cbn. apply orb_true_r.
Qed.

(** X5.  The division in [perform_create]: on a title whose stored count
    is -1, a submission that passes validation and the duplicate check
    raises ZeroDivisionError, and the database stays as it was. *)
Theorem ReviewCreate_post_zero_division (now : Z) (user : User) (pk r : Z)
    (data : ReviewData) (db : DB) (w : WatchList.t) :
  data_rating data = Some r -> rating_in_range r = true ->
  lookup_watchlist db pk = Some w ->
  has_review db user pk = false ->
  WatchList.number_rating w = -1 ->
  ReviewCreate_post now user pk data db = (Raise ZeroDivisionError, db).
Proof.
  intros Hr Hrange Hw Hnone Hcount.
  unfold ReviewCreate_post, bind, ReviewSerializer_is_valid.
  rewrite Hr, Hrange. cbn. rewrite Hr.
  unfold perform_create, bind, WatchList_get.
  unfold lookup_watchlist in Hw. rewrite Hw. cbn.
  rewrite (find_watchlist_id _ _ _ Hw).
  apply filter_nil_existsb in Hnone. unfold has_review in Hnone.
  rewrite Hnone, Hcount. reflexivity.
Qed.

(** ** Updating, removing and voting on a review *)

(** X6.  An update of a review answers NotFound for a key that is not
    stored and Forbidden for a requester who is not the owner, both
    without a write; by the owner it either fails validation without a
    write or rewrites that one review: key, owner, title, creation time
    and helpful count stay, [update] takes the clock reading, the review
    can be fetched under its key, and every other review and every title
    is as before. *)
Theorem ReviewDetail_update_behaviour (partial : bool) (now : Z)
    (user : User) (pk : Z) (data : ReviewData) (db : DB) :
  match lookup_review db pk with
  | None =>
    ReviewDetail_update partial now user pk data db = (Raise NotFound, db)
  | Some rev =>
    if Review.review_user rev =? user_id user then
      match fst (ReviewDetail_update partial now user pk data db) with
      | Raise e =>
        (e = InvalidRating \/ e = RequiredField)
        /\ snd (ReviewDetail_update partial now user pk data db) = db
      | Ok rev' =>
        let db' := snd (ReviewDetail_update partial now user pk data db) in
        Review.id rev' = Review.id rev
        /\ Review.review_user rev' = Review.review_user rev
        /\ Review.watchlist rev' = Review.watchlist rev
        /\ Review.created rev' = Review.created rev
        /\ Review.helpful_count rev' = Review.helpful_count rev
        /\ Review.update rev' = now
        /\ lookup_review db' pk = Some rev'
        /\ (forall pk', pk' <> pk ->
                        lookup_review db' pk' = lookup_review db pk')
        /\ watchlists db' = watchlists db
      end
    else
      ReviewDetail_update partial now user pk data db = (Raise Forbidden, db)
  end.
Proof.
  destruct (lookup_review db pk) as [rev|] eqn:Hfind.
  - destruct (Review.review_user rev =? user_id user) eqn:Hown.
    + pose proof (ReviewDetail_update_cases partial now user pk data db) as H.
      destruct (fst (ReviewDetail_update partial now user pk data db))
        as [rev'|e] eqn:Hfst.
      * destruct H as (rev0 & Hfind0 & _ & Hrev' & Hdb). cbv zeta.
        rewrite Hdb. rewrite Hfind in Hfind0. inversion Hfind0; subst rev0.
        assert (Hid : Review.id rev' = pk).
        { rewrite Hrev'. cbn. now apply lookup_review_In in Hfind. }
        rewrite Hrev' at 1 2 3 4 5 6. cbn.
        repeat (split; [reflexivity|]).
        unfold lookup_review in *. cbn. split; [|split; [|reflexivity]].
        -- apply (find_replace_same Review.id); [exact Hid|congruence].
        -- intros pk' Hne. now apply (find_replace_other Review.id).
      * split; [|exact H]. revert Hfst.
        unfold ReviewDetail_update, bind.
        apply Z.eqb_eq in Hown.
        rewrite (ReviewDetail_get_object_owner _ _ _ _ Hfind Hown).
        unfold ReviewSerializer_is_valid.
        destruct (data_rating data) as [r|].
        -- destruct (rating_in_range r); cbn; [discriminate|].
           intros [= <-]. now left.
        -- destruct partial; cbn; [discriminate|]. intros [= <-]. now right.
    + unfold ReviewDetail_update, ReviewDetail_get_object, try_except.
      unfold Review_get, bind. cbv beta. unfold lookup_review in Hfind.
      rewrite Hfind. cbn. unfold IsReviewUserOrReadOnly. now rewrite Hown.
  - unfold ReviewDetail_update, ReviewDetail_get_object, try_except.
    unfold Review_get, bind. cbv beta. unfold lookup_review in Hfind.
    now rewrite Hfind.
Qed.

Lemma filter_other_title (pk pk' : Z) (rs : list Review.t) :
  pk' <> pk ->
  filter (fun r => Review.watchlist r =? pk')
         (filter (fun r => negb (Review.watchlist r =? pk)) rs)
  = filter (fun r => Review.watchlist r =? pk') rs.
Proof.
  intros Hne. rewrite filter_filter_andb. apply filter_ext. intros r.
  destruct (Review.watchlist r =? pk) eqn:Hr; cbn.
  - apply Z.eqb_eq in Hr. symmetry. apply Z.eqb_neq. congruence.
  - reflexivity.
Qed.

(** X7.  A removal of a review answers NotFound for a key that is not
    stored and Forbidden for a requester who is not the owner, both
    without a write; by the owner it succeeds, the key is no longer
    stored, the review is gone from the review list of its title, and
    every other review and every title is as before. *)
Theorem ReviewDetail_delete_behaviour (user : User) (pk : Z) (db : DB) :
  match lookup_review db pk with
  | None => ReviewDetail_delete user pk db = (Raise NotFound, db)
  | Some rev =>
    if Review.review_user rev =? user_id user then
      let db' := snd (ReviewDetail_delete user pk db) in
      fst (ReviewDetail_delete user pk db) = Ok tt
      /\ lookup_review db' pk = None
      /\ ~ In rev (ReviewList_get_queryset (Review.watchlist rev) db')
      /\ (forall pk', pk' <> pk ->
                      lookup_review db' pk' = lookup_review db pk')
      /\ watchlists db' = watchlists db
    else ReviewDetail_delete user pk db = (Raise Forbidden, db)
  end.
Proof.
  destruct (lookup_review db pk) as [rev|] eqn:Hfind.
  - destruct (Review.review_user rev =? user_id user) eqn:Hown.
    + apply Z.eqb_eq in Hown. unfold ReviewDetail_delete, bind.
      rewrite (ReviewDetail_get_object_owner _ _ _ _ Hfind Hown).
      unfold Review_delete. cbn [fst snd]. cbv zeta.
      apply lookup_review_In in Hfind as [_ Hid]. rewrite Hid.
      split; [reflexivity|]. split; [|split; [|split; [|reflexivity]]].
      * apply (find_filter_removed Review.id).
      * intros Hin. unfold ReviewList_get_queryset in Hin.
        apply order_by_In in Hin. apply filter_In in Hin as [Hin _].
        cbn [reviews set_reviews] in Hin.
        apply filter_In in Hin as [_ Hne]. now rewrite Hid, Z.eqb_refl in Hne.
      * intros pk' Hne. now apply (find_filter_other Review.id).
    + unfold ReviewDetail_delete, ReviewDetail_get_object, try_except.
      unfold Review_get, bind. cbv beta. unfold lookup_review in Hfind.
      rewrite Hfind. cbn. unfold IsReviewUserOrReadOnly. now rewrite Hown.
  - unfold ReviewDetail_delete, ReviewDetail_get_object, try_except.
    unfold Review_get, bind. cbv beta. unfold lookup_review in Hfind.
    now rewrite Hfind.
Qed.

Lemma vote_lookup (now pk : Z) (db : DB) (r : Review.t) :
  lookup_review db pk = Some r ->
  lookup_review (snd (ReviewHelpfulView_post now pk db)) pk
  = Some (voted now r)
  /\ (forall pk', pk' <> pk ->
         lookup_review (snd (ReviewHelpfulView_post now pk db)) pk'
         = lookup_review db pk')
  /\ watchlists (snd (ReviewHelpfulView_post now pk db)) = watchlists db.
Proof.
  intros Hfind. pose proof (ReviewHelpfulView_post_cases now pk db) as H.
  rewrite Hfind in H. rewrite H. cbn. unfold lookup_review in *. cbn.
  split; [|split; [|reflexivity]].
  - apply (find_replace_same Review.id); [|congruence].
    cbn. now apply find_review_id in Hfind.
  - intros pk' Hne. apply (find_replace_other Review.id); [|exact Hne].
    cbn. now apply find_review_id in Hfind.
Qed.

(** X8.  Helpful votes add up: [n] votes on a stored review, cast one
    after the other by whomever, raise its helpful count by exactly [n]
    and leave its rating, owner, title, active flag and creation time,
    every other review and every title as they were. *)
Theorem votes_add_up (n : nat) (now pk : Z) (db : DB) (r : Review.t) :
  lookup_review db pk = Some r ->
  exists r',
    lookup_review (votes n now pk db) pk = Some r'
    /\ Review.helpful_count r' = Review.helpful_count r + Z.of_nat n
    /\ Review.rating r' = Review.rating r
    /\ Review.review_user r' = Review.review_user r
    /\ Review.watchlist r' = Review.watchlist r
    /\ Review.active r' = Review.active r
    /\ Review.created r' = Review.created r
    /\ (forall pk', pk' <> pk ->
           lookup_review (votes n now pk db) pk' = lookup_review db pk')
    /\ watchlists (votes n now pk db) = watchlists db.
Proof.
  revert now db r. induction n as [|n IH]; intros now db r Hfind.
  - exists r. cbn. rewrite Z.add_0_r. auto 10.
  - destruct (vote_lookup now pk db r Hfind) as (Hpk & Hother & Hws).
    destruct (IH (now + 1) _ _ Hpk)
      as (r' & Hr' & Hc & Hrat & Hu & Hw & Ha & Hcr & Hoth' & Hws').
    exists r'. cbn [votes]. split; [exact Hr'|].
    cbn in Hc, Hrat, Hu, Hw, Ha, Hcr.
    split; [lia|]. repeat (split; [assumption|]).
    split; [|congruence].
    intros pk' Hne. rewrite Hoth' by exact Hne. now apply Hother.
Qed.

(** ** Writing catalogue titles *)

Lemma WatchDetailAV_get_lookup (pk : Z) (db : DB) :
  WatchDetailAV_get pk db
  = match lookup_watchlist db pk with
    | Some w => (Ok w, db)
    | None => (Raise NotFound, db)
    end.
Proof.
  unfold WatchDetailAV_get, try_except, WatchList_get, lookup_watchlist.
  now destruct (find _ _).
Qed.

(** X9.  A PUT of a title by a requester who is not an administrator is
    Forbidden, and for a key that is not stored it raises DoesNotExist,
    both without a write; otherwise it either fails validation without a
    write or rewrites that one title: key and creation time stay, an
    aggregate field absent from the body stays, the stored platform and
    genres are rows of their tables, the title can be fetched under its
    key, and every other title and every review is as before. *)
Theorem WatchDetailAV_put_behaviour (user : User) (pk : Z)
    (data : WatchListData) (db : DB) :
  if is_staff user then
    match lookup_watchlist db pk with
    | None => WatchDetailAV_put user pk data db = (Raise DoesNotExist, db)
    | Some movie =>
      match fst (WatchDetailAV_put user pk data db) with
      | Raise e =>
        (e = RequiredField \/ e = InvalidData)
        /\ snd (WatchDetailAV_put user pk data db) = db
      | Ok movie' =>
        let db' := snd (WatchDetailAV_put user pk data db) in
        WatchList.id movie' = WatchList.id movie
        /\ WatchList.created movie' = WatchList.created movie
        /\ (data_avg_rating data = None ->
            WatchList.avg_rating movie' = WatchList.avg_rating movie)
        /\ (data_number_rating data = None ->
            WatchList.number_rating movie' = WatchList.number_rating movie)
        /\ In (WatchList.platform movie') (platforms db)
        /\ Forall (fun g => In g (genre_table db)) (WatchList.genres movie')
        /\ WatchDetailAV_get pk db' = (Ok movie', db')
        /\ (forall pk', pk' <> pk ->
                        lookup_watchlist db' pk' = lookup_watchlist db pk')
        /\ reviews db' = reviews db
      end
    end
  else WatchDetailAV_put user pk data db = (Raise Forbidden, db).
Proof.
  destruct (is_staff user) eqn:Hstaff;
    [|unfold WatchDetailAV_put, IsAdminOrReadOnly; now rewrite Hstaff].
  destruct (lookup_watchlist db pk) as [movie|] eqn:Hfind.
  - pose proof (WatchDetailAV_put_cases user pk data db) as H.
    destruct (fst (WatchDetailAV_put user pk data db)) as [movie'|e] eqn:Hfst.
    + destruct H as (movie0 & _ & Hfind0 & Hmovie' & Hdb). cbv zeta.
      rewrite Hdb. rewrite Hfind in Hfind0. inversion Hfind0; subst movie0.
      assert (Hvalid : exists p gs,
                 data_platform_id data = Some p
                 /\ data_genre_ids data = Some gs
                 /\ In p (platforms db)
                 /\ Forall (fun g => In g (genre_table db)) gs).
      { revert Hfst.
        unfold WatchDetailAV_put, IsAdminOrReadOnly, bind, WatchList_get.
        rewrite Hstaff. unfold lookup_watchlist in Hfind. rewrite Hfind.
        destruct (WatchListSerializer_is_valid_db data db) as [Hdb' Hvd].
        destruct (WatchListSerializer_is_valid data db) as [[vd|e] db1];
          cbn in Hdb', Hvd; [|discriminate]. intros _. now destruct Hvd. }
      destruct Hvalid as (p & gs & Hp & Hgs & Hpin & Hgin).
      assert (Hid : WatchList.id movie' = pk).
      { rewrite Hmovie'. cbn. now apply lookup_watchlist_In in Hfind. }
      rewrite Hmovie' at 1 2 3 4 5 6. cbn. rewrite Hp, Hgs. cbn.
      split; [reflexivity|]. split; [reflexivity|].
      split; [now intros ->|]. split; [now intros ->|].
      split; [exact Hpin|].
      split.
      { unfold genres_set. apply Forall_forall. intros g Hg.
        apply nodup_In in Hg. rewrite Forall_forall in Hgin.
        now apply Hgin. }
      rewrite WatchDetailAV_get_lookup. unfold lookup_watchlist in *.
      cbn [watchlists set_watchlists reviews].
      split; [|split; [|reflexivity]].
      * rewrite (find_replace_same WatchList.id); [reflexivity|exact Hid|].
        congruence.
      * intros pk' Hne. now apply (find_replace_other WatchList.id).
    + split; [|exact H]. revert Hfst.
      unfold WatchDetailAV_put, IsAdminOrReadOnly, bind, WatchList_get.
      rewrite Hstaff. unfold lookup_watchlist in Hfind. rewrite Hfind.
      unfold WatchListSerializer_is_valid.
      destruct (data_platform_id data); [|intros [= <-]; now left].
      destruct (data_genre_ids data); [|intros [= <-]; now left].
      destruct (_ && _ && _); [discriminate|]. intros [= <-]. now right.
  - unfold WatchDetailAV_put, IsAdminOrReadOnly, bind, WatchList_get.
    rewrite Hstaff. unfold lookup_watchlist in Hfind. now rewrite Hfind.
Qed.

(** X10.  A POST of a title on a well-formed title table is Forbidden
    for a requester who is not an administrator and otherwise either
    fails validation, in both cases without a write, or stores a new
    title: its key was not stored before, its creation time is the clock
    reading, aggregate fields and the active flag absent from the body
    take the model defaults (0, 0, true), the title can be fetched under
    its key, and every other title and every review is as before. *)
Theorem WatchListAV_post_behaviour (now : Z) (user : User)
    (data : WatchListData) (db : DB) :
  catalogue_ok db ->
  if is_staff user then
    match fst (WatchListAV_post now user data db) with
    | Raise e =>
      (e = RequiredField \/ e = InvalidData)
      /\ snd (WatchListAV_post now user data db) = db
    | Ok w =>
      let db' := snd (WatchListAV_post now user data db) in
      lookup_watchlist db (WatchList.id w) = None
      /\ WatchDetailAV_get (WatchList.id w) db' = (Ok w, db')
      /\ WatchList.created w = now
      /\ (data_avg_rating data = None -> WatchList.avg_rating w = 0%Q)
      /\ (data_number_rating data = None -> WatchList.number_rating w = 0)
      /\ (data_w_active data = None -> WatchList.active w = true)
      /\ (forall pk', pk' <> WatchList.id w ->
                      lookup_watchlist db' pk' = lookup_watchlist db pk')
      /\ reviews db' = reviews db
    end
  else WatchListAV_post now user data db = (Raise Forbidden, db).
Proof.
  intros [Hids Hlt].
  destruct (is_staff user) eqn:Hstaff;
    [|unfold WatchListAV_post, IsAdminOrReadOnly; now rewrite Hstaff].
  pose proof (WatchListAV_post_cases now user data db) as H.
  destruct (fst (WatchListAV_post now user data db)) as [w|e] eqn:Hfst.
  - destruct H as (_ & Hw & _ & Hdb). cbv zeta. rewrite Hdb.
    assert (Hid : WatchList.id w = next_watchlist_id db) by (now rewrite Hw).
    assert (Hold : lookup_watchlist db (WatchList.id w) = None).
    { unfold lookup_watchlist. rewrite Hid.
      now apply (find_fresh_none WatchList.id). }
    split; [exact Hold|]. rewrite WatchDetailAV_get_lookup.
    unfold lookup_watchlist in *. cbn [watchlists reviews].
    split; [|split; [|split; [|split; [|split; [|split]]]]].
    + rewrite (find_snoc WatchList.id), Hold. now rewrite Z.eqb_refl.
    + now rewrite Hw.
    + intros Hnone. rewrite Hw. cbn. now rewrite Hnone.
    + intros Hnone. rewrite Hw. cbn. now rewrite Hnone.
    + intros Hnone. rewrite Hw. cbn. now rewrite Hnone.
    + intros pk' Hne. rewrite (find_snoc WatchList.id).
      destruct (find (fun x => WatchList.id x =? pk') (watchlists db));
        [reflexivity|].
      destruct (WatchList.id w =? pk') eqn:Heq; [|reflexivity].
      apply Z.eqb_eq in Heq. congruence.
    + reflexivity.
  - split; [|exact H]. revert Hfst.
    unfold WatchListAV_post, IsAdminOrReadOnly, bind. rewrite Hstaff.
    unfold WatchListSerializer_is_valid.
    destruct (data_platform_id data); [|intros [= <-]; now left].
    destruct (data_genre_ids data); [|intros [= <-]; now left].
    destruct (_ && _ && _); [discriminate|]. intros [= <-]. now right.
Qed.

(** X11.  A DELETE of a title is Forbidden for a requester who is not an
    administrator and raises DoesNotExist for a key that is not stored,
    both without a write; otherwise it succeeds, the title can no longer
    be fetched, its review list is empty, and every other title and the
    reviews of every other title are as before. *)
Theorem WatchDetailAV_delete_behaviour (user : User) (pk : Z) (db : DB) :
  if is_staff user then
    match lookup_watchlist db pk with
    | None => WatchDetailAV_delete user pk db = (Raise DoesNotExist, db)
    | Some movie =>
      let db' := snd (WatchDetailAV_delete user pk db) in
      fst (WatchDetailAV_delete user pk db) = Ok tt
      /\ WatchDetailAV_get pk db' = (Raise NotFound, db')
      /\ ReviewList_get_queryset pk db' = []
      /\ (forall pk', pk' <> pk ->
             lookup_watchlist db' pk' = lookup_watchlist db pk'
             /\ reviews_of db' pk' = reviews_of db pk')
    end
  else WatchDetailAV_delete user pk db = (Raise Forbidden, db).
Proof.
  destruct (is_staff user) eqn:Hstaff;
    [|unfold WatchDetailAV_delete, IsAdminOrReadOnly; now rewrite Hstaff].
  unfold WatchDetailAV_delete, IsAdminOrReadOnly, bind, WatchList_get.
  rewrite Hstaff. unfold lookup_watchlist at 1.
  destruct (find _ (watchlists db)) as [movie|] eqn:Hfind; [|reflexivity].
  cbn [fst snd get_db put_db]. cbv zeta.
  rewrite (find_watchlist_id _ _ _ Hfind).
  split; [reflexivity|]. rewrite WatchDetailAV_get_lookup.
  unfold lookup_watchlist, ReviewList_get_queryset, reviews_of.
  cbn [watchlists reviews].
  split; [|split].
  - now rewrite (find_filter_removed WatchList.id).
  - rewrite filter_filter_andb.
    assert (Hnil : filter (fun x => negb (Review.watchlist x =? pk)
                                    && (Review.watchlist x =? pk))
                          (reviews db) = []).
    { apply filter_nil_existsb. apply not_true_is_false.
      rewrite existsb_exists. intros (r & _ & Hr).
      now destruct (Review.watchlist r =? pk). }
    now rewrite Hnil.
  - intros pk' Hne. split.
    + now apply (find_filter_other WatchList.id).
    + now apply filter_other_title.
Qed.

(** ** Popular, recent and listing views *)

Lemma popular_desc_spec (y x : WatchList.t) :
  popular_desc y x = true
  <-> (WatchList.avg_rating x < WatchList.avg_rating y)%Q
      \/ ((WatchList.avg_rating y == WatchList.avg_rating x)%Q
          /\ WatchList.number_rating x < WatchList.number_rating y).
Proof.
  unfold popular_desc.
  rewrite orb_true_iff, andb_true_iff, negb_true_iff, Qeq_bool_iff, Z.ltb_lt.
  assert (Hlt : Qle_bool (WatchList.avg_rating y) (WatchList.avg_rating x)
                = false
                <-> (WatchList.avg_rating x < WatchList.avg_rating y)%Q).
  { split.
    - intros H. apply Qnot_le_lt. intros Hle. apply Qle_bool_iff in Hle.
      congruence.
    - intros H. apply not_true_is_false. intros Hle.
      apply Qle_bool_iff in Hle. now apply Qlt_not_le in H. }
  now rewrite Hlt.
Qed.

Lemma in_order_popular (a b : WatchList.t) :
  in_order popular_desc a b <-> popular_ge a b.
Proof.
  unfold in_order, popular_ge. split.
  - intros H.
    assert (Hn : ~ ((WatchList.avg_rating a < WatchList.avg_rating b)%Q
                    \/ ((WatchList.avg_rating b == WatchList.avg_rating a)%Q
                        /\ WatchList.number_rating a
                           < WatchList.number_rating b))).
    { rewrite <- popular_desc_spec. congruence. }
    destruct (Qlt_le_dec (WatchList.avg_rating b) (WatchList.avg_rating a))
      as [Hlt|Hle]; [now left|].
    right.
    assert (Heq : (WatchList.avg_rating b == WatchList.avg_rating a)%Q).
    { apply Qle_antisym; [|exact Hle]. apply Qnot_lt_le. tauto. }
    split; [exact Heq|]. apply Z.nlt_ge. tauto.
  - intros H. apply not_true_is_false. rewrite popular_desc_spec.
    intros [Hlt|[Heq Hc]]; destruct H as [Hlt'|[Heq' Hc']]; try lra; lia.
Qed.

Lemma popular_ge_trans (a b c : WatchList.t) :
  popular_ge a b -> popular_ge b c -> popular_ge a c.
Proof.
  unfold popular_ge.
  intros [H1|[H1 C1]] [H2|[H2 C2]].
  - left; lra.
  - left; lra.
  - left; lra.
  - right. split; [lra|lia].
Qed.

Lemma order_by_popular_sorted (l : list WatchList.t) :
  StronglySorted popular_ge (order_by popular_desc l).
Proof.
  apply StronglySorted_impl with (R := in_order popular_desc).
  - intros a b. apply in_order_popular.
  - apply order_by_sorted.
    + intros a b Hab. apply not_true_is_false. intros Hba.
      apply popular_desc_spec in Hab, Hba.
      destruct Hab as [?|[? ?]], Hba as [?|[? ?]]; try lra; lia.
    + intros a b c Hba Hcb. apply in_order_popular.
      apply popular_ge_trans with b; now apply in_order_popular.
Qed.

(** X12.  The popular ranking is the first 20 rows of an ordering of
    exactly the active titles with at least 5 ratings, by descending
    average and, among equal averages, by descending number of ratings. *)
Theorem Popular_spec (db : DB) :
  Forall (fun w => In w (watchlists db) /\ popular_eligible w = true)
         (PopularMoviesView_get_queryset db)
  /\ StronglySorted popular_ge (PopularMoviesView_get_queryset db)
  /\ (length (PopularMoviesView_get_queryset db) <= 20)%nat
  /\ exists l,
      Permutation l (filter popular_eligible (watchlists db))
      /\ StronglySorted popular_ge l
      /\ PopularMoviesView_get_queryset db = firstn 20 l.
Proof.
  unfold PopularMoviesView_get_queryset.
  change (fun w => (5 <=? WatchList.number_rating w) && WatchList.active w)
    with popular_eligible.
  split; [|split; [|split]].
  - apply Forall_firstn. apply Forall_forall. intros w Hw.
    apply order_by_In in Hw. now apply filter_In in Hw.
  - apply StronglySorted_firstn. apply order_by_popular_sorted.
  - apply firstn_le_length.
  - eexists. split; [apply order_by_perm|].
    split; [apply order_by_popular_sorted|reflexivity].
Qed.

Lemma order_by_created_sorted (l : list WatchList.t) :
  StronglySorted created_ge (order_by created_desc l).
Proof.
  apply StronglySorted_impl with (R := in_order created_desc).
  - unfold in_order, created_desc, created_ge. intros a b H.
    now apply Z.ltb_ge in H.
  - apply order_by_sorted; unfold created_desc.
    + intros a b. rewrite Z.ltb_lt, Z.ltb_ge. lia.
    + intros a b c. rewrite !Z.ltb_ge. lia.
Qed.

(** X13.  The recent titles are the first 20 rows of an ordering of
    exactly the active titles by descending creation time, and the
    plain listing holds every title, active or not, once, newest
    first. *)
Theorem Recent_spec (db : DB) :
  Forall (fun w => In w (watchlists db) /\ WatchList.active w = true)
         (RecentMoviesView_queryset db)
  /\ StronglySorted created_ge (RecentMoviesView_queryset db)
  /\ (length (RecentMoviesView_queryset db) <= 20)%nat
  /\ (exists l,
         Permutation l (filter WatchList.active (watchlists db))
         /\ StronglySorted created_ge l
         /\ RecentMoviesView_queryset db = firstn 20 l)
  /\ Permutation (WatchListAV_get db) (watchlists db)
  /\ StronglySorted created_ge (WatchListAV_get db).
Proof.
  unfold RecentMoviesView_queryset, WatchListAV_get.
  split; [|split; [|split; [|split; [|split]]]].
  - apply Forall_firstn. apply Forall_forall. intros w Hw.
    apply order_by_In in Hw. now apply filter_In in Hw.
  - apply StronglySorted_firstn. apply order_by_created_sorted.
  - apply firstn_le_length.
  - eexists. split; [apply order_by_perm|].
    split; [apply order_by_created_sorted|reflexivity].
  - apply order_by_perm.
  - apply order_by_created_sorted.
Qed.

(** X14.  The review list of a title holds exactly the stored reviews of
    that title, active or not, each once, newest first. *)
Theorem ReviewList_spec (pk : Z) (db : DB) :
  Permutation (ReviewList_get_queryset pk db) (reviews_of db pk)
  /\ StronglySorted review_created_ge (ReviewList_get_queryset pk db)
  /\ forall r, In r (ReviewList_get_queryset pk db)
               <-> In r (reviews db) /\ Review.watchlist r = pk.
Proof.
  unfold ReviewList_get_queryset, reviews_of. split; [|split].
  - apply order_by_perm.
  - apply StronglySorted_impl with (R := in_order review_created_desc).
    + unfold in_order, review_created_desc, review_created_ge. intros a b H.
      now apply Z.ltb_ge in H.
    + apply order_by_sorted; unfold review_created_desc.
      * intros a b. rewrite Z.ltb_lt, Z.ltb_ge. lia.
      * intros a b c. rewrite !Z.ltb_ge. lia.
  - intros r. rewrite order_by_In, filter_In, Z.eqb_eq. tauto.
Qed.

(** X15.  The most reviewed title of the statistics report is absent
    exactly when no title is stored; otherwise it is a stored title whose
    count no stored title exceeds, inactive titles included. *)
Theorem most_reviewed_spec (db : DB) :
  (most_reviewed db = None <-> watchlists db = [])
  /\ forall m,
      most_reviewed db = Some m ->
      In m (watchlists db)
      /\ forall w, In w (watchlists db) ->
                   WatchList.number_rating w <= WatchList.number_rating m.
Proof.
  unfold most_reviewed.
  pose proof (order_by_perm number_rating_desc (watchlists db)) as Hperm.
  assert (Hsorted : StronglySorted
                      (fun a b => WatchList.number_rating b
                                  <= WatchList.number_rating a)
                      (order_by number_rating_desc (watchlists db))).
  { apply StronglySorted_impl with (R := in_order number_rating_desc).
    - unfold in_order, number_rating_desc. intros a b H.
      now apply Z.ltb_ge in H.
    - apply order_by_sorted; unfold number_rating_desc.
      + intros a b. rewrite Z.ltb_lt, Z.ltb_ge. lia.
      + intros a b c. rewrite !Z.ltb_ge. lia. }
  destruct (order_by number_rating_desc (watchlists db)) as [|m l]; cbn.
  - split.
    + split; [intros _|reflexivity].
      now apply Permutation_nil in Hperm.
    + discriminate.
  - split.
    + split; [discriminate|]. intros Hnil. rewrite Hnil in Hperm.
      apply Permutation_sym, Permutation_nil in Hperm. discriminate Hperm.
    + intros m' [= <-]. split.
      * apply (Permutation_in _ Hperm). now left.
      * intros w Hw. apply (Permutation_in _ (Permutation_sym Hperm)) in Hw.
        destruct Hw as [->|Hw]; [lia|].
        apply StronglySorted_inv in Hsorted as [_ Hall].
        rewrite Forall_forall in Hall. now apply Hall.
Qed.

(** X16.  The similar titles come newest first, and a reference title
    without genres has none. *)
Theorem Similar_order (pk : Z) (db : DB) (movie : WatchList.t) :
  lookup_watchlist db pk = Some movie ->
  exists res,
    SimilarMoviesView_get_queryset pk db = (Ok res, db)
    /\ StronglySorted created_ge res
    /\ (WatchList.genres movie = [] -> res = []).
Proof.
  intros Hfind. eexists. split; [exact (Similar_unfold pk db movie Hfind)|].
  split.
  - apply StronglySorted_firstn. apply order_by_created_sorted.
  - intros Hnone.
    assert (Hrows : similar_rows movie db = []).
    { unfold similar_rows. apply filter_nil_existsb.
      apply not_true_is_false. rewrite existsb_exists.
      intros (wg & Hin & _). apply filter_In in Hin as [_ Hp].
      rewrite Hnone in Hp. cbn in Hp. discriminate Hp. }
    now rewrite Hrows.
Qed.

(** ** The count along submissions, updates and votes *)

Lemma length_filter_replace {A : Type} (p c : A -> bool) (new : A)
    (l : list A) :
  (forall x, In x l -> c x = true -> p new = p x) ->
  length (filter p (map (fun x => if c x then new else x) l))
  = length (filter p l).
Proof.
  intros H. induction l as [|a l IH]; cbn; [reflexivity|].
  assert (IH' := IH (fun x Hx => H x (or_intror Hx))).
  destruct (c a) eqn:Ha.
  - rewrite (H a (or_introl eq_refl) Ha). destruct (p a); cbn; now rewrite IH'.
  - destruct (p a); cbn; now rewrite IH'.
Qed.

Lemma reviews_of_replace (db : DB) (pk item : Z) (rev rev' : Review.t) :
  ledger_ok db ->
  lookup_review db pk = Some rev ->
  Review.watchlist rev' = Review.watchlist rev ->
  length (reviews_of
            (set_reviews
               (map (fun x => if Review.id x =? pk then rev' else x)
                    (reviews db)) db) item)
  = length (reviews_of db item).
Proof.
  intros (Hids & _ & _) Hfind Hsame. unfold reviews_of. cbn.
  apply length_filter_replace. intros x Hx Hxpk. apply Z.eqb_eq in Hxpk.
  apply lookup_review_In in Hfind as [Hin Hid].
  assert (x = rev)
    by (apply (NoDup_map_inj Review.id (reviews db)); auto; congruence).
  subst x. now rewrite Hsame.
Qed.

Lemma serve_keeps_count (req : Request) (item : Z) (db : DB)
    (w : WatchList.t) :
  ledger_ok db -> keeps_count req = true ->
  lookup_watchlist db item = Some w -> count_in_step db w ->
  exists w',
    lookup_watchlist (serve req db) item = Some w'
    /\ count_in_step (serve req db) w'.
Proof.
  intros Hok Hreq Hw Hcount.
  pose proof (lookup_watchlist_In _ _ _ Hw) as [_ Hwid].
  assert (Hupd : forall partial now user pk data,
             exists w',
               lookup_watchlist
                 (snd (ReviewDetail_update partial now user pk data db)) item
               = Some w'
               /\ count_in_step
                    (snd (ReviewDetail_update partial now user pk data db))
                    w').
  { intros partial now user pk data.
    pose proof (ReviewDetail_update_cases partial now user pk data db) as H.
    destruct (fst (ReviewDetail_update partial now user pk data db))
      as [rev'|e]; [|rewrite H; eauto].
    destruct H as (rev & Hfind & _ & Hrev' & ->).
    exists w. split; [exact Hw|]. unfold count_in_step.
    rewrite (reviews_of_replace db pk _ rev rev' Hok Hfind);
      [exact Hcount|now rewrite Hrev']. }
  destruct req as [now user pk data|now user pk data|now user pk data|
                   |now pk| | |]; try discriminate Hreq; cbn [serve].
  - pose proof (ReviewCreate_post_cases now user pk data db) as H.
    destruct (fst (ReviewCreate_post now user pk data db)) as [rev|e];
      [|rewrite H; eauto].
    destruct H as (w0 & w' & Hw0 & _ & _ & Hrev & Hrs & _ & Hws & Hw' & _).
    assert (Hw'id : WatchList.id w' = pk).
    { rewrite Hw'. cbn. now apply lookup_watchlist_In in Hw0. }
    assert (Hrevw : Review.watchlist rev = pk) by (now rewrite Hrev).
    destruct (Z.eq_dec item pk) as [->|Hne].
    + exists w'. split.
      * unfold lookup_watchlist in *. rewrite Hws.
        rewrite (find_replace_same WatchList.id);
          [reflexivity|exact Hw'id|congruence].
      * rewrite Hw in Hw0. inversion Hw0; subst w0.
        assert (Hn : WatchList.number_rating w'
                     = WatchList.number_rating w + 1)
          by (rewrite Hw'; reflexivity).
        unfold count_in_step, reviews_of in *.
        rewrite Hn, Hrs, filter_app, length_app, Hw'id. cbn [filter].
        rewrite Hrevw, Z.eqb_refl. cbn [length].
        rewrite Hwid in Hcount. rewrite Hcount. lia.
    + exists w. split.
      * unfold lookup_watchlist in *. rewrite Hws.
        now rewrite (find_replace_other WatchList.id).
      * unfold count_in_step, reviews_of in *.
        rewrite Hrs, filter_app. cbn [filter].
        assert (Hskip : (Review.watchlist rev =? WatchList.id w) = false)
          by (apply Z.eqb_neq; congruence).
        now rewrite Hskip, app_nil_r.
  - apply Hupd.
  - apply Hupd.
  - pose proof (ReviewHelpfulView_post_cases now pk db) as H.
    destruct (lookup_review db pk) as [r|] eqn:Hfind; rewrite H; cbn [snd];
      [|eauto].
    exists w. split; [exact Hw|]. unfold count_in_step.
    rewrite (reviews_of_replace db pk _ r (voted now r) Hok Hfind);
      [exact Hcount|reflexivity].
Qed.

Lemma serve_keeps_count_ledger (req : Request) (db : DB) :
  keeps_count req = true -> ledger_ok db -> ledger_ok (serve req db).
Proof.
  intros Hreq Hok.
  destruct req; try discriminate Hreq; cbn [serve].
  - now apply ReviewCreate_keeps_ledger.
  - now apply ReviewDetail_update_keeps_ledger.
  - now apply ReviewDetail_update_keeps_ledger.
  - now apply ReviewHelpfulView_keeps_ledger.
Qed.

(** X17.  Submissions, updates and votes keep the count of a title in
    step with its stored reviews: on a well-formed review table, if the
    count of a title is the number of its stored reviews, active or
    not, the same holds after any sequence of review submissions, review
    updates and helpful votes, by any users on any titles, whether they
    succeed or fail. *)
Theorem submissions_keep_count (reqs : list Request) (item : Z)
    (db : DB) (w : WatchList.t) :
  ledger_ok db ->
  forallb keeps_count reqs = true ->
  lookup_watchlist db item = Some w ->
  count_in_step db w ->
  exists w',
    lookup_watchlist (serve_all reqs db) item = Some w'
    /\ count_in_step (serve_all reqs db) w'.
Proof.
  unfold serve_all. revert db w.
  induction reqs as [|req reqs IH]; intros db w Hok Hreqs Hw Hcount; cbn.
  - eauto.
  - cbn in Hreqs. apply andb_true_iff in Hreqs as [Hreq Hreqs].
    destruct (serve_keeps_count req item db w Hok Hreq Hw Hcount)
      as (w' & Hw' & Hcount').
    apply (IH (serve req db) w'); auto.
    now apply serve_keeps_count_ledger.
Qed.

(** ** The further theorems at concrete inputs *)

Lemma sample_db_ledger_ok : ledger_ok sample_db.
Proof. unfold ledger_ok. repeat split; solve_table_ok. Defined.

Lemma sample_db_catalogue_ok : catalogue_ok sample_db.
Proof. unfold catalogue_ok. repeat split; solve_table_ok. Defined.

Lemma sample_db_reviews_have_titles : reviews_have_titles sample_db.
Proof.
  unfold reviews_have_titles. repeat constructor; cbn; tauto.
Defined.

(** X1 on [sample_db] and [sample_requests]. *)
Lemma one_review_per_user_and_title_witness :
  ledger_ok sample_db /\ ledger_ok (serve_all sample_requests sample_db).
Proof.
  split; [exact sample_db_ledger_ok|].
  exact (proj1 (one_review_per_user_and_title sample_requests sample_db
                  sample_db_ledger_ok)).
Defined.

(** X2 on [sample_db] and [sample_requests]. *)
Lemma title_keys_stay_unique_witness :
  catalogue_ok sample_db /\ unique_pk (serve_all sample_requests sample_db).
Proof.
  split; [exact sample_db_catalogue_ok|].
  exact (proj2 (title_keys_stay_unique sample_requests sample_db
                  sample_db_catalogue_ok)).
Defined.

(** X3 on [sample_db] and [sample_requests], at the review that bob
    submits on title 3. *)
Lemma no_review_without_title_witness :
  let r := Review.mk 7 8 5 3 true (10 * day) (10 * day) 0 in
  reviews_have_titles sample_db
  /\ In r (reviews (serve_all sample_requests sample_db))
  /\ lookup_watchlist (serve_all sample_requests sample_db) 3 <> None.
Proof.
  cbv zeta.
  assert (Hin : In (Review.mk 7 8 5 3 true (10 * day) (10 * day) 0)
                   (reviews (serve_all sample_requests sample_db))).
  { vm_compute. tauto. }
  split; [exact sample_db_reviews_have_titles|]. split; [exact Hin|].
  exact (no_review_without_title sample_requests sample_db
           sample_db_reviews_have_titles _ Hin).
Defined.

(** X4 at bob's submission on title 3 of [sample_db]. *)
Lemma ReviewCreate_post_round_trip_witness :
  let data := mkReviewData (Some 5) None in
  let out := ReviewCreate_post (10 * day) bob 3 data sample_db in
  ledger_ok sample_db
  /\ exists rev,
      fst out = Ok rev
      /\ lookup_review (snd out) (Review.id rev) = Some rev
      /\ ReviewCreate_post (11 * day) bob 3 data (snd out)
         = (Raise DuplicateReview, snd out).
Proof.
  cbv zeta. split; [exact sample_db_ledger_ok|].
  pose proof (ReviewCreate_post_round_trip
                (10 * day) bob 3 (mkReviewData (Some 5) None) sample_db
                sample_db_ledger_ok) as H.
  destruct (fst (ReviewCreate_post (10 * day) bob 3
                   (mkReviewData (Some 5) None) sample_db))
    as [rev|e] eqn:Hfst; [|vm_compute in Hfst; discriminate Hfst].
  destruct H as (_ & Hget & _ & _ & _ & Hdup).
  exists rev. split; [reflexivity|]. split; [exact Hget|].
  now apply Hdup.
Defined.

(** X5 on the fresh title after an administrator has stored a count of
    -1 on it. *)
Lemma ReviewCreate_post_zero_division_witness :
  let body := mkWatchListData (Some 1) (Some [1]) None None (Some (-1)) in
  let db := snd (WatchDetailAV_put admin 1 body catalogue) in
  option_map WatchList.number_rating (lookup_watchlist db 1) = Some (-1)
  /\ ReviewCreate_post 100 alice 1 (mkReviewData (Some 3) None) db
     = (Raise ZeroDivisionError, db).
Proof.
  cbv zeta. split; [vm_compute; reflexivity|].
  apply (ReviewCreate_post_zero_division 100 alice 1 3 _ _
           (WatchList.mk 1 1 true 0%Q (-1) 0 [1]));
    vm_compute; reflexivity.
Defined.

(** X8 at five votes on review 3 of [sample_db]. *)
Lemma votes_add_up_witness :
  lookup_review sample_db 3 = Some (review_at 3 9 1 (9 * day))
  /\ exists r',
      lookup_review (votes 5 (10 * day) 3 sample_db) 3 = Some r'
      /\ Review.helpful_count r' = 5.
Proof.
  assert (Hfind : lookup_review sample_db 3 = Some (review_at 3 9 1 (9 * day)))
    by reflexivity.
  split; [exact Hfind|].
  destruct (votes_add_up 5 (10 * day) 3 sample_db _ Hfind)
    as (r' & Hr' & Hc & _).
  exists r'. split; [exact Hr'|]. rewrite Hc. reflexivity.
Defined.

(** X10 at a POST by the administrator on [sample_db]. *)
Lemma WatchListAV_post_behaviour_witness :
  let data := mkWatchListData (Some 1) (Some [3]) None None None in
  let out := WatchListAV_post (10 * day) admin data sample_db in
  catalogue_ok sample_db
  /\ exists w,
      fst out = Ok w
      /\ WatchDetailAV_get (WatchList.id w) (snd out) = (Ok w, snd out)
      /\ WatchList.number_rating w = 0.
Proof.
  cbv zeta. split; [exact sample_db_catalogue_ok|].
  pose proof (WatchListAV_post_behaviour
                (10 * day) admin
                (mkWatchListData (Some 1) (Some [3]) None None None)
                sample_db sample_db_catalogue_ok) as H.
  cbn [is_staff admin] in H.
  destruct (fst (WatchListAV_post (10 * day) admin
                   (mkWatchListData (Some 1) (Some [3]) None None None)
                   sample_db))
    as [w|e] eqn:Hfst; [|vm_compute in Hfst; discriminate Hfst].
  destruct H as (_ & Hget & _ & _ & Hcount & _).
  exists w. split; [reflexivity|]. split; [exact Hget|]. now apply Hcount.
Defined.

(** X16 on [sample_db] with X as the reference. *)
Lemma Similar_order_witness :
  lookup_watchlist sample_db 1 = Some title_X
  /\ exists res,
      SimilarMoviesView_get_queryset 1 sample_db = (Ok res, sample_db)
      /\ StronglySorted created_ge res.
Proof.
  assert (Hfind : lookup_watchlist sample_db 1 = Some title_X)
    by reflexivity.
  split; [exact Hfind|].
  destruct (Similar_order 1 sample_db title_X Hfind) as (res & Heq & Hs & _).
  exists res. auto.
Defined.

(** X17 on the fresh title: alice submits 3, bob submits 5, alice
    submits again and is refused, alice changes her rating to 1 and her
    review gets a vote; the title ends with a count of 2 for its two
    reviews. *)
Lemma submissions_keep_count_witness :
  let reqs :=
    [POST_review_create 100 alice 1 (mkReviewData (Some 3) None);
     POST_review_create 101 bob 1 (mkReviewData (Some 5) None);
     POST_review_create 102 alice 1 (mkReviewData (Some 4) None);
     PUT_review_detail 103 alice 1 (mkReviewData (Some 1) None);
     POST_review_helpful 104 1] in
  ledger_ok catalogue
  /\ forallb keeps_count reqs = true
  /\ lookup_watchlist catalogue 1 = Some fresh_title
  /\ count_in_step catalogue fresh_title
  /\ option_map WatchList.number_rating
                (lookup_watchlist (serve_all reqs catalogue) 1) = Some 2
  /\ length (reviews_of (serve_all reqs catalogue) 1) = 2%nat
  /\ exists w',
      lookup_watchlist (serve_all reqs catalogue) 1 = Some w'
      /\ count_in_step (serve_all reqs catalogue) w'.
Proof.
  cbv zeta.
  assert (Hok : ledger_ok catalogue)
    by (unfold ledger_ok; repeat split; solve_table_ok).
  assert (Hcount : count_in_step catalogue fresh_title) by reflexivity.
  split; [exact Hok|].
  split; [reflexivity|]. split; [reflexivity|]. split; [exact Hcount|].
  split; [vm_compute; reflexivity|]. split; [vm_compute; reflexivity|].
  apply (submissions_keep_count _ 1 catalogue fresh_title);
    [exact Hok|reflexivity|reflexivity|exact Hcount].
Defined.

(** ** The personal watchlist *)



Lemma own_entries_In (user : User) (shelf : Shelf) (e : UserWatchlist.t) :
  In e (MyWatchlistView_get_queryset user shelf)
  <-> In e (entries shelf) /\ UserWatchlist.user e = user_id user.
Proof.
  unfold MyWatchlistView_get_queryset.
  now rewrite order_by_In, filter_In, Z.eqb_eq.
Qed.

Lemma get_object_some (user : User) (pk : Z) (shelf : Shelf)
    (e : UserWatchlist.t) :
  MyWatchlistDetailView_get_object user pk shelf = Some e ->
  In e (entries shelf) /\ UserWatchlist.user e = user_id user
  /\ UserWatchlist.id e = pk.
Proof.
  unfold MyWatchlistDetailView_get_object. intros H.
  apply find_some in H as [Hin Hid]. apply own_entries_In in Hin.
  apply Z.eqb_eq in Hid. tauto.
Qed.


Lemma MyWatchlistView_post_cases (now : Z) (user : User)
    (data : UserWatchlistData) (db : DB) (shelf : Shelf) :
  match fst (MyWatchlistView_post now user data db shelf) with
  | ShelfRaise _ => snd (MyWatchlistView_post now user data db shelf) = shelf
  | ShelfOk e =>
    exists w st,
      data_watchlist_id data = Some w
      /\ In w (map WatchList.id (watchlists db))
      /\ pair_stored (user_id user) w shelf = false
      /\ e = UserWatchlist.mk (next_entry_id shelf) (user_id user) w st now
      /\ snd (MyWatchlistView_post now user data db shelf)
         = mkShelf (entries shelf ++ [e]) (next_entry_id shelf + 1)
  end.
Proof.
  unfold MyWatchlistView_post, UserWatchlistSerializer_is_valid.
  destruct (data_watchlist_id data) as [w|]; cbn; [|reflexivity].
  destruct (mem w (map WatchList.id (watchlists db))) eqn:Hmem; cbn;
    [|reflexivity].
  assert (Hin : In w (map WatchList.id (watchlists db))).
  { unfold mem in Hmem. apply existsb_exists in Hmem as (x & Hx & Heq).
    apply Z.eqb_eq in Heq. now subst. }
  destruct (data_status data) as [s|].
  - destruct (StatusChoices.parse_status s) as [st|]; cbn; [|reflexivity].
    destruct (pair_stored (user_id user) w shelf) eqn:Hp; cbn;
      [reflexivity|]. exists w, st. auto.
  - destruct (pair_stored (user_id user) w shelf) eqn:Hp; cbn;
      [reflexivity|]. exists w, want_to_watch. auto.
Qed.

Lemma MyWatchlistDetailView_update_cases (partial : bool) (user : User)
    (pk : Z) (data : UserWatchlistData) (db : DB) (shelf : Shelf) :
  match fst (MyWatchlistDetailView_update partial user pk data db shelf) with
  | ShelfRaise _ =>
    snd (MyWatchlistDetailView_update partial user pk data db shelf) = shelf
  | ShelfOk e =>
    exists instance,
      MyWatchlistDetailView_get_object user pk shelf = Some instance
      /\ UserWatchlist.id e = UserWatchlist.id instance
      /\ UserWatchlist.user e = UserWatchlist.user instance
      /\ UserWatchlist.added_date e = UserWatchlist.added_date instance
      /\ pair_taken (UserWatchlist.user e) (UserWatchlist.watchlist e)
                    (UserWatchlist.id e) shelf = false
      /\ snd (MyWatchlistDetailView_update partial user pk data db shelf)
         = mkShelf (map (fun x => if UserWatchlist.id x =? UserWatchlist.id e
                                  then e else x) (entries shelf))
                   (next_entry_id shelf)
  end.
Proof.
  unfold MyWatchlistDetailView_update.
  destruct (MyWatchlistDetailView_get_object user pk shelf) as [inst|];
    cbn; [|reflexivity].
  destruct (UserWatchlistSerializer_is_valid partial data db) as [[w st]|e];
    cbn; [|reflexivity].
  destruct (pair_taken _ _ _ shelf) eqn:Hp; cbn; [reflexivity|].
  exists inst. auto 10.
Qed.

Lemma MyWatchlistDetailView_delete_cases (user : User) (pk : Z)
    (shelf : Shelf) :
  match MyWatchlistDetailView_get_object user pk shelf with
  | None =>
    MyWatchlistDetailView_delete user pk shelf
    = (ShelfRaise ShelfNotFound, shelf)
  | Some instance =>
    MyWatchlistDetailView_delete user pk shelf
    = (ShelfOk tt,
       mkShelf (filter (fun x => negb (UserWatchlist.id x =? pk))
                       (entries shelf))
               (next_entry_id shelf))
  end.
Proof.
  unfold MyWatchlistDetailView_delete.
  destruct (MyWatchlistDetailView_get_object user pk shelf) as [inst|] eqn:H;
    [|reflexivity].
  apply get_object_some in H as (_ & _ & Hid). now rewrite Hid.
Qed.

Lemma pair_stored_false (u w : Z) (shelf : Shelf) :
  pair_stored u w shelf = false ->
  ~ In (u, w) (map entry_key (entries shelf)).
Proof.
  unfold pair_stored. intros H Hin.
  apply in_map_iff in Hin as (e & Hkey & He).
  unfold entry_key in Hkey. inversion Hkey as [[Hu Hw]].
  assert (Hex : existsb (fun e => (UserWatchlist.user e =? u)
                                  && (UserWatchlist.watchlist e =? w))
                        (entries shelf) = true).
  { apply existsb_exists. exists e. split; [exact He|].
    now rewrite Hu, Hw, !Z.eqb_refl. }
  congruence.
Qed.

Lemma NoDup_map_replace {A B : Type} (f : A -> B) (key : A -> Z) (k : Z)
    (new : A) (l : list A) :
  NoDup (map key l) -> NoDup (map f l) -> key new = k ->
  (forall x, In x l -> key x <> k -> f x <> f new) ->
  NoDup (map f (map (fun x => if key x =? k then new else x) l)).
Proof.
  intros Hkeys Hf Hnew Hfresh.
  induction l as [|a l IH]; cbn; [constructor|].
  cbn in Hkeys, Hf.
  inversion Hkeys as [|? ? Hka Hkl]; inversion Hf as [|? ? Hfa Hfl]; subst.
  assert (IH' := IH Hkl Hfl
                    (fun x Hx => Hfresh x (or_intror Hx))).
  destruct (key a =? key new) eqn:Ha.
  - apply Z.eqb_eq in Ha. constructor; [|exact IH'].
    rewrite in_map_iff. intros (y & Hy & Hin).
    apply in_map_iff in Hin as (x & Hx & Hxin).
    destruct (key x =? key new) eqn:Hxk.
    + apply Z.eqb_eq in Hxk. apply Hka. rewrite Ha, <- Hxk.
      now apply in_map.
    + subst y. apply Z.eqb_neq in Hxk.
      now apply (Hfresh x (or_intror Hxin)).
  - constructor; [|exact IH'].
    apply Z.eqb_neq in Ha.
    rewrite in_map_iff. intros (y & Hy & Hin).
    apply in_map_iff in Hin as (x & Hx & Hxin).
    destruct (key x =? key new) eqn:Hxk.
    + subst y. now apply (Hfresh a (or_introl eq_refl)).
    + subst y. apply Hfa. rewrite <- Hy. now apply in_map.
Qed.

Lemma serve_shelf_keeps_ok (db : DB) (req : ShelfRequest) (shelf : Shelf) :
  shelf_ok shelf -> shelf_ok (serve_shelf db req shelf).
Proof.
  intros Hok.
  assert (Hupd : forall partial u pk data,
             shelf_ok (snd (MyWatchlistDetailView_update partial u pk data
                                                         db shelf))).
  { intros partial u pk data.
    pose proof (MyWatchlistDetailView_update_cases partial u pk data db shelf)
      as H.
    destruct (fst (MyWatchlistDetailView_update partial u pk data db shelf))
      as [e|]; [|now rewrite H].
    destruct H as (inst & Hget & Hid & Hu & _ & Hfree & ->).
    apply get_object_some in Hget as (Hin & _ & _).
    destruct Hok as (Hids & Hlt & Hkeys). unfold shelf_ok. cbn.
    split; [|split].
    - rewrite map_replace_same; [exact Hids|].
      intros x _ Hx. now apply Z.eqb_eq in Hx.
    - apply Forall_replace; [exact Hlt|].
      rewrite Forall_forall in Hlt. rewrite Hid. now apply Hlt.
    - apply NoDup_map_replace; auto.
      intros x Hx Hne Hkey. unfold entry_key in Hkey.
      inversion Hkey as [[Hxu Hxw]].
      assert (Hex : pair_taken (UserWatchlist.user e)
                      (UserWatchlist.watchlist e) (UserWatchlist.id e) shelf
                    = true).
      { unfold pair_taken. apply existsb_exists. exists x.
        split; [exact Hx|]. rewrite Hxu, Hxw, !Z.eqb_refl. cbn.
        apply negb_true_iff. now apply Z.eqb_neq. }
      congruence. }
  destruct req as [now u data|u pk data|u pk data|u pk]; cbn.
  - pose proof (MyWatchlistView_post_cases now u data db shelf) as H.
    destruct (fst (MyWatchlistView_post now u data db shelf)) as [e|];
      [|now rewrite H].
    destruct H as (w & st & _ & _ & Hfree & He & ->).
    destruct Hok as (Hids & Hlt & Hkeys). unfold shelf_ok. cbn.
    assert (Hid : UserWatchlist.id e = next_entry_id shelf)
      by (now rewrite He).
    split; [|split].
    + apply NoDup_map_snoc; [exact Hids|].
      rewrite in_map_iff. intros (x & Hx & Hin).
      rewrite Forall_forall in Hlt. specialize (Hlt x Hin). lia.
    + apply Forall_app. split.
      * eapply Forall_impl; [|exact Hlt]. cbn. intros; lia.
      * constructor; [lia|constructor].
    + apply NoDup_map_snoc; [exact Hkeys|].
      rewrite He. now apply pair_stored_false.
  - apply Hupd.
  - apply Hupd.
  - pose proof (MyWatchlistDetailView_delete_cases u pk shelf) as H.
    destruct (MyWatchlistDetailView_get_object u pk shelf); rewrite H;
      [|exact Hok].
    destruct Hok as (Hids & Hlt & Hkeys). unfold shelf_ok. cbn.
    split; [now apply NoDup_map_filter|].
    split; [now apply Forall_filter_keep|now apply NoDup_map_filter].
Qed.

Lemma serve_shelf_all_keeps_ok (db : DB) (reqs : list ShelfRequest)
    (shelf : Shelf) :
  shelf_ok shelf -> shelf_ok (serve_shelf_all db reqs shelf).
Proof.
  unfold serve_shelf_all. revert shelf.
  induction reqs as [|req reqs IH]; intros shelf Hok; cbn; [exact Hok|].
  apply IH. now apply serve_shelf_keeps_ok.
Qed.

(** X18.  Personal watchlist requests keep the table well formed:
    whatever sequence of additions, updates and removals is served, keys
    stay unique and no user has two entries for one title. *)
Theorem one_entry_per_user_and_title (db : DB) (reqs : list ShelfRequest)
    (shelf : Shelf) :
  shelf_ok shelf ->
  shelf_ok (serve_shelf_all db reqs shelf)
  /\ forall e1 e2,
      In e1 (entries (serve_shelf_all db reqs shelf)) ->
      In e2 (entries (serve_shelf_all db reqs shelf)) ->
      UserWatchlist.user e1 = UserWatchlist.user e2 ->
      UserWatchlist.watchlist e1 = UserWatchlist.watchlist e2 ->
      e1 = e2.
Proof.
  intros Hok.
  pose proof (serve_shelf_all_keeps_ok db reqs shelf Hok) as Hall.
  split; [exact Hall|].
  intros e1 e2 H1 H2 Hu Hw. destruct Hall as (_ & _ & Hkeys).
  apply (NoDup_map_inj entry_key _ _ _ Hkeys H1 H2).
  unfold entry_key. congruence.
Qed.

Lemma filter_replace_others {A : Type} (p c : A -> bool) (new : A)
    (l : list A) :
  p new = false ->
  (forall x, In x l -> c x = true -> p x = false) ->
  filter p (map (fun x => if c x then new else x) l) = filter p l.
Proof.
  intros Hnew Hc. induction l as [|a l IH]; cbn; [reflexivity|].
  rewrite IH by (intros x Hx; apply Hc; now right).
  destruct (c a) eqn:Ha.
  - rewrite Hnew. now rewrite (Hc a (or_introl eq_refl) Ha).
  - reflexivity.
Qed.

Lemma filter_filter_others {A : Type} (p q : A -> bool) (l : list A) :
  (forall x, In x l -> p x = true -> q x = true) ->
  filter p (filter q l) = filter p l.
Proof.
  intros H. rewrite filter_filter_andb. apply filter_ext_in. intros x Hx.
  destruct (p x) eqn:Hp; [|now rewrite andb_false_r].
  now rewrite (H x Hx Hp).
Qed.

Lemma serve_shelf_other_user (db : DB) (req : ShelfRequest) (shelf : Shelf)
    (v : Z) :
  shelf_ok shelf ->
  user_id (shelf_requester req) <> v ->
  entries_of v (serve_shelf db req shelf) = entries_of v shelf.
Proof.
  intros (Hids & _ & _) Hne. unfold entries_of.
  assert (Hupd : forall partial u pk data,
             user_id u <> v ->
             filter (fun e => UserWatchlist.user e =? v)
                    (entries (snd (MyWatchlistDetailView_update
                                     partial u pk data db shelf)))
             = filter (fun e => UserWatchlist.user e =? v) (entries shelf)).
  { intros partial u pk data Hu.
    pose proof (MyWatchlistDetailView_update_cases partial u pk data db shelf)
      as H.
    destruct (fst (MyWatchlistDetailView_update partial u pk data db shelf))
      as [e|]; [|now rewrite H].
    destruct H as (inst & Hget & Hid & Heu & _ & _ & ->).
    apply get_object_some in Hget as (Hin & Hiu & _). cbn.
    apply filter_replace_others.
    - apply Z.eqb_neq. congruence.
    - intros x Hx Hxid. apply Z.eqb_eq in Hxid. apply Z.eqb_neq.
      assert (x = inst)
        by (apply (NoDup_map_inj UserWatchlist.id (entries shelf)); auto;
            congruence).
      subst x. congruence. }
  destruct req as [now u data|u pk data|u pk data|u pk]; cbn in Hne |- *.
  - pose proof (MyWatchlistView_post_cases now u data db shelf) as H.
    destruct (fst (MyWatchlistView_post now u data db shelf)) as [e|];
      [|now rewrite H].
    destruct H as (w & st & _ & _ & _ & He & ->). cbn.
    rewrite filter_app. cbn.
    assert (Hskip : (UserWatchlist.user e =? v) = false).
    { rewrite He. cbn. now apply Z.eqb_neq. }
    now rewrite Hskip, app_nil_r.
  - now apply Hupd.
  - now apply Hupd.
  - pose proof (MyWatchlistDetailView_delete_cases u pk shelf) as H.
    destruct (MyWatchlistDetailView_get_object u pk shelf) as [inst|] eqn:Hget;
      rewrite H; [|reflexivity].
    apply get_object_some in Hget as (Hin & Hiu & Hid). cbn.
    apply filter_filter_others. intros x Hx Hxv. apply Z.eqb_eq in Hxv.
    apply negb_true_iff, Z.eqb_neq. intros Hxid.
    assert (x = inst)
      by (apply (NoDup_map_inj UserWatchlist.id (entries shelf)); auto;
          congruence).
    subst x. congruence.
Qed.

(** ** Title deletion and the personal watchlists *)

Lemma mem_In (x : Z) (l : list Z) : mem x l = true <-> In x l.
Proof.
  unfold mem. rewrite existsb_exists. split.
  - intros (y & Hy & Heq). apply Z.eqb_eq in Heq. now subst.
  - intros H. exists x. split; [exact H|apply Z.eqb_refl].
Qed.

Lemma filter_all {A : Type} (p : A -> bool) (l : list A) :
  (forall x, In x l -> p x = true) -> filter p l = l.
Proof.
  induction l as [|a l IH]; cbn; intros H; [reflexivity|].
  rewrite (H a (or_introl eq_refl)). f_equal.
  apply IH. intros x Hx. apply H. now right.
Qed.

Lemma title_keys_filter (pk t : Z) (ws : list WatchList.t) :
  In t (map WatchList.id (filter (fun w => negb (WatchList.id w =? pk)) ws))
  <-> In t (map WatchList.id ws) /\ t <> pk.
Proof.
  rewrite !in_map_iff. split.
  - intros (w & Hid & Hw). apply filter_In in Hw as [Hw Hne].
    apply negb_true_iff, Z.eqb_neq in Hne. split; [eauto|congruence].
  - intros [(w & Hid & Hw) Hne]. exists w. split; [exact Hid|].
    apply filter_In. split; [exact Hw|].
    apply negb_true_iff, Z.eqb_neq. congruence.
Qed.

Lemma title_keys_same (req : Request) (db db' : DB) :
  map WatchList.id (watchlists db') = map WatchList.id (watchlists db) ->
  next_watchlist_id db' = next_watchlist_id db ->
  next_watchlist_id db <= next_watchlist_id db'
  /\ (forall t, In t (map WatchList.id (watchlists db')) ->
                In t (map WatchList.id (watchlists db))
                \/ t = next_watchlist_id db)
  /\ (forall t, In t (map WatchList.id (watchlists db)) ->
                In t (map WatchList.id (watchlists db'))
                \/ exists user, req = DELETE_movie_details user t).
Proof. intros -> ->. split; [lia|]. split; auto. Qed.

(** What a request does to the keys of the title table: the next key
    never goes down, a key that appears is the next key, and a key that
    disappears is the key of a title DELETE. *)
Lemma serve_title_keys (req : Request) (db : DB) :
  next_watchlist_id db <= next_watchlist_id (serve req db)
  /\ (forall t, In t (map WatchList.id (watchlists (serve req db))) ->
                In t (map WatchList.id (watchlists db))
                \/ t = next_watchlist_id db)
  /\ (forall t, In t (map WatchList.id (watchlists db)) ->
                In t (map WatchList.id (watchlists (serve req db)))
                \/ exists user, req = DELETE_movie_details user t).
Proof.
  assert (Hupd : forall partial now user pk data,
             watchlists (snd (ReviewDetail_update partial now user pk data db))
             = watchlists db
             /\ next_watchlist_id
                  (snd (ReviewDetail_update partial now user pk data db))
                = next_watchlist_id db).
  { intros partial now user pk data.
    pose proof (ReviewDetail_update_cases partial now user pk data db) as H.
    destruct (fst (ReviewDetail_update partial now user pk data db));
      [|now rewrite H].
    destruct H as (rev & _ & _ & _ & ->). now split. }
  destruct req as [now user pk data|now user pk data|now user pk data|user pk
                   |now pk|now user data|user pk data|user pk]; cbn [serve].
  - pose proof (ReviewCreate_post_cases now user pk data db) as H.
    destruct (fst (ReviewCreate_post now user pk data db)) as [rev|e];
      [|rewrite H; now apply title_keys_same].
    destruct H as (w & w' & Hw & _ & _ & _ & _ & _ & Hws & Hw' & _ & _ & Hnext).
    apply title_keys_same; [|exact Hnext].
    rewrite Hws. apply map_replace_same. intros x _ Hx.
    apply Z.eqb_eq in Hx. apply lookup_watchlist_In in Hw as [_ Hid].
    rewrite Hw'. cbn. congruence.
  - destruct (Hupd false now user pk data) as [Hws Hnext].
    apply title_keys_same;
      [exact (f_equal (map WatchList.id) Hws)|exact Hnext].
  - destruct (Hupd true now user pk data) as [Hws Hnext].
    apply title_keys_same;
      [exact (f_equal (map WatchList.id) Hws)|exact Hnext].
  - pose proof (ReviewDetail_delete_cases user pk db) as H.
    destruct (fst (ReviewDetail_delete user pk db));
      [|rewrite H; now apply title_keys_same].
    destruct H as (rev & _ & _ & ->). now apply title_keys_same.
  - pose proof (ReviewHelpfulView_post_cases now pk db) as H.
    destruct (lookup_review db pk); rewrite H; now apply title_keys_same.
  - pose proof (WatchListAV_post_cases now user data db) as H.
    destruct (fst (WatchListAV_post now user data db)) as [w|];
      [|rewrite H; now apply title_keys_same].
    destruct H as (_ & Hw & _ & ->). cbn.
    assert (Hid : WatchList.id w = next_watchlist_id db) by (now rewrite Hw).
    split; [lia|]. split.
    + intros t Ht. rewrite map_app in Ht. apply in_app_or in Ht.
      destruct Ht as [Ht|[Ht|[]]]; [now left|right; congruence].
    + intros t Ht. left. rewrite map_app. apply in_or_app. now left.
  - pose proof (WatchDetailAV_put_cases user pk data db) as H.
    destruct (fst (WatchDetailAV_put user pk data db)) as [movie'|];
      [|rewrite H; now apply title_keys_same].
    destruct H as (movie & _ & Hfind & Hmovie' & ->).
    apply title_keys_same; [|reflexivity]. cbn.
    apply map_replace_same. intros x _ Hx. apply Z.eqb_eq in Hx.
    apply lookup_watchlist_In in Hfind as [_ Hid].
    rewrite Hmovie'. cbn. congruence.
  - pose proof (WatchDetailAV_delete_cases user pk db) as H.
    destruct (fst (WatchDetailAV_delete user pk db));
      [|rewrite H; now apply title_keys_same].
    destruct H as (movie & _ & _ & ->). cbn.
    split; [lia|]. split.
    + intros t Ht. left. now apply title_keys_filter in Ht.
    + intros t Ht. destruct (Z.eq_dec t pk) as [->|Hne]; [right; eauto|].
      left. now apply title_keys_filter.
Qed.

Lemma serve_keeps_catalogue (req : Request) (db : DB) :
  catalogue_ok db -> catalogue_ok (serve req db).
Proof.
  intros Hok. destruct req; cbn [serve].
  - now apply ReviewCreate_keeps_catalogue.
  - now apply ReviewDetail_update_keeps_catalogue.
  - now apply ReviewDetail_update_keeps_catalogue.
  - now apply ReviewDetail_delete_keeps_catalogue.
  - now apply ReviewHelpfulView_keeps_catalogue.
  - now apply WatchListAV_post_keeps_catalogue.
  - now apply WatchDetailAV_put_keeps_catalogue.
  - now apply WatchDetailAV_delete_keeps_catalogue.
Qed.

Lemma site_db_serve_site (req : SiteRequest) (s : Site) :
  site_db (serve_site req s)
  = match req with
    | Catalogue r => serve r (site_db s)
    | Personal _ => site_db s
    end.
Proof.
  destruct req as [[]|]; cbn; try reflexivity.
  now destruct (WatchDetailAV_delete _ _ _) as [[u|e] db'].
Qed.

Lemma UserWatchlistSerializer_valid_title (partial : bool)
    (data : UserWatchlistData) (db : DB) (t : Z) (st : option Status) :
  UserWatchlistSerializer_is_valid partial data db = ShelfOk (Some t, st) ->
  In t (map WatchList.id (watchlists db)).
Proof.
  unfold UserWatchlistSerializer_is_valid.
  destruct (data_watchlist_id data) as [w|].
  - destruct (mem w (map WatchList.id (watchlists db))) eqn:Hmem;
      [|discriminate].
    apply mem_In in Hmem.
    destruct (data_status data) as [s0|];
      [destruct (StatusChoices.parse_status s0); [|discriminate]|];
      intros [= <- _]; exact Hmem.
  - destruct partial; [|discriminate].
    destruct (data_status data) as [s0|];
      [destruct (StatusChoices.parse_status s0)|]; discriminate.
Qed.

Lemma serve_shelf_keeps_titles (db : DB) (req : ShelfRequest)
    (shelf : Shelf) :
  Forall (fun e => In (UserWatchlist.watchlist e)
                      (map WatchList.id (watchlists db)))
         (entries shelf) ->
  Forall (fun e => In (UserWatchlist.watchlist e)
                      (map WatchList.id (watchlists db)))
         (entries (serve_shelf db req shelf)).
Proof.
  intros Hok.
  assert (Hupd : forall partial u pk data,
             Forall (fun e => In (UserWatchlist.watchlist e)
                                 (map WatchList.id (watchlists db)))
                    (entries (snd (MyWatchlistDetailView_update
                                     partial u pk data db shelf)))).
  { intros partial u pk data. unfold MyWatchlistDetailView_update.
    destruct (MyWatchlistDetailView_get_object u pk shelf) as [inst|] eqn:Hget;
      [|exact Hok].
    apply get_object_some in Hget as (Hin & _ & _).
    destruct (UserWatchlistSerializer_is_valid partial data db)
      as [[w st]|e] eqn:Hvalid; [|exact Hok].
    destruct (pair_taken _ _ _ shelf); [exact Hok|]. cbn.
    apply Forall_replace; [exact Hok|]. cbn.
    destruct w as [t|]; cbn.
    - now apply UserWatchlistSerializer_valid_title in Hvalid.
    - rewrite Forall_forall in Hok. now apply Hok. }
  destruct req as [now u data|u pk data|u pk data|u pk]; cbn.
  - pose proof (MyWatchlistView_post_cases now u data db shelf) as H.
    destruct (fst (MyWatchlistView_post now u data db shelf)) as [e|];
      [|now rewrite H].
    destruct H as (w & st & _ & Hw & _ & He & ->). cbn.
    apply Forall_app. split; [exact Hok|].
    constructor; [|constructor]. now rewrite He.
  - apply Hupd.
  - apply Hupd.
  - pose proof (MyWatchlistDetailView_delete_cases u pk shelf) as H.
    destruct (MyWatchlistDetailView_get_object u pk shelf); rewrite H;
      [|exact Hok].
    cbn. now apply Forall_filter_keep.
Qed.

Lemma serve_site_keeps_ok (req : SiteRequest) (s : Site) :
  site_ok s -> site_ok (serve_site req s).
Proof.
  intros (Hcat & Hshelf & Htitles).
  assert (Hother : forall r,
             (forall user pk, r <> DELETE_movie_details user pk) ->
             site_ok (mkSite (serve r (site_db s)) (site_shelf s))).
  { intros r Hr. split; [now apply serve_keeps_catalogue|].
    split; [exact Hshelf|].
    unfold entries_have_titles in *. cbn.
    eapply Forall_impl; [|exact Htitles]. cbn. intros e He.
    destruct (serve_title_keys r (site_db s)) as (_ & _ & Hkeep).
    destruct (Hkeep _ He) as [Hin|[user Hdel]]; [exact Hin|].
    now apply Hr in Hdel. }
  destruct req as [r|r].
  - destruct r as [now user pk data|now user pk data|now user pk data|user pk
                   |now pk|now user data|user pk data|user pk];
      try (apply Hother; discriminate).
    cbn [serve_site].
    pose proof (WatchDetailAV_delete_cases user pk (site_db s)) as H.
    pose proof (WatchDetailAV_delete_keeps_catalogue user pk (site_db s) Hcat)
      as Hcat'.
    destruct (WatchDetailAV_delete user pk (site_db s)) as [[u|e] db'];
      cbn [fst snd] in H, Hcat'.
    + destruct H as (movie & _ & _ & Hdb').
      split; [exact Hcat'|]. cbn [site_db site_shelf].
      destruct Hshelf as (Hids & Hlt & Hkeys).
      split.
      * unfold shelf_ok, UserWatchlist_cascade. cbn.
        split; [now apply NoDup_map_filter|].
        split; [now apply Forall_filter_keep|now apply NoDup_map_filter].
      * unfold entries_have_titles, UserWatchlist_cascade in *. cbn.
        apply Forall_forall. intros x Hx. apply filter_In in Hx as [Hx Hne].
        apply negb_true_iff, Z.eqb_neq in Hne.
        rewrite Forall_forall in Htitles. specialize (Htitles x Hx).
        rewrite Hdb'. cbn. apply title_keys_filter. now split.
    + subst db'. now split.
  - cbn [serve_site]. split; [exact Hcat|].
    split; [now apply serve_shelf_keeps_ok|].
    unfold entries_have_titles in *. cbn.
    now apply serve_shelf_keeps_titles.
Qed.

Lemma serve_site_all_keeps_ok (reqs : list SiteRequest) (s : Site) :
  site_ok s -> site_ok (serve_site_all reqs s).
Proof.
  unfold serve_site_all. revert s.
  induction reqs as [|req reqs IH]; intros s Hok; cbn; [exact Hok|].
  apply IH. now apply serve_site_keeps_ok.
Qed.

(** One request that is no personal watchlist request of [owner] leaves
    of the entries of [owner] exactly those whose title is still
    stored. *)
Lemma serve_site_others (owner : User) (req : SiteRequest) (s : Site) :
  site_ok s -> not_own_request owner req ->
  entries_of (user_id owner) (site_shelf (serve_site req s))
  = filter (title_stored (site_db (serve_site req s)))
           (entries_of (user_id owner) (site_shelf s)).
Proof.
  intros (Hcat & Hshelf & Htitles) Hreq.
  assert (Hstored : forall db',
             (forall t, In t (map WatchList.id (watchlists (site_db s))) ->
                        In t (map WatchList.id (watchlists db'))) ->
             entries_of (user_id owner) (site_shelf s)
             = filter (title_stored db')
                      (entries_of (user_id owner) (site_shelf s))).
  { intros db' Hkeep. symmetry. apply filter_all. intros x Hx.
    apply filter_In in Hx as [Hx _].
    unfold entries_have_titles in Htitles. rewrite Forall_forall in Htitles.
    apply mem_In. apply Hkeep. now apply Htitles. }
  assert (Hother : forall r,
             (forall user pk, r <> DELETE_movie_details user pk) ->
             entries_of (user_id owner) (site_shelf s)
             = filter (title_stored (serve r (site_db s)))
                      (entries_of (user_id owner) (site_shelf s))).
  { intros r Hr. apply Hstored. intros t Ht.
    destruct (serve_title_keys r (site_db s)) as (_ & _ & Hkeep).
    destruct (Hkeep _ Ht) as [Hin|[user Hdel]]; [exact Hin|].
    now apply Hr in Hdel. }
  destruct req as [r|r].
  - destruct r as [now user pk data|now user pk data|now user pk data|user pk
                   |now pk|now user data|user pk data|user pk];
      try (apply Hother; discriminate).
    cbn [serve_site].
    pose proof (WatchDetailAV_delete_cases user pk (site_db s)) as H.
    destruct (WatchDetailAV_delete user pk (site_db s)) as [[u|e] db'];
      cbn [fst snd] in H; cbn [site_db site_shelf].
    + destruct H as (movie & _ & _ & Hdb').
      unfold entries_of, UserWatchlist_cascade. cbn [entries].
      rewrite !filter_filter_andb. apply filter_ext_in. intros x Hx.
      unfold entries_have_titles in Htitles. rewrite Forall_forall in Htitles.
      specialize (Htitles x Hx).
      assert (Heq : title_stored db' x
                    = negb (UserWatchlist.watchlist x =? pk)).
      { unfold title_stored. rewrite Hdb'. cbn [watchlists].
        destruct (UserWatchlist.watchlist x =? pk) eqn:Hpk; cbn.
        - apply not_true_is_false. rewrite mem_In, title_keys_filter.
          apply Z.eqb_eq in Hpk. tauto.
        - apply mem_In, title_keys_filter. apply Z.eqb_neq in Hpk. tauto. }
      rewrite Heq. apply andb_comm.
    + subst db'. now apply Hstored.
  - cbn [serve_site site_db site_shelf]. cbn in Hreq.
    rewrite serve_shelf_other_user by assumption.
    now apply Hstored.
Qed.

(** A key below the next key that is stored after further requests was
    stored before them: keys are not handed out twice. *)
Lemma stored_later_was_stored (reqs : list SiteRequest) (s : Site) (t : Z) :
  t < next_watchlist_id (site_db s) ->
  In t (map WatchList.id (watchlists (site_db (serve_site_all reqs s)))) ->
  In t (map WatchList.id (watchlists (site_db s))).
Proof.
  unfold serve_site_all. revert s.
  induction reqs as [|req reqs IH]; intros s Hlt Hin; cbn in Hin;
    [exact Hin|].
  assert (Hstep : next_watchlist_id (site_db s)
                  <= next_watchlist_id (site_db (serve_site req s))
                  /\ (In t (map WatchList.id
                                (watchlists (site_db (serve_site req s)))) ->
                      In t (map WatchList.id (watchlists (site_db s))))).
  { rewrite site_db_serve_site. destruct req as [r|r]; [|split; [lia|auto]].
    destruct (serve_title_keys r (site_db s)) as (Hnext & Hnew & _).
    split; [exact Hnext|]. intros Ht.
    destruct (Hnew _ Ht) as [Hold|Heq]; [exact Hold|lia]. }
  destruct Hstep as [Hnext Hback]. apply Hback. apply IH; [lia|exact Hin].
Qed.

Lemma serve_site_all_others (owner : User) (reqs : list SiteRequest)
    (s : Site) :
  site_ok s -> Forall (not_own_request owner) reqs ->
  entries_of (user_id owner) (site_shelf (serve_site_all reqs s))
  = filter (title_stored (site_db (serve_site_all reqs s)))
           (entries_of (user_id owner) (site_shelf s)).
Proof.
  intros Hok Hreqs. revert s Hok.
  induction Hreqs as [|req reqs Hreq Hrest IH]; intros s Hok.
  - cbn. symmetry. apply filter_all. intros x Hx.
    apply filter_In in Hx as [Hx _].
    destruct Hok as (_ & _ & Htitles). unfold entries_have_titles in Htitles.
    rewrite Forall_forall in Htitles. apply mem_In. now apply Htitles.
  - change (serve_site_all (req :: reqs) s)
      with (serve_site_all reqs (serve_site req s)).
    rewrite IH by (now apply serve_site_keeps_ok).
    rewrite (serve_site_others owner req s Hok Hreq).
    apply filter_filter_others. intros x Hx Hstored.
    apply filter_In in Hx as [Hx _].
    destruct Hok as ((_ & Hlt) & _ & Htitles).
    unfold entries_have_titles in Htitles. rewrite Forall_forall in Htitles.
    specialize (Htitles x Hx).
    apply in_map_iff in Htitles as (w & Hid & Hw).
    rewrite Forall_forall in Hlt. specialize (Hlt w Hw).
    unfold title_stored in *. apply mem_In. apply mem_In in Hstored.
    apply (stored_later_was_stored reqs (serve_site req s)); [|exact Hstored].
    rewrite site_db_serve_site. destruct req as [r|r]; [|lia].
    destruct (serve_title_keys r (site_db s)) as (Hnext & _). lia.
Qed.

(** X19.  A personal watchlist belongs to its user alone.  Let any
    sequence of requests be served none of which is a personal watchlist
    request of the user: requests on the catalogue and the reviews by
    anyone, additions, updates and removals on the personal watchlists
    by other users.  On a well-formed site the entries of the user are
    afterwards exactly the entries before whose title is still stored:
    nothing is added or changed, and an entry goes only with its title,
    which a DELETE of the title takes with it (on_delete=CASCADE).  The
    site stays well formed, so no entry is left without its title.  And
    a user who addresses an entry of someone else gets NotFound on
    update and on removal, without a write. *)
Theorem personal_watchlist_is_private (reqs : list SiteRequest) (s : Site)
    (owner : User) :
  site_ok s ->
  Forall (not_own_request owner) reqs ->
  site_ok (serve_site_all reqs s)
  /\ entries_of (user_id owner) (site_shelf (serve_site_all reqs s))
     = filter (title_stored (site_db (serve_site_all reqs s)))
              (entries_of (user_id owner) (site_shelf s))
  /\ (forall e,
         In e (MyWatchlistView_get_queryset
                 owner (site_shelf (serve_site_all reqs s)))
         <-> In e (MyWatchlistView_get_queryset owner (site_shelf s))
             /\ title_stored (site_db (serve_site_all reqs s)) e = true)
  /\ forall e other partial data,
      In e (entries (site_shelf s)) ->
      UserWatchlist.user e = user_id owner ->
      user_id other <> user_id owner ->
      MyWatchlistDetailView_update partial other (UserWatchlist.id e) data
                                   (site_db s) (site_shelf s)
      = (ShelfRaise ShelfNotFound, site_shelf s)
      /\ MyWatchlistDetailView_delete other (UserWatchlist.id e) (site_shelf s)
         = (ShelfRaise ShelfNotFound, site_shelf s).
Proof.
  intros Hok Hreqs.
  pose proof (serve_site_all_others owner reqs s Hok Hreqs) as Hrows.
  split; [now apply serve_site_all_keeps_ok|].
  split; [exact Hrows|]. split.
  - intros e. unfold MyWatchlistView_get_queryset.
    change (filter (fun e => UserWatchlist.user e =? user_id owner)
                   (entries (site_shelf (serve_site_all reqs s))))
      with (entries_of (user_id owner)
                       (site_shelf (serve_site_all reqs s))).
    change (filter (fun e => UserWatchlist.user e =? user_id owner)
                   (entries (site_shelf s)))
      with (entries_of (user_id owner) (site_shelf s)).
    rewrite !order_by_In, Hrows, filter_In. tauto.
  - intros e other partial data Hin Hown Hother.
    destruct Hok as (_ & (Hids & _ & _) & _).
    assert (Hnone : MyWatchlistDetailView_get_object
                      other (UserWatchlist.id e) (site_shelf s) = None).
    { destruct (MyWatchlistDetailView_get_object
                  other (UserWatchlist.id e) (site_shelf s)) as [x|] eqn:Hget;
        [|reflexivity].
      apply get_object_some in Hget as (Hx & Hxu & Hxid).
      assert (x = e)
        by (apply (NoDup_map_inj UserWatchlist.id (entries (site_shelf s)));
            auto).
      subst x. congruence. }
    unfold MyWatchlistDetailView_update, MyWatchlistDetailView_delete.
    now rewrite Hnone.
Qed.


Lemma sample_shelf_ok : shelf_ok sample_shelf.
Proof. unfold shelf_ok. repeat split; solve_table_ok. Defined.

(** X18 on [sample_shelf] and [sample_shelf_requests]. *)
Lemma one_entry_per_user_and_title_witness :
  shelf_ok sample_shelf
  /\ shelf_ok (serve_shelf_all sample_db sample_shelf_requests sample_shelf)
  /\ map entry_key
         (entries (serve_shelf_all sample_db sample_shelf_requests
                                   sample_shelf))
     = [(7, 1); (7, 2); (8, 1); (8, 2)].
Proof.
  split; [exact sample_shelf_ok|]. split; [|vm_compute; reflexivity].
  exact (proj1 (one_entry_per_user_and_title
                  sample_db sample_shelf_requests sample_shelf
                  sample_shelf_ok)).
Defined.

Lemma sample_site_ok : site_ok sample_site.
Proof.
  split; [exact sample_db_catalogue_ok|]. split; [exact sample_shelf_ok|].
  unfold entries_have_titles. repeat constructor; cbn; tauto.
Defined.

(** X19 on [sample_site]: of the two entries of alice, the requests of
    the others leave the one for title 2; the one for title 1 has gone
    with its title. *)
Lemma personal_watchlist_is_private_witness :
  site_ok sample_site
  /\ Forall (not_own_request alice) others_requests
  /\ map UserWatchlist.id (entries_of (user_id alice) (site_shelf sample_site))
     = [1; 2]
  /\ map UserWatchlist.id
         (entries_of (user_id alice)
                     (site_shelf (serve_site_all others_requests sample_site)))
     = [2]
  /\ entries_of (user_id alice)
                (site_shelf (serve_site_all others_requests sample_site))
     = filter (title_stored
                 (site_db (serve_site_all others_requests sample_site)))
              (entries_of (user_id alice) (site_shelf sample_site)).
Proof.
  assert (Hreqs : Forall (not_own_request alice) others_requests).
  { repeat constructor; cbn; discriminate. }
  split; [exact sample_site_ok|]. split; [exact Hreqs|].
  split; [reflexivity|]. split; [vm_compute; reflexivity|].
  exact (proj1 (proj2 (personal_watchlist_is_private
                         others_requests sample_site alice
                         sample_site_ok Hreqs))).
Defined.


(** ** Views that read the user table *)

Lemma filter_key_unique {A : Type} (key : A -> Z) (k : Z) (l : list A) :
  NoDup (map key l) ->
  filter (fun x => key x =? k) l
  = match find (fun x => key x =? k) l with
    | Some x => [x]
    | None => []
    end.
Proof.
  induction l as [|a l IH]; cbn; [reflexivity|].
  intros H. inversion H as [|? ? Ha Hl]; subst.
  destruct (key a =? k) eqn:Hk; [|now apply IH].
  f_equal. apply filter_nil_existsb. apply not_true_is_false.
  rewrite existsb_exists. intros (x & Hx & Hxk).
  apply Z.eqb_eq in Hk, Hxk. apply Ha. rewrite Hk, <- Hxk. now apply in_map.
Qed.

Lemma user_reviews_rows (name : String.string) (users : list AuthUser)
    (rs : list Review.t) :
  NoDup (map auth_id users) ->
  map fst
      (filter (fun ru : Review.t * AuthUser =>
                 String.eqb (username (snd ru)) name)
              (flat_map
                 (fun r => map (pair r)
                               (filter (fun u => auth_id u
                                                 =? Review.review_user r)
                                       users))
                 rs))
  = filter (owner_is name users) rs.
Proof.
  intros Hnd. induction rs as [|r rs IH]; cbn; [reflexivity|].
  rewrite filter_app, map_app, IH. unfold owner_is at 2, owner_name.
  rewrite (filter_key_unique auth_id) by exact Hnd.
  destruct (find (fun u => auth_id u =? Review.review_user r) users) as [u|];
    cbn; [|reflexivity].
  now destruct (String.eqb (username u) name).
Qed.

(** X21.  The reviews of a user by name, on a user table with unique
    keys: the view returns exactly the stored reviews whose owner has
    the requested user name, active or not, each once, newest first;
    no review when nobody has that name, and none when the request
    carries no user name. *)
Theorem UserReview_spec (users : list AuthUser) (db : DB) :
  NoDup (map auth_id users) ->
  UserReview_get_queryset None users db = []
  /\ forall name,
      Permutation (UserReview_get_queryset (Some name) users db)
                  (filter (owner_is name users) (reviews db))
      /\ StronglySorted review_created_ge
                        (UserReview_get_queryset (Some name) users db)
      /\ ((forall u, In u users -> username u <> name) ->
          UserReview_get_queryset (Some name) users db = []).
Proof.
  intros Hnd. split; [reflexivity|]. intros name.
  unfold UserReview_get_queryset, review_user_join.
  rewrite user_reviews_rows by exact Hnd.
  split; [apply order_by_perm|]. split.
  - apply StronglySorted_impl with (R := in_order review_created_desc).
    + unfold in_order, review_created_desc, review_created_ge. intros a b H.
      now apply Z.ltb_ge in H.
    + apply order_by_sorted; unfold review_created_desc.
      * intros a b. rewrite Z.ltb_lt, Z.ltb_ge. lia.
      * intros a b c. rewrite !Z.ltb_ge. lia.
  - intros Hnobody.
    assert (Hnil : filter (owner_is name users) (reviews db) = []).
    { apply filter_nil_existsb. apply not_true_is_false.
      rewrite existsb_exists. intros (r & _ & Hr).
      unfold owner_is, owner_name in Hr.
      destruct (find _ users) as [u|] eqn:Hu; cbn in Hr; [|discriminate].
      apply find_some in Hu as [Hu _]. apply String.eqb_eq in Hr.
      now apply (Hnobody u). }
    now rewrite Hnil.
Qed.







Lemma sample_users_unique : NoDup (map auth_id sample_users).
Proof. solve_table_ok. Defined.

(** X21 on [sample_db]: the reviews of alice are 4, 6 and 1, newest
    first. *)
Lemma UserReview_spec_witness :
  NoDup (map auth_id sample_users)
  /\ map Review.id (UserReview_get_queryset (Some StatusChoices.name_alice)
                                            sample_users sample_db)
     = [4; 6; 1]
  /\ Permutation
       (UserReview_get_queryset (Some StatusChoices.name_alice)
                                sample_users sample_db)
       (filter (owner_is StatusChoices.name_alice sample_users)
               (reviews sample_db)).
Proof.
  split; [exact sample_users_unique|]. split; [vm_compute; reflexivity|].
  exact (proj1 (proj2 (UserReview_spec sample_users sample_db
                         sample_users_unique)
                      StatusChoices.name_alice)).
Defined.

